(** * The kimi-code proxy (src/proxy.js): a shallow embedding and its properties

    The proxy accepts one vendor's message API on POST /v1/messages,
    forwards the request to an OpenAI-compatible chat-completion API and
    translates the answer back, either as one JSON object or as a stream
    of server-sent events.

    The embedding follows src/proxy.js function by function.  JavaScript
    values are a small inductive type, exceptions are an error monad, the
    per-request mutable variables of the handler are a record that is
    threaded through the code, and everything the handler writes on the
    socket is appended to a trace. *)

From Stdlib Require Import String Ascii List ZArith Lia Bool Arith.
From Stdlib Require Import DecimalString DecimalPos DecimalZ.
Import ListNotations.

Local Open Scope string_scope.
Local Open Scope list_scope.

(** ** JavaScript strings

    A string is a sequence of code units; the model keeps the code units
    that fit in eight bits. *)
Module Str.

Definition length (s : string) : Z := Z.of_nat (String.length s).

(** [s.substring(n)] for [0 <= n]. *)
Fixpoint substring (n : nat) (s : string) : string :=
  match n, s with
  | O, _ => s
  | S _, EmptyString => EmptyString
  | S n', String _ s' => substring n' s'
  end.

(** [s.startsWith(p)]. *)
Fixpoint startsWith (p s : string) : bool :=
  match p, s with
  | EmptyString, _ => true
  | String _ _, EmptyString => false
  | String a p', String b s' => Ascii.eqb a b && startsWith p' s'
  end.

(** [s.includes(p)]. *)
Fixpoint includes (p s : string) : bool :=
  startsWith p s ||
  match s with
  | EmptyString => false
  | String _ s' => includes p s'
  end.

(** [s.replace(p, r)] for a string pattern [p] and a replacement [r]
    without dollar patterns: the first occurrence only. *)
Fixpoint replace (p r s : string) : string :=
  if startsWith p s then r ++ substring (String.length p) s
  else match s with
       | EmptyString => EmptyString
       | String a s' => String a (replace p r s')
       end.

(** [s.split(c)] for a separator of one code unit. *)
Fixpoint split (c : ascii) (s : string) : list string :=
  match s with
  | EmptyString => [EmptyString]
  | String a s' =>
      if Ascii.eqb a c then EmptyString :: split c s'
      else match split c s' with
           | [] => [String a EmptyString]
           | w :: ws => String a w :: ws
           end
  end.

(** [l.join(sep)] on strings. *)
Fixpoint join (sep : string) (l : list string) : string :=
  match l with
  | [] => EmptyString
  | [x] => x
  | x :: rest => x ++ sep ++ join sep rest
  end.

(** White space and line terminators, as [trim] and the regular
    expression class [\s] see them. *)
Definition is_space (a : ascii) : bool :=
  let n := nat_of_ascii a in
  ((9 <=? n)%nat && (n <=? 13)%nat) || (n =? 32)%nat || (n =? 160)%nat.

Fixpoint trimStart (s : string) : string :=
  match s with
  | EmptyString => EmptyString
  | String a s' => if is_space a then trimStart s' else s
  end.

Fixpoint all_space (s : string) : bool :=
  match s with
  | EmptyString => true
  | String a s' => is_space a && all_space s'
  end.

Fixpoint trimEnd (s : string) : string :=
  match s with
  | EmptyString => EmptyString
  | String a s' => if all_space s then EmptyString else String a (trimEnd s')
  end.

Definition trim (s : string) : string := trimEnd (trimStart s).

(** [s.replace(/^data:\s*/, '')]. *)
Definition strip_data (s : string) : string :=
  if startsWith "data:" s then trimStart (substring 5 s) else s.

Definition of_Z (n : Z) : string := NilZero.string_of_int (Z.to_int n).

Definition is_digit (a : ascii) : bool :=
  let n := nat_of_ascii a in (48 <=? n)%nat && (n <=? 57)%nat.

Definition digit_val (a : ascii) : Z := Z.of_nat (nat_of_ascii a - 48).

(** The value of the longest run of decimal digits at the head of [s],
    continuing from [acc]; [seen] tells whether a digit was read. *)
Fixpoint digits (s : string) (acc : Z) (seen : bool) : option Z :=
  match s with
  | String a s' =>
      if is_digit a then digits s' (10 * acc + digit_val a)%Z true
      else if seen then Some acc else None
  | EmptyString => if seen then Some acc else None
  end.

(** [parseInt(s, 10)]; [None] stands for NaN. *)
Definition parseInt (s : string) : option Z :=
  match trimStart s with
  | String "-" s' => option_map Z.opp (digits s' 0%Z false)
  | String "+" s' => digits s' 0%Z false
  | s' => digits s' 0%Z false
  end.

Fixpoint all_digits (s : string) : bool :=
  match s with
  | EmptyString => true
  | String a s' => is_digit a && all_digits s'
  end.

(** The numeric value of a string (ToNumber) within the integers: the
    empty string is zero and a decimal integer is itself; the other
    strings are taken as not a number. *)
Definition toNumber (s : string) : option Z :=
  match trim s with
  | EmptyString => Some 0%Z
  | String "-" s' =>
      if all_digits s' then option_map Z.opp (digits s' 0%Z false) else None
  | String "+" s' => if all_digits s' then digits s' 0%Z false else None
  | s' => if all_digits s' then digits s' 0%Z false else None
  end.

End Str.

(** ** JavaScript values

    The values that JSON carries, with [undefined] and NaN, which the
    handler produces itself.  Numbers are kept to the integers that a
    number holds exactly: the handler computes only with lengths and
    counts.  An object is the list of its own properties in the order in
    which [for ... in] visits them. *)
#[warnings="-register-all"]
Inductive value : Type :=
| VUndef
| VNull
| VBool (b : bool)
| VNum (n : Z)
| VNaN
| VStr (s : string)
| VArr (items : list value)
| VObj (props : list (string * value)).

(** An evaluation either yields a result or throws an error, of which the
    handler only ever reads the message. *)
Inductive result (A : Type) : Type :=
| Ok (a : A)
| Throw (message : string).

Arguments Ok {A} a.
Arguments Throw {A} message.

Definition bind {A B : Type} (r : result A) (k : A -> result B) : result B :=
  match r with
  | Ok a => k a
  | Throw m => Throw m
  end.

Notation "x <- e ;; k" := (bind e (fun x => k))
  (at level 61, e at next level, right associativity).

Module JS.

(** ToBoolean. *)
Definition truthy (v : value) : bool :=
  match v with
  | VUndef | VNull | VNaN => false
  | VBool b => b
  | VNum n => negb (n =? 0)%Z
  | VStr s => negb (String.eqb s "")
  | VArr _ | VObj _ => true
  end.

(** [typeof v === 'object']. *)
Definition is_object (v : value) : bool :=
  match v with
  | VNull | VArr _ | VObj _ => true
  | _ => false
  end.

Definition isArray (v : value) : bool :=
  match v with
  | VArr _ => true
  | _ => false
  end.

Definition is_string (v : value) : bool :=
  match v with
  | VStr _ => true
  | _ => false
  end.

(** [v === 'literal']. *)
Definition str_eq (v : value) (lit : string) : bool :=
  match v with
  | VStr s => String.eqb s lit
  | _ => false
  end.

(** [a || b]. *)
Definition or (a b : value) : value := if truthy a then a else b.

(** ToString.  The numbers of [value] are integers and are printed digit
    by digit, which is what the language does below 10^21; the objects
    are plain ones, as [JSON.parse] returns them, and print as
    [[object Object]]. *)
Fixpoint toString (v : value) : string :=
  match v with
  | VUndef => "undefined"
  | VNull => "null"
  | VBool true => "true"
  | VBool false => "false"
  | VNum n => Str.of_Z n
  | VNaN => "NaN"
  | VStr s => s
  | VArr l =>
      Str.join ","
        (map (fun x => match x with
                       | VUndef | VNull => ""
                       | _ => toString x
                       end) l)
  | VObj _ => "[object Object]"
  end.

(** ToNumber; [None] stands for NaN. *)
Definition toNumber (v : value) : option Z :=
  match v with
  | VUndef | VNaN => None
  | VNull => Some 0%Z
  | VBool b => Some (if b then 1 else 0)%Z
  | VNum n => Some n
  | VStr s => Str.toNumber s
  | VArr _ => Str.toNumber (toString v)
  | VObj _ => None
  end.

(** ToPrimitive: an array or an object becomes its string. *)
Definition toPrimitive (v : value) : value :=
  match v with
  | VArr _ | VObj _ => VStr (toString v)
  | _ => v
  end.

(** [a > b]: two strings are compared as strings, other values as
    numbers, and nothing is greater or less than NaN. *)
Definition gt (a b : value) : bool :=
  match toPrimitive a, toPrimitive b with
  | VStr s, VStr t => negb (String.leb s t)
  | a', b' =>
      match toNumber a', toNumber b' with
      | Some x, Some y => (y <? x)%Z
      | _, _ => false
      end
  end.

Fixpoint lookup (k : string) (props : list (string * value)) : value :=
  match props with
  | [] => VUndef
  | (k', v) :: rest => if String.eqb k k' then v else lookup k rest
  end.

(** [v.name] for a property name that no prototype defines. *)
Definition get (v : value) (name : string) : result value :=
  match v with
  | VUndef =>
      Throw ("Cannot read properties of undefined (reading '" ++ name ++ "')")
  | VNull =>
      Throw ("Cannot read properties of null (reading '" ++ name ++ "')")
  | VObj props => Ok (lookup name props)
  | VArr l =>
      Ok (if String.eqb name "length" then VNum (Z.of_nat (List.length l))
          else VUndef)
  | VStr s =>
      Ok (if String.eqb name "length" then VNum (Str.length s) else VUndef)
  | _ => Ok VUndef
  end.

(** [v?.name]. *)
Definition get_opt (v : value) (name : string) : value :=
  match get v name with
  | Ok x => x
  | Throw _ => VUndef
  end.

(** [v?.[0]]. *)
Definition first_opt (v : value) : value :=
  match v with
  | VArr (x :: _) => x
  | VStr (String a _) => VStr (String a "")
  | VObj props => lookup "0" props
  | _ => VUndef
  end.

(** The values that [for (const x of v)] visits, or the error it throws. *)
Definition iterate (expr : string) (v : value) : result (list value) :=
  match v with
  | VArr l => Ok l
  | VStr s => Ok (map (fun a => VStr (String a "")) (list_ascii_of_string s))
  | _ => Throw (expr ++ " is not iterable")
  end.

(** An array index: the canonical numeral of an integer below 2^32 - 1. *)
Definition array_index (k : string) : option Z :=
  if Str.all_digits k && negb (String.eqb k "") then
    match Str.digits k 0%Z false with
    | Some n =>
        if String.eqb (Str.of_Z n) k && (n <? 4294967295)%Z then Some n
        else None
    | None => None
    end
  else None.

(** Where a new property goes: array indices first, in ascending order,
    then the other names in the order of their creation. *)
Fixpoint insert (k : string) (v : value) (props : list (string * value))
  : list (string * value) :=
  match props with
  | [] => [(k, v)]
  | (k', v') :: rest =>
      match array_index k, array_index k' with
      | Some n, Some n' =>
          if (n <? n')%Z then (k, v) :: props else (k', v') :: insert k v rest
      | Some _, None => (k, v) :: props
      | None, _ => (k', v') :: insert k v rest
      end
  end.

Fixpoint has (k : string) (props : list (string * value)) : bool :=
  match props with
  | [] => false
  | (k', _) :: rest => String.eqb k k' || has k rest
  end.

Fixpoint update (k : string) (v : value) (props : list (string * value))
  : list (string * value) :=
  match props with
  | [] => []
  | (k', v') :: rest =>
      if String.eqb k k' then (k', v) :: rest else (k', v') :: update k v rest
  end.

(** [o[k] = v] on the own properties of a plain object that was made by
    an object literal.  An assignment to [__proto__] goes to the accessor
    of [Object.prototype] and makes no property. *)
Definition set (k : string) (v : value) (props : list (string * value))
  : list (string * value) :=
  if String.eqb k "__proto__" then props
  else if has k props then update k v props else insert k v props.

(** The names that an object literal inherits from [Object.prototype],
    each with the [length] of what is found under it: the number of
    parameters of a method; [__proto__] yields the prototype itself, which
    has no [length]. *)
Definition inherited : list (string * value) :=
  [("constructor", VNum 1);
   ("hasOwnProperty", VNum 1);
   ("isPrototypeOf", VNum 1);
   ("propertyIsEnumerable", VNum 1);
   ("toLocaleString", VNum 0);
   ("toString", VNum 0);
   ("valueOf", VNum 0);
   ("__defineGetter__", VNum 2);
   ("__defineSetter__", VNum 2);
   ("__lookupGetter__", VNum 1);
   ("__lookupSetter__", VNum 1);
   ("__proto__", VUndef)].

(** [o[k] === undefined] for an object literal [o] with the own
    properties [props]. *)
Definition undefined_at (k : string) (props : list (string * value)) : bool :=
  if has k props then
    match lookup k props with
    | VUndef => true
    | _ => false
    end
  else negb (has k inherited).

(** [o[k].length] for such an object. *)
Definition length_at (k : string) (props : list (string * value))
  : result value :=
  if has k props then get (lookup k props) "length"
  else if has k inherited then Ok (lookup k inherited)
  else Throw "Cannot read properties of undefined (reading 'length')".

(** The names that [for (const k in o)] visits. *)
Definition keys (props : list (string * value)) : list string :=
  map fst props.

(** [const { name, ...rest } = o]: the own properties but [name]. *)
Definition without (name : string) (props : list (string * value))
  : list (string * value) :=
  filter (fun kv => negb (String.eqb (fst kv) name)) props.

(** [s.split(' ').length] for a value [s]. *)
Definition word_count (expr : string) (v : value) : result Z :=
  match v with
  | VStr s => Ok (Z.of_nat (List.length (Str.split " " s)))
  | VUndef =>
      Throw "Cannot read properties of undefined (reading 'split')"
  | VNull => Throw "Cannot read properties of null (reading 'split')"
  | _ => Throw (expr ++ ".split is not a function")
  end.

End JS.

(** ** The schema sanitizer (src/proxy.js, removeUriFormat)

    [for (const key in schema)] visits the own properties in order and
    [schema[key]] is the value stored under the name visited. *)
Module Schema.

(** The names that [for ... in] visits on an array. *)
Definition index_keys (n : nat) : list string :=
  map (fun i => Str.of_Z (Z.of_nat i)) (seq 0 n).

Definition assign_all (kvs : list (string * value)) : list (string * value) :=
  fold_left (fun result kv => JS.set (fst kv) (snd kv) result) kvs [].

Fixpoint removeUriFormat (schema : value) : value :=
  match schema with
  | VObj props =>
      if JS.str_eq (JS.lookup "type" props) "string"
         && JS.str_eq (JS.lookup "format" props) "uri"
      then VObj (JS.without "format" props)
      else
        VObj
          (fold_left
             (fun result kv =>
                match kv with
                | (key, v) =>
                    if String.eqb key "properties" && JS.is_object v then
                      JS.set key
                        (VObj
                           match v with
                           | VObj ps =>
                               fold_left
                                 (fun r pkv =>
                                    match pkv with
                                    | (propKey, pv) =>
                                        JS.set propKey (removeUriFormat pv) r
                                    end) ps []
                           | VArr l =>
                               assign_all
                                 (combine (index_keys (List.length l))
                                    (map removeUriFormat l))
                           | _ => []
                           end) result
                    else if String.eqb key "items" && JS.is_object v then
                      JS.set key (removeUriFormat v) result
                    else if String.eqb key "additionalProperties"
                            && JS.is_object v then
                      JS.set key (removeUriFormat v) result
                    else
                      match v with
                      | VArr l =>
                          if String.eqb key "anyOf" || String.eqb key "allOf"
                             || String.eqb key "oneOf"
                          then JS.set key (VArr (map removeUriFormat l)) result
                          else JS.set key (removeUriFormat v) result
                      | _ => JS.set key (removeUriFormat v) result
                      end
                end) props [])
  | VArr items => VArr (map removeUriFormat items)
  | _ => schema
  end.

End Schema.

(** ** The downstream socket

    [reply.raw] is a Node response object.  The model keeps the three flags
    that the handler and [sendSSE] read, and the trace of what was written.
    [WriteSSE event data] stands for the record
    [event: <event>\ndata: <JSON.stringify(data)>\n\n]. *)
Inductive action : Type :=
| WriteHead (status : Z) (headers : list (string * string))
| WriteSSE (event : string) (data : value)
| EndResponse.

Record socket : Type := mkSocket {
  destroyed : bool;
  writableEnded : bool;
  headersSent : bool;
  written : list action
}.

Definition fresh_socket : socket := mkSocket false false false [].

Module Raw.

(** [reply.raw.writeHead(status, headers)]: Node refuses a second header
    block. *)
Definition writeHead (r : socket) (status : Z)
    (headers : list (string * string)) : result socket :=
  if headersSent r then
    Throw "Cannot write headers after they are sent to the client"
  else
    Ok (mkSocket (destroyed r) (writableEnded r) true
          (written r ++ [WriteHead status headers])).

(** [reply.raw.write(sseMessage)]: the first write sends the implicit
    header block if none was written. *)
Definition write (r : socket) (a : action) : socket :=
  mkSocket (destroyed r) (writableEnded r) true (written r ++ [a]).

(** [reply.raw.end()]; ending an ended response does nothing. *)
Definition end_ (r : socket) : socket :=
  if writableEnded r then r
  else mkSocket (destroyed r) true true (written r ++ [EndResponse]).

(** The peer went away: the socket is destroyed. *)
Definition close (r : socket) : socket :=
  mkSocket true (writableEnded r) (headersSent r) (written r).

(** Fastify's [reply.sent]: the raw response has ended. *)
Definition sent (r : socket) : bool := writableEnded r.

End Raw.

(** [sendSSE(reply, event, data)] (src/proxy.js, lines 15-34): nothing is
    written on a destroyed or ended socket; the boolean tells whether the
    record was written. *)
Definition sendSSE (r : socket) (event : string) (data : value)
  : socket * bool :=
  if destroyed r || writableEnded r then (r, false)
  else (Raw.write r (WriteSSE event data), true).

(** [mapStopReason] (lines 36-43). *)
Definition mapStopReason (finishReason : value) : string :=
  if JS.str_eq finishReason "tool_calls" then "tool_use"
  else if JS.str_eq finishReason "stop" then "end_turn"
  else if JS.str_eq finishReason "length" then "max_tokens"
  else "end_turn".

(** The configuration that [start] builds (lines 47-56). *)
Record config : Type := mkConfig {
  baseUrl : string;
  key : string;
  reasoning : string;
  completion : string;
  maxTokens : Z
}.

(** What the upstream call delivers.  A read of the response body yields a
    chunk of text, and the client may have gone away while the read was
    awaited; or the read fails. *)
Inductive read : Type :=
| Chunk (closeEvent : bool) (text : string)
| ReadError (message : string).

Inductive fetch_result : Type :=
| FetchError (message : string)
| Response (ok : bool) (status : Z) (body : list read).

(** The surroundings of one request: the answer of the upstream call,
    whether the client went away while that call was awaited, and the text
    that [Math.random().toString(36).substr(2, 24)] yields. *)
Record environment : Type := mkEnv {
  upstream : fetch_result;
  closedEarly : bool;
  randomSuffix : string
}.

(** What Fastify sends for the value that the handler returns: an object
    becomes the JSON body under the status that [reply.code] set (200 when
    it was not called); [undefined] sends nothing. *)
Inductive answer : Type :=
| Body (status : Z) (body : value)
| Nothing.

Fixpoint mapM {A B : Type} (f : A -> result B) (l : list A) : result (list B) :=
  match l with
  | [] => Ok []
  | x :: rest => y <- f x ;; ys <- mapM f rest ;; Ok (y :: ys)
  end.

Fixpoint filterM {A : Type} (f : A -> result bool) (l : list A)
  : result (list A) :=
  match l with
  | [] => Ok []
  | x :: rest =>
      b <- f x ;; ys <- filterM f rest ;; Ok (if b then x :: ys else ys)
  end.

(** [new Error(m).message]. *)
Definition error_message (m : value) : string :=
  match m with
  | VUndef => ""
  | _ => JS.toString m
  end.

(** [a.join(sep)] on values. *)
Definition join_values (sep : string) (l : list value) : string :=
  Str.join sep
    (map (fun x => match x with
                   | VUndef | VNull => ""
                   | _ => JS.toString x
                   end) l).

(** The request that goes upstream (lines 180-187). *)
Record openai_payload : Type := mkPayload {
  model : string;
  messages : list value;
  max_tokens : Z;
  temperature : value;
  stream : bool;
  tools : list value
}.

(** The variables of one run of the handler (lines 65-66, 264-265 and
    309-319) that the processing of a line reads or writes, with the socket
    it writes on.  The carry-over [buffer] of the read loop is an argument
    of that loop. *)
Record state : Type := mkState {
  raw : socket;
  hasStartedStreaming : bool;
  connectionClosed : bool;
  isSucceeded : bool;
  isStreamingStarted : bool;
  accumulatedContent : string;
  accumulatedReasoning : string;
  usage : value;
  textBlockStarted : bool;
  encounteredToolCall : bool;
  toolCallAccumulators : list (string * value);
  incompleteDataLine : string
}.

Definition initial_state : state :=
  mkState fresh_socket false false false false "" "" VNull false false [] "".

(** An assignment to one of the variables. *)
Definition set_raw (x : socket) (st : state) : state :=
  mkState x (hasStartedStreaming st) (connectionClosed st) (isSucceeded st)
    (isStreamingStarted st) (accumulatedContent st) (accumulatedReasoning st)
    (usage st) (textBlockStarted st) (encounteredToolCall st)
    (toolCallAccumulators st) (incompleteDataLine st).

Definition set_hasStartedStreaming (x : bool) (st : state) : state :=
  mkState (raw st) x (connectionClosed st) (isSucceeded st)
    (isStreamingStarted st) (accumulatedContent st) (accumulatedReasoning st)
    (usage st) (textBlockStarted st) (encounteredToolCall st)
    (toolCallAccumulators st) (incompleteDataLine st).

Definition set_connectionClosed (x : bool) (st : state) : state :=
  mkState (raw st) (hasStartedStreaming st) x (isSucceeded st)
    (isStreamingStarted st) (accumulatedContent st) (accumulatedReasoning st)
    (usage st) (textBlockStarted st) (encounteredToolCall st)
    (toolCallAccumulators st) (incompleteDataLine st).

Definition set_isSucceeded (x : bool) (st : state) : state :=
  mkState (raw st) (hasStartedStreaming st) (connectionClosed st) x
    (isStreamingStarted st) (accumulatedContent st) (accumulatedReasoning st)
    (usage st) (textBlockStarted st) (encounteredToolCall st)
    (toolCallAccumulators st) (incompleteDataLine st).

Definition set_isStreamingStarted (x : bool) (st : state) : state :=
  mkState (raw st) (hasStartedStreaming st) (connectionClosed st)
    (isSucceeded st) x (accumulatedContent st) (accumulatedReasoning st)
    (usage st) (textBlockStarted st) (encounteredToolCall st)
    (toolCallAccumulators st) (incompleteDataLine st).

Definition set_accumulatedContent (x : string) (st : state) : state :=
  mkState (raw st) (hasStartedStreaming st) (connectionClosed st)
    (isSucceeded st) (isStreamingStarted st) x (accumulatedReasoning st)
    (usage st) (textBlockStarted st) (encounteredToolCall st)
    (toolCallAccumulators st) (incompleteDataLine st).

Definition set_accumulatedReasoning (x : string) (st : state) : state :=
  mkState (raw st) (hasStartedStreaming st) (connectionClosed st)
    (isSucceeded st) (isStreamingStarted st) (accumulatedContent st) x
    (usage st) (textBlockStarted st) (encounteredToolCall st)
    (toolCallAccumulators st) (incompleteDataLine st).

Definition set_usage (x : value) (st : state) : state :=
  mkState (raw st) (hasStartedStreaming st) (connectionClosed st)
    (isSucceeded st) (isStreamingStarted st) (accumulatedContent st)
    (accumulatedReasoning st) x (textBlockStarted st)
    (encounteredToolCall st) (toolCallAccumulators st)
    (incompleteDataLine st).

Definition set_textBlockStarted (x : bool) (st : state) : state :=
  mkState (raw st) (hasStartedStreaming st) (connectionClosed st)
    (isSucceeded st) (isStreamingStarted st) (accumulatedContent st)
    (accumulatedReasoning st) (usage st) x (encounteredToolCall st)
    (toolCallAccumulators st) (incompleteDataLine st).

Definition set_encounteredToolCall (x : bool) (st : state) : state :=
  mkState (raw st) (hasStartedStreaming st) (connectionClosed st)
    (isSucceeded st) (isStreamingStarted st) (accumulatedContent st)
    (accumulatedReasoning st) (usage st) (textBlockStarted st) x
    (toolCallAccumulators st) (incompleteDataLine st).

Definition set_toolCallAccumulators (x : list (string * value)) (st : state)
  : state :=
  mkState (raw st) (hasStartedStreaming st) (connectionClosed st)
    (isSucceeded st) (isStreamingStarted st) (accumulatedContent st)
    (accumulatedReasoning st) (usage st) (textBlockStarted st)
    (encounteredToolCall st) x (incompleteDataLine st).

Definition set_incompleteDataLine (x : string) (st : state) : state :=
  mkState (raw st) (hasStartedStreaming st) (connectionClosed st)
    (isSucceeded st) (isStreamingStarted st) (accumulatedContent st)
    (accumulatedReasoning st) (usage st) (textBlockStarted st)
    (encounteredToolCall st) (toolCallAccumulators st) x.

(** ** Code that changes the handler's variables

    Code that runs inside the [try] of the parse loop changes the handler's
    variables and may throw; what it changed before it threw stays
    changed. *)
Definition M (A : Type) : Type := state -> state * result A.

Definition ret {A : Type} (a : A) : M A := fun st => (st, Ok a).

Definition throw {A : Type} (m : string) : M A := fun st => (st, Throw m).

Definition bindM {A B : Type} (c : M A) (k : A -> M B) : M B :=
  fun st =>
    match c st with
    | (st', Ok a) => k a st'
    | (st', Throw m) => (st', Throw m)
    end.

Notation "x <~ c ;; k" := (bindM c (fun x => k))
  (at level 61, c at next level, right associativity).
Notation "c ;;; k" := (bindM c (fun _ => k))
  (at level 61, right associativity).

Definition lift {A : Type} (r : result A) : M A := fun st => (st, r).

Definition modify (f : state -> state) : M unit := fun st => (f st, Ok tt).

Definition when (b : bool) (c : M unit) : M unit := if b then c else ret tt.

(** A call of [sendSSE] on the reply of this request; no caller reads its
    result. *)
Definition send (event : string) (data : value) (st : state) : state :=
  set_raw (fst (sendSSE (raw st) event data)) st.

Definition emit (event : string) (data : value) : M unit :=
  modify (send event data).

Definition sse_headers : list (string * string) :=
  [("Content-Type", "text/event-stream");
   ("Cache-Control", "no-cache");
   ("Connection", "keep-alive")].

Definition message_start (id : string) (mdl : string) : value :=
  VObj [("type", VStr "message_start");
        ("message",
         VObj [("id", VStr id);
               ("type", VStr "message");
               ("role", VStr "assistant");
               ("model", VStr mdl);
               ("content", VArr []);
               ("stop_reason", VNull);
               ("stop_sequence", VNull);
               ("usage", VObj [("input_tokens", VNum 0);
                               ("output_tokens", VNum 0)])])].

Definition ping : value := VObj [("type", VStr "ping")].

Section Proxy.

(** The runtime's [JSON.parse], which yields a value or throws a syntax
    error, and [JSON.stringify]. *)
Variable JSON_parse : string -> result value.
Variable JSON_stringify : value -> value.

Variable cfg : config.

(** *** The payload translator (lines 78-187) *)

(** [normalizeContent] (lines 83-89). *)
Definition normalizeContent (content : value) : result value :=
  match content with
  | VStr _ => Ok content
  | VArr items =>
      texts <- mapM (fun item => JS.get item "text") items ;;
      Ok (VStr (join_values " " texts))
  | _ => Ok VNull
  end.

(** [o.text || o.content]. *)
Definition text_or_content (o : value) : result value :=
  text <- JS.get o "text" ;;
  if JS.truthy text then Ok text else JS.get o "content".

(** One entry of [payload.system] (lines 95-103). *)
Definition system_message (sysMsg : value) : result (list value) :=
  raw <- text_or_content sysMsg ;;
  normalized <- normalizeContent raw ;;
  Ok (if JS.truthy normalized
      then [VObj [("role", VStr "system"); ("content", normalized)]]
      else []).

Definition has_type (t : string) (item : value) : result bool :=
  ty <- JS.get item "type" ;; Ok (JS.str_eq ty t).

(** A tool_use block as a function call (lines 108-115). *)
Definition tool_call_of (toolCall : value) : result value :=
  id <- JS.get toolCall "id" ;;
  name <- JS.get toolCall "name" ;;
  input <- JS.get toolCall "input" ;;
  Ok (VObj [("id", id);
            ("type", VStr "function");
            ("function", VObj [("name", name);
                               ("arguments", JSON_stringify input)])]).

(** A tool_result block as a message of its own (lines 125-129). *)
Definition tool_message (toolResult : value) : result value :=
  content <- text_or_content toolResult ;;
  id <- JS.get toolResult "tool_use_id" ;;
  Ok (VObj [("role", VStr "tool");
            ("content", content);
            ("tool_call_id", id)]).

(** What one inbound message pushes on [messages] (lines 107-132). *)
Definition translate_message (msg : value) : result (list value) :=
  content <- JS.get msg "content" ;;
  uses <- filterM (has_type "tool_use")
            (match content with VArr l => l | _ => [] end) ;;
  toolCalls <- mapM tool_call_of uses ;;
  role <- JS.get msg "role" ;;
  let newMsg := [("role", role)] in
  normalized <- normalizeContent content ;;
  let newMsg :=
    if JS.truthy normalized then JS.set "content" normalized newMsg
    else newMsg in
  let newMsg :=
    if (0 <? Z.of_nat (List.length toolCalls))%Z
    then JS.set "tool_calls" (VArr toolCalls) newMsg
    else newMsg in
  let pushed :=
    if JS.truthy (JS.or (JS.lookup "content" newMsg)
                        (JS.lookup "tool_calls" newMsg))
    then [VObj newMsg] else [] in
  toolMessages <-
    match content with
    | VArr l =>
        toolResults <- filterM (has_type "tool_result") l ;;
        mapM tool_message toolResults
    | _ => Ok []
    end ;;
  Ok (pushed ++ toolMessages).

(** The [messages] array (lines 93-133). *)
Definition build_messages (payload : value) : result (list value) :=
  system <- JS.get payload "system" ;;
  fromSystem <-
    match system with
    | VArr l => xs <- mapM system_message l ;; Ok (concat xs)
    | _ => Ok []
    end ;;
  msgs <- JS.get payload "messages" ;;
  fromMessages <-
    match msgs with
    | VArr l => xs <- mapM translate_message l ;; Ok (concat xs)
    | _ => Ok []
    end ;;
  Ok (fromSystem ++ fromMessages).

(** The [tools] array (lines 172-179). *)
Definition build_tools (payload : value) : result (list value) :=
  declared <- JS.get payload "tools" ;;
  match JS.or declared (VArr []) with
  | VArr l =>
      kept <- filterM (fun tool =>
                         name <- JS.get tool "name" ;;
                         Ok (negb (JS.str_eq name "BatchTool"))) l ;;
      mapM (fun tool =>
              name <- JS.get tool "name" ;;
              description <- JS.get tool "description" ;;
              input_schema <- JS.get tool "input_schema" ;;
              Ok (VObj [("type", VStr "function");
                        ("function",
                         VObj [("name", name);
                               ("description", description);
                               ("parameters",
                                Schema.removeUriFormat input_schema)])]))
           kept
  | _ => Throw "(payload.tools || []).filter is not a function"
  end.

(** [openaiPayload] (lines 180-187). *)
Definition build_payload (payload : value) : result openai_payload :=
  msgs <- build_messages payload ;;
  tls <- build_tools payload ;;
  thinking <- JS.get payload "thinking" ;;
  temp <- JS.get payload "temperature" ;;
  strm <- JS.get payload "stream" ;;
  Ok (mkPayload
        (if JS.truthy thinking then reasoning cfg else completion cfg)
        msgs
        (maxTokens cfg)
        (match temp with VUndef => VNum 1 | _ => temp end)
        (match strm with VBool true => true | _ => false end)
        tls).

(** *** The non-streaming response translator (lines 211-261) *)

(** [v[0]]. *)
Definition first (v : value) : result value :=
  match v with
  | VUndef => Throw "Cannot read properties of undefined (reading '0')"
  | VNull => Throw "Cannot read properties of null (reading '0')"
  | _ => Ok (JS.first_opt v)
  end.

(** The message id (lines 227-229). *)
Definition messageId (id : value) (rnd : string) : result string :=
  if JS.truthy id then
    match id with
    | VStr s => Ok (Str.replace "chatcmpl" "msg" s)
    | _ => Throw "data.id.replace is not a function"
    end
  else Ok ("msg_" ++ rnd)%string.

(** A tool call of the answer as a tool_use block (lines 237-242). *)
Definition tool_use_of (toolCall : value) : result value :=
  id <- JS.get toolCall "id" ;;
  fn <- JS.get toolCall "function" ;;
  name <- JS.get fn "name" ;;
  arguments <- JS.get fn "arguments" ;;
  input <- JSON_parse (JS.toString arguments) ;;
  Ok (VObj [("type", VStr "tool_use");
            ("id", id);
            ("name", name);
            ("input", input)]).

(** [messages.reduce((acc, msg) => acc + msg.content.split(' ').length, 0)]
    (line 253). *)
Fixpoint estimate_input (msgs : list value) (acc : Z) : result Z :=
  match msgs with
  | [] => Ok acc
  | msg :: rest =>
      content <- JS.get msg "content" ;;
      n <- JS.word_count "msg.content" content ;;
      estimate_input rest (acc + n)%Z
  end.

Definition translate_response (p : openai_payload) (rnd : string)
    (data : value) : result value :=
  err <- JS.get data "error" ;;
  if JS.truthy err then
    m <- JS.get err "message" ;; Throw (error_message m)
  else
    choices <- JS.get data "choices" ;;
    choice <- first choices ;;
    openaiMessage <- JS.get choice "message" ;;
    finish_reason <- JS.get choice "finish_reason" ;;
    let stopReason := mapStopReason finish_reason in
    tool_calls <- JS.get openaiMessage "tool_calls" ;;
    id <- JS.get data "id" ;;
    mid <- messageId id rnd ;;
    text <- JS.get openaiMessage "content" ;;
    blocks <-
      match JS.or tool_calls (VArr []) with
      | VArr l => mapM tool_use_of l
      | _ =>
          Throw ("toolCalls.map is not a function"
                 ++ " or its return value is not iterable")
      end ;;
    role <- JS.get openaiMessage "role" ;;
    usage <- JS.get data "usage" ;;
    input_tokens <-
      (if JS.truthy usage then JS.get usage "prompt_tokens"
       else n <- estimate_input (messages p) 0%Z ;; Ok (VNum n)) ;;
    output_tokens <-
      (if JS.truthy usage then JS.get usage "completion_tokens"
       else n <- JS.word_count "openaiMessage.content" text ;; Ok (VNum n)) ;;
    Ok (VObj [("content",
               VArr (VObj [("text", text); ("type", VStr "text")] :: blocks));
              ("id", VStr mid);
              ("model", VStr (model p));
              ("role", role);
              ("stop_reason", VStr stopReason);
              ("stop_sequence", VNull);
              ("type", VStr "message");
              ("usage", VObj [("input_tokens", input_tokens);
                              ("output_tokens", output_tokens)])]).

(** *** The streaming re-framer (lines 264-501) *)

Section Streaming.

(** The request that was sent upstream and the random part of the message
    id. *)
Variable p : openai_payload.
Variable rnd : string.

(** [sendSuccessMessage] (lines 267-306). *)
Definition sendSuccessMessage (st : state) : state :=
  if isSucceeded st || Raw.sent (raw st) || connectionClosed st
     || hasStartedStreaming st
  then st
  else
    let st := set_isSucceeded true st in
    let st := set_isStreamingStarted true st in
    let st := set_hasStartedStreaming true st in
    match Raw.writeHead (raw st) 200 sse_headers with
    | Throw _ => set_connectionClosed true st
    | Ok r =>
        let st := set_raw r st in
        let st := send "message_start"
                    (message_start ("msg_" ++ rnd) (model p)) st in
        send "ping" ping st
    end.

Definition tool_block_start (idx id name : value) : value :=
  VObj [("type", VStr "content_block_start");
        ("index", idx);
        ("content_block",
         VObj [("type", VStr "tool_use");
               ("id", id);
               ("name", name);
               ("input", VObj [])])].

Definition input_json_delta (idx : value) (deltaText : string) : value :=
  VObj [("type", VStr "content_block_delta");
        ("index", idx);
        ("delta", VObj [("type", VStr "input_json_delta");
                        ("partial_json", VStr deltaText)])].

Definition text_block_start : value :=
  VObj [("type", VStr "content_block_start");
        ("index", VNum 0);
        ("content_block", VObj [("type", VStr "text"); ("text", VStr "")])].

Definition text_delta (text : value) : value :=
  VObj [("type", VStr "content_block_delta");
        ("index", VNum 0);
        ("delta", VObj [("type", VStr "text_delta"); ("text", text)])].

Definition thinking_delta (thinking : value) : value :=
  VObj [("type", VStr "content_block_delta");
        ("index", VNum 0);
        ("delta", VObj [("type", VStr "thinking_delta");
                        ("thinking", thinking)])].

Definition content_block_stop (idx : value) : value :=
  VObj [("type", VStr "content_block_stop"); ("index", idx)].

Definition message_delta (stop_reason : string) (output_tokens : value)
  : value :=
  VObj [("type", VStr "message_delta");
        ("delta", VObj [("stop_reason", VStr stop_reason);
                        ("stop_sequence", VNull)]);
        ("usage", VObj [("output_tokens", output_tokens)])].

Definition message_stop : value := VObj [("type", VStr "message_stop")].

(** [v.substring(start)]. *)
Definition substring_of (expr : string) (v start : value) : result string :=
  match v with
  | VStr s =>
      Ok (Str.substring
            (match JS.toNumber start with
             | Some n => Z.to_nat n
             | None => O
             end) s)
  | _ => Throw (expr ++ ".substring is not a function")%string
  end.

(** The body of the loop over [delta.tool_calls] (lines 405-433).  Of
    [toolCallAccumulators[idx]] the code reads whether it is [undefined]
    and its [length]. *)
Definition handle_tool_call (toolCall : value) : M unit :=
  modify (set_encounteredToolCall true) ;;;
  idx <~ lift (JS.get toolCall "index") ;;
  let k := JS.toString idx in
  unseen <~
    (fun st => (st, Ok (JS.undefined_at k (toolCallAccumulators st)))) ;;
  when unseen
    (modify (fun st =>
               set_toolCallAccumulators
                 (JS.set k (VStr "") (toolCallAccumulators st)) st) ;;;
     id <~ lift (JS.get toolCall "id") ;;
     fn <~ lift (JS.get toolCall "function") ;;
     name <~ lift (JS.get fn "name") ;;
     emit "content_block_start" (tool_block_start idx id name)) ;;;
  fn <~ lift (JS.get toolCall "function") ;;
  arguments <~ lift (JS.get fn "arguments") ;;
  let newArgs := JS.or arguments (VStr "") in
  newLength <~ lift (JS.get newArgs "length") ;;
  oldLength <~ (fun st => (st, JS.length_at k (toolCallAccumulators st))) ;;
  if JS.gt newLength oldLength then
    deltaText <~ lift (substring_of "newArgs" newArgs oldLength) ;;
    emit "content_block_delta" (input_json_delta idx deltaText) ;;;
    modify (fun st =>
              set_toolCallAccumulators
                (JS.set k newArgs (toolCallAccumulators st)) st)
  else ret tt.

(** [for (const toolCall of delta.tool_calls)] (lines 403-434). *)
Fixpoint tool_calls_loop (toolCalls : list value) : M unit :=
  match toolCalls with
  | [] => ret tt
  | toolCall :: rest =>
      fun st =>
        if connectionClosed st then (st, Ok tt)
        else (handle_tool_call toolCall ;;; tool_calls_loop rest) st
  end.

(** The lazy opening of the text block (lines 436-446 and 457-467). *)
Definition open_text_block : M unit :=
  fun st =>
    if textBlockStarted st then (st, Ok tt)
    else (send "content_block_start" text_block_start
            (set_textBlockStarted true st), Ok tt).

(** [parsed.choices?.[0]?.delta] (line 401), for a [parsed] that is neither
    [null] nor [undefined]. *)
Definition delta_of (parsed : value) : value :=
  match JS.get_opt parsed "choices" with
  | VUndef | VNull => VUndef
  | choices =>
      match JS.first_opt choices with
      | VUndef | VNull => VUndef
      | choice => JS.get_opt choice "delta"
      end
  end.

(** What the [try] does with a parsed frame once the stream has been
    started (lines 397-477). *)
Definition frame_body (parsed : value) : M unit :=
  captured <~ lift (JS.get parsed "usage") ;;
  when (JS.truthy captured) (modify (set_usage captured)) ;;;
  let delta := delta_of parsed in
  fun st =>
    if JS.truthy delta && JS.truthy (JS.get_opt delta "tool_calls")
       && negb (connectionClosed st)
    then
      (toolCalls <~ lift (JS.iterate "delta.tool_calls"
                            (JS.get_opt delta "tool_calls")) ;;
       tool_calls_loop toolCalls) st
    else if JS.truthy delta && JS.truthy (JS.get_opt delta "content")
            && negb (connectionClosed st)
    then
      (open_text_block ;;;
       modify (fun st =>
                 set_accumulatedContent
                   (accumulatedContent st
                    ++ JS.toString (JS.get_opt delta "content")) st) ;;;
       emit "content_block_delta"
         (text_delta (JS.get_opt delta "content"))) st
    else if JS.truthy delta && JS.truthy (JS.get_opt delta "reasoning")
            && negb (connectionClosed st)
    then
      (open_text_block ;;;
       modify (fun st =>
                 set_accumulatedReasoning
                   (accumulatedReasoning st
                    ++ JS.toString (JS.get_opt delta "reasoning")) st) ;;;
       emit "content_block_delta"
         (thinking_delta (JS.get_opt delta "reasoning"))) st
    else (st, Ok tt).

(** The body of the [try] for a parsed frame (lines 391-477). *)
Definition handle_frame (parsed : value) : M unit :=
  err <~ lift (JS.get parsed "error") ;;
  if JS.truthy err then
    m <~ lift (JS.get err "message") ;; throw (error_message m)
  else
    (fun st =>
       if negb (isStreamingStarted st) && negb (connectionClosed st)
       then (sendSuccessMessage st, Ok tt) else (st, Ok tt)) ;;;
    frame_body parsed.

(** The stops of the tool blocks at [[DONE]] (lines 351-357). *)
Fixpoint stop_tool_blocks (keys : list string) (st : state) : state :=
  match keys with
  | [] => st
  | idx :: rest =>
      if connectionClosed st then st
      else
        stop_tool_blocks rest
          (send "content_block_stop"
             (content_block_stop
                (match Str.parseInt idx with
                 | Some n => VNum n
                 | None => VNaN
                 end)) st)
  end.

(** The output tokens of the final [message_delta] (lines 371-373). *)
Definition output_tokens (st : state) : value :=
  if JS.truthy (usage st) then JS.get_opt (usage st) "completion_tokens"
  else
    VNum (Z.of_nat (List.length (Str.split " " (accumulatedContent st)))
          + Z.of_nat (List.length (Str.split " " (accumulatedReasoning st)))).

(** The stops of the open blocks at [[DONE]] (lines 350-363). *)
Definition close_blocks (st : state) : state :=
  if encounteredToolCall st then
    stop_tool_blocks (JS.keys (toolCallAccumulators st)) st
  else if textBlockStarted st && negb (connectionClosed st) then
    send "content_block_stop" (content_block_stop (VNum 0)) st
  else st.

(** The end of the message at [[DONE]] (lines 364-383). *)
Definition finish_message (st : state) : state :=
  if negb (connectionClosed st) then
    let st :=
      send "message_delta"
        (message_delta
           (if encounteredToolCall st then "tool_use" else "end_turn")
           (output_tokens st)) st in
    let st := send "message_stop" message_stop st in
    set_raw (Raw.end_ (raw st)) st
  else st.

(** The [[DONE]] branch (lines 348-385), up to its [return]. *)
Definition finalize (st : state) : state :=
  finish_message (close_blocks st).

(** How the processing of a line ends: the loop goes on, or the handler
    returns. *)
Inductive outcome : Type :=
| Continue (st : state)
| Return (st : state).

(** Which parse failures are taken for a truncated frame (lines 480-482). *)
Definition looks_truncated (message : string) : bool :=
  Str.includes "Unterminated" message
  || Str.includes "Unexpected end" message
  || Str.includes "Unexpected token" message.

(** The body of the loop over the lines of a chunk (lines 338-490); the
    loop has checked [connectionClosed] before. *)
Definition process_line (st : state) (line : string) : outcome :=
  let trimmed := Str.trim line in
  if String.eqb trimmed "" || negb (Str.startsWith "data:" trimmed)
  then Continue st
  else
    let dataStr := Str.strip_data trimmed in
    let dataStr :=
      if negb (String.eqb (incompleteDataLine st) "")
      then (incompleteDataLine st ++ dataStr)%string else dataStr in
    let st :=
      if negb (String.eqb (incompleteDataLine st) "")
      then set_incompleteDataLine "" st else st in
    if String.eqb dataStr "[DONE]" then Return (finalize st)
    else if connectionClosed st then Continue st
    else
      match (parsed <~ lift (JSON_parse dataStr) ;; handle_frame parsed) st
      with
      | (st', Ok _) => Continue st'
      | (st', Throw message) =>
          if looks_truncated message
          then Continue (set_incompleteDataLine dataStr st')
          else Continue st'
      end.

(** [for (const line of lines)] (lines 336-491). *)
Fixpoint process_lines (st : state) (lines : list string) : outcome :=
  match lines with
  | [] => Continue st
  | line :: rest =>
      if connectionClosed st then Continue st
      else
        match process_line st line with
        | Continue st' => process_lines st' rest
        | Return st' => Return st'
        end
  end.

(** One chunk (lines 325-491): the text is appended to the buffer, the
    buffer is split on the line feed, and all pieces but the last are
    processed. *)
Definition process_chunk (st : state) (buffer chunk : string) : outcome :=
  process_lines st (removelast (Str.split "010" (buffer ++ chunk))).

(** The piece that stays in the buffer (line 334). *)
Definition carry_over (buffer chunk : string) : string :=
  last (Str.split "010" (buffer ++ chunk)) "".

(** The client went away: the close handler runs (lines 69-75). *)
Definition client_closed (st : state) : state :=
  set_connectionClosed true (set_raw (Raw.close (raw st)) st).

(** How the read loop ends: it ran to its end, the handler returned from
    inside it, or a read failed. *)
Inductive loop_end : Type :=
| Finished (st : state)
| Returned (st : state)
| Failed (st : state) (message : string).

(** The read loop (lines 321-493); the end of the list is the read that
    reports [done]. *)
Fixpoint read_loop (st : state) (buffer : string) (reads : list read)
  : loop_end :=
  if connectionClosed st then Finished st
  else
    match reads with
    | [] => Finished st
    | ReadError message :: _ => Failed st message
    | Chunk closeEvent text :: rest =>
        let st := if closeEvent then client_closed st else st in
        if connectionClosed st then read_loop st buffer rest
        else
          match process_chunk st buffer text with
          | Continue st' => read_loop st' (carry_over buffer text) rest
          | Return st' => Returned st'
          end
    end.

(** The streaming branch up to the end of the [try] (lines 264-501). *)
Definition stream_response (st : state) (reads : list read) : loop_end :=
  match read_loop st "" reads with
  | Finished st' =>
      Finished (if negb (connectionClosed st')
                then set_raw (Raw.end_ (raw st')) st' else st')
  | other => other
  end.

End Streaming.

(** *** The handler (lines 64-509) *)

(** [await openaiResponse.text()], and what the close handler saw
    meanwhile. *)
Fixpoint read_text (st : state) (reads : list read) : state * result string :=
  match reads with
  | [] => (st, Ok "")
  | ReadError message :: _ => (st, Throw message)
  | Chunk closeEvent text :: rest =>
      let st := if closeEvent then client_closed st else st in
      match read_text st rest with
      | (st', Ok s) => (st', Ok (text ++ s)%string)
      | (st', Throw m) => (st', Throw m)
      end
  end.

(** Whether an error response may still be sent (lines 203 and 504). *)
Definition may_answer (st : state) : bool :=
  negb (Raw.sent (raw st)) && negb (hasStartedStreaming st)
  && negb (connectionClosed st).

Definition error_body (message : string) : value :=
  VObj [("error", VStr message)].

(** The [catch] of the handler (lines 502-508). *)
Definition on_error (st : state) (message : string) : socket * answer :=
  if may_answer st then (raw st, Body 500 (error_body message))
  else (raw st, Nothing).

(** The handler of POST /v1/messages (lines 64-509): what it wrote on the
    socket and what it returned. *)
Definition handler (payload : value) (env : environment) : socket * answer :=
  let st := initial_state in
  match build_payload payload with
  | Throw message => on_error st message
  | Ok p =>
      let st := if closedEarly env then client_closed st else st in
      match upstream env with
      | FetchError message => on_error st message
      | Response ok status body =>
          if negb ok then
            match read_text st body with
            | (st, Throw message) => on_error st message
            | (st, Ok errorDetails) =>
                if may_answer st
                then (raw st, Body status (error_body errorDetails))
                else (raw st, Nothing)
            end
          else if negb (stream p) then
            match read_text st body with
            | (st, Throw message) => on_error st message
            | (st, Ok text) =>
                match data <- JSON_parse text ;;
                      translate_response p (randomSuffix env) data
                with
                | Ok anthropicResponse => (raw st, Body 200 anthropicResponse)
                | Throw message => on_error st message
                end
            end
          else
            match stream_response p (randomSuffix env) st body with
            | Finished st => (raw st, Nothing)
            | Returned st => (raw st, Nothing)
            | Failed st message => on_error st message
            end
      end
  end.

End Proxy.

(** * Properties

    Definitions that the statements below use, then the statements. *)

Local Open Scope string_scope.
Local Open Scope list_scope.

(** A schema of type string and format uri, alone and with a schema of
    the same kind nested in it. *)
Definition uri_string : value :=
  VObj [("type", VStr "string"); ("format", VStr "uri")].

Definition nested_uri_schema : value :=
  VObj [("type", VStr "string"); ("format", VStr "uri");
        ("anyOf", VArr [uri_string])].

(** A request whose assistant message holds one [tool_use] block and
    nothing else. *)
Definition tool_use_block : value :=
  VObj [("type", VStr "tool_use"); ("id", VStr "toolu_1");
        ("name", VStr "get_weather");
        ("input", VObj [("city", VStr "Lisbon")])].

Definition tool_only_request : value :=
  VObj [("messages",
         VArr [VObj [("role", VStr "user"); ("content", VStr "weather?")];
               VObj [("role", VStr "assistant");
                     ("content", VArr [tool_use_block])]]);
        ("stream", VBool false)].

(** An upstream completion without [usage]. *)
Definition bare_completion (id : string) (content finish : value) : value :=
  VObj [("id", VStr id);
        ("choices",
         VArr [VObj [("message", VObj [("role", VStr "assistant");
                                       ("content", content)]);
                     ("finish_reason", finish)]])].

(** The concatenation of the chunks of a text. *)
Definition text_of (chunks : list string) : string :=
  fold_right String.append "" chunks.

(** [null] and [undefined]. *)
Definition nullish (v : value) : bool :=
  match v with
  | VUndef | VNull => true
  | _ => false
  end.



(** The complete lines of a text. *)
Definition lines_of (text : string) : list string :=
  removelast (Str.split "010" text).











(** The [partial_json] of an [input_json_delta] for the accumulator [k]. *)
Definition fragment_of (k : string) (a : action) : list string :=
  match a with
  | WriteSSE event data =>
      if String.eqb event "content_block_delta"
         && JS.str_eq (JS.get_opt (JS.get_opt data "delta") "type")
              "input_json_delta"
         && String.eqb (JS.toString (JS.get_opt data "index")) k
      then
        match JS.get_opt (JS.get_opt data "delta") "partial_json" with
        | VStr s => [s]
        | _ => []
        end
      else []
  | _ => []
  end.

Definition fragments (k : string) (trace : list action) : list string :=
  flat_map (fragment_of k) trace.




(** The lines that the loop does not skip, and the sentinel among them. *)
Definition is_data_line (line : string) : bool :=
  negb (String.eqb (Str.trim line) "")
  && Str.startsWith "data:" (Str.trim line).

Definition is_done_line (line : string) : bool :=
  is_data_line line && String.eqb (Str.strip_data (Str.trim line)) "[DONE]".

(** What is written when the sentinel comes first. *)
Definition done_only : list action :=
  [WriteSSE "message_delta" (message_delta "end_turn" (VNum 2));
   WriteSSE "message_stop" message_stop;
   EndResponse].

(** Invariants of the code that runs inside the [try]. *)
Definition preserves {A : Type} (I : state -> Prop) (c : M A) : Prop :=
  forall st, I st -> I (fst (c st)).

(** The events that the body of the [try] sends. *)
Definition body_event (event : string) : bool :=
  String.eqb event "content_block_start"
  || String.eqb event "content_block_delta".

(** A property of the state that each single change made by the body of
    the [try] keeps. *)
Record stable (I : state -> Prop) : Prop := mkStable {
  stable_tool : forall st, I st -> I (set_encounteredToolCall true st);
  stable_text : forall st, I st -> I (set_textBlockStarted true st);
  stable_usage : forall st u, I st -> I (set_usage u st);
  stable_content : forall st s, I st -> I (set_accumulatedContent s st);
  stable_reasoning : forall st s, I st -> I (set_accumulatedReasoning s st);
  stable_accumulate :
    forall st k s,
      I st ->
      I (set_toolCallAccumulators
           (JS.set k (VStr s) (toolCallAccumulators st)) st);
  stable_send :
    forall st event data,
      body_event event = true -> I st -> I (send event data st)
}.

(** The actions that open a stream. *)
Definition opens_stream (a : action) : bool :=
  match a with
  | WriteHead _ _ => true
  | WriteSSE event _ =>
      String.eqb event "message_start" || String.eqb event "ping"
  | EndResponse => false
  end.

Definition quiet (trace : list action) : Prop :=
  Forall (fun a => opens_stream a = false) trace.

(** *** The end of the stream *)


(** The stop that [[DONE]] sends for the accumulator [k]. *)
Definition stop_of_key (k : string) : action :=
  WriteSSE "content_block_stop"
    (content_block_stop
       (match Str.parseInt k with
        | Some n => VNum n
        | None => VNaN
        end)).

Definition stops (st : state) : list action :=
  if encounteredToolCall st then
    map stop_of_key (JS.keys (toolCallAccumulators st))
  else if textBlockStarted st then
    [WriteSSE "content_block_stop" (content_block_stop (VNum 0))]
  else [].

Definition final_events (st : state) : list action :=
  [WriteSSE "message_delta"
     (message_delta
        (if encounteredToolCall st then "tool_use" else "end_turn")
        (if JS.truthy (usage st)
         then JS.get_opt (usage st) "completion_tokens"
         else VNum (Z.of_nat (List.length
                                (Str.split " " (accumulatedContent st)))
                    + Z.of_nat (List.length
                                  (Str.split " " (accumulatedReasoning st))))));
   WriteSSE "message_stop" message_stop;
   EndResponse].

(** The state in which the read loop ends. *)
Definition end_state (e : loop_end) : state :=
  match e with
  | Finished st => st
  | Returned st => st
  | Failed st _ => st
  end.

(** The text that [process_line] hands to [JSON.parse] for a data line. *)
Definition data_of (st : state) (line : string) : string :=
  if negb (String.eqb (incompleteDataLine st) "")
  then (incompleteDataLine st ++ Str.strip_data (Str.trim line))%string
  else Str.strip_data (Str.trim line).






(** *** The request *)

(** The message that a text block of [system] becomes, and such a block. *)
Definition system_message_of (s : string) : value :=
  VObj [("role", VStr "system"); ("content", VStr s)].

Definition text_block (s : string) : value :=
  VObj [("type", VStr "text"); ("text", VStr s)].

Definition nonempty (s : string) : bool := negb (String.eqb s "").

(** The function that a tool of the request becomes (lines 172-179). *)
Definition function_of (tool : value) : value :=
  VObj [("type", VStr "function");
        ("function",
         VObj [("name", JS.get_opt tool "name");
               ("description", JS.get_opt tool "description");
               ("parameters",
                Schema.removeUriFormat (JS.get_opt tool "input_schema"))])].

Definition is_batch_tool (tool : value) : bool :=
  JS.str_eq (JS.get_opt tool "name") "BatchTool".

(** The fields of the request that the translator reads. *)
Definition request_fields : list string :=
  ["system"; "messages"; "tools"; "thinking"; "temperature"; "stream"].

(** A [tool_use] block with the given fields. *)
Definition tool_use_with (id name input : value) : value :=
  VObj [("type", VStr "tool_use");
        ("id", id);
        ("name", name);
        ("input", input)].

(** *** The completion *)

(** The message of an upstream completion, its finish reason and its tool
    calls (lines 219-224). *)
Definition completion_message (data : value) : value :=
  JS.get_opt (JS.first_opt (JS.get_opt data "choices")) "message".

Definition completion_finish (data : value) : value :=
  JS.get_opt (JS.first_opt (JS.get_opt data "choices")) "finish_reason".

Definition completion_calls (data : value) : list value :=
  match JS.or (JS.get_opt (completion_message data) "tool_calls") (VArr [])
  with
  | VArr l => l
  | _ => []
  end.

(** The number of times that [c] occurs in [s]. *)
Fixpoint occurrences (c : ascii) (s : string) : nat :=
  match s with
  | EmptyString => O
  | String a s' => (if Ascii.eqb a c then 1 else 0) + occurrences c s'
  end.

(** The words that [split(' ')] counts in a string: one more than it has
    spaces. *)
Definition words (v : value) : Z :=
  match v with
  | VStr s => Z.of_nat (S (occurrences " " s))
  | _ => 0
  end.

Definition content_words (msg : value) : Z :=
  words (JS.get_opt msg "content").

Definition total (l : list Z) : Z := fold_right Z.add 0%Z l.

(** *** The read loop *)

(** The actions other than the end of the response. *)
Definition not_end (a : action) : bool :=
  match a with
  | EndResponse => false
  | _ => true
  end.

(** The state in which [process_line] looks for the sentinel: a pending
    line has been taken (lines 343-346). *)
Definition taken (st : state) : state :=
  if negb (String.eqb (incompleteDataLine st) "")
  then set_incompleteDataLine "" st else st.

(** The state in which the handler starts the upstream call, and the one
    in which it finds itself after it. *)
Definition after_fetch (closed : bool) : state :=
  if closed then client_closed initial_state else initial_state.

(** The events of the text block (lines 436-476). *)
Inductive text_event : string -> value -> Prop :=
| text_started : text_event "content_block_start" text_block_start
| text_sent : forall text, text_event "content_block_delta" (text_delta text)
| thinking_sent :
    forall thinking,
      text_event "content_block_delta" (thinking_delta thinking).

(** The state in which the processing of a line leaves the handler. *)
Definition state_of (o : outcome) : state :=
  match o with
  | Continue st => st
  | Return st => st
  end.

(** *** The tool blocks that a trace opens *)

(** The key of the tool block that an action opens, when it opens one:
    the index of a [content_block_start] whose block is a [tool_use], as
    the property name under which the accumulators hold it. *)
Definition opened_tool (a : action) : option string :=
  match a with
  | WriteSSE event data =>
      if String.eqb event "content_block_start"
         && JS.str_eq (JS.get_opt (JS.get_opt data "content_block") "type")
              "tool_use"
      then Some (JS.toString (JS.get_opt data "index"))
      else None
  | _ => None
  end.

(** Whether an action opens the tool block of the key [k]. *)
Definition opens (k : string) (a : action) : bool :=
  match opened_tool a with
  | Some k' => String.eqb k' k
  | None => false
  end.

(** How many times a trace opens the tool block of the key [k]. *)
Definition opens_of (k : string) (trace : list action) : nat :=
  List.length (filter (opens k) trace).

(** A tool block is opened only under a key that the accumulators hold,
    and once. *)
Definition opened_once (st : state) : Prop :=
  forall k,
    (opens_of k (written (raw st))
     <= if JS.has k (toolCallAccumulators st) then 1 else 0)%nat.

(** *** Schemas *)

(** Whether the property [old] stays before the property [new] when
    [new] is created after it: array indices come first and in ascending
    order. *)
Definition stays_before (new old : string) : bool :=
  match JS.array_index new, JS.array_index old with
  | Some n, Some n' => negb (n <? n')%Z
  | Some _, None => false
  | None, _ => true
  end.

(** Whether [names] continue [seen] as the names of the own properties
    of an object in the order of their enumeration: no name twice, none
    is [__proto__], and each one stays where it is when it is created
    after the ones before it. *)
Fixpoint own_names_after (seen names : list string) : bool :=
  match names with
  | [] => true
  | k :: rest =>
      negb (String.eqb k "__proto__")
      && negb (existsb (String.eqb k) seen)
      && forallb (stays_before k) seen
      && own_names_after (seen ++ [k]) rest
  end.

Definition own_names (names : list string) : bool :=
  own_names_after [] names.

(** The values all of whose objects hold their properties in the order
    of their enumeration. *)
Fixpoint enumerable (v : value) : bool :=
  match v with
  | VObj props =>
      own_names (JS.keys props)
      && forallb (fun kv => match kv with (_, x) => enumerable x end) props
  | VArr l => forallb enumerable l
  | _ => true
  end.

(** The schemas in which the sanitizer finds no string with the format
    uri: no object that it visits as a schema has the type string and the
    format uri, and no [properties] is an array or [null]. *)
Fixpoint uri_free (v : value) : bool :=
  match v with
  | VObj props =>
      negb (JS.str_eq (JS.lookup "type" props) "string"
            && JS.str_eq (JS.lookup "format" props) "uri")
      && forallb
           (fun kv =>
              match kv with
              | (key, x) =>
                  if String.eqb key "properties" then
                    match x with
                    | VObj ps =>
                        forallb
                          (fun pkv =>
                             match pkv with (_, pv) => uri_free pv end) ps
                    | VArr _ | VNull => false
                    | _ => true
                    end
                  else uri_free x
              end) props
  | VArr l => forallb uri_free l
  | _ => true
  end.

(** The schemas in which a string with the format uri holds no object,
    array or [null], and in which no [properties] is an array. *)
Fixpoint flat (v : value) : bool :=
  match v with
  | VObj props =>
      if JS.str_eq (JS.lookup "type" props) "string"
         && JS.str_eq (JS.lookup "format" props) "uri"
      then
        forallb (fun kv => match kv with (_, x) => negb (JS.is_object x) end)
          props
      else
        forallb
          (fun kv =>
             match kv with
             | (key, x) =>
                 if String.eqb key "properties" then
                   match x with
                   | VObj ps =>
                       forallb
                         (fun pkv => match pkv with (_, pv) => flat pv end)
                         ps
                   | VArr _ => false
                   | _ => true
                   end
                 else flat x
             end) props
  | VArr l => forallb flat l
  | _ => true
  end.

(** What the sanitizer assigns to the member [key] of its result for the
    member [x] of a schema (lines 153-167). *)
Definition sanitized_member (key : string) (x : value) : value :=
  if String.eqb key "properties" && JS.is_object x then
    VObj
      match x with
      | VObj ps =>
          fold_left
            (fun r pkv =>
               match pkv with
               | (propKey, pv) => JS.set propKey (Schema.removeUriFormat pv) r
               end) ps []
      | VArr l =>
          Schema.assign_all
            (combine (Schema.index_keys (List.length l))
               (map Schema.removeUriFormat l))
      | _ => []
      end
  else Schema.removeUriFormat x.

(** The property map of a schema without uri formats is rebuilt as it
    is. *)
Definition keeps_properties (ps : list (string * value)) : Prop :=
  fold_left
    (fun r pkv =>
       match pkv with
       | (propKey, pv) => JS.set propKey (Schema.removeUriFormat pv) r
       end) ps []
  = ps.

(** ** The command line (src/unnamed/part_000)

    [getApiKey] talks to the keychain through keytar and to the user
    through the console.  The model keeps the one keychain entry that the
    program uses, the lines that are printed, and what the surroundings
    decide: which keychain calls fail, and what is typed at the prompt.  A
    keychain call that fails leaves the entry as it was. *)
Module Cli.

(** The options that [getApiKey] reads; an option that was not given is
    [None] or [false]. *)
Record options : Type := mkOptions {
  apiKey : option string;
  resetKey : bool
}.

Record surroundings : Type := mkSurroundings {
  deleteFails : bool;
  setFails : bool;
  getFails : bool;
  typed : string
}.

(** What is printed: the first argument of [console.log] and of
    [console.error], and the question of the prompt. *)
Inductive event : Type :=
| Log (message : string)
| Error (message : string)
| Question (prompt : string).

(** How [getApiKey] ends: it returns a key, or the process exits. *)
Inductive ending : Type :=
| Key (key : string)
| Exit (code : Z).

(** The truthiness of a string that may be absent. *)
Definition present (s : option string) : bool :=
  match s with
  | Some k => negb (String.eqb k "")
  | None => false
  end.

(** [promptForApiKey] (lines 43-55). *)
Definition promptForApiKey (env : surroundings) : list event * string :=
  ([Question "Enter your Groq API key: "], Str.trim (typed env)).

(** [getApiKey] (lines 58-112) on the keychain entry [stored]: the entry
    that it leaves, what it prints, and how it ends. *)
Definition getApiKey (opts : options) (env : surroundings)
    (stored : option string) : option string * list event * ending :=
  let (stored, reset) :=
    if resetKey opts then
      if deleteFails env then (stored, [])
      else (None, [Log "Stored API key has been reset."])
    else (stored, []) in
  if present (apiKey opts) then
    let k := match apiKey opts with Some k => k | None => "" end in
    if setFails env then
      (stored,
       reset ++ [Error "Failed to store API key in keychain:"], Key k)
    else (Some k, reset ++ [Log "API key stored in keychain."], Key k)
  else
    let found := if getFails env then None else stored in
    if present found then
      (stored, reset ++ [Log "Using stored API key from keychain."],
       Key (match found with Some k => k | None => "" end))
    else
      let failed :=
        if getFails env
        then [Error "Failed to retrieve API key from keychain:"] else [] in
      let (asked, newKey) := promptForApiKey env in
      let said :=
        reset ++ failed
        ++ [Log "No API key found. Please enter your Groq API key.";
            Log "You can get one from: https://console.groq.com/keys"]
        ++ asked in
      if String.eqb newKey "" then
        (stored, said ++ [Error "API key is required to continue."], Exit 1)
      else if setFails env then
        (stored,
         said ++ [Error "Failed to store API key in keychain:";
                  Log "Continuing with session-only API key..."],
         Key newKey)
      else
        (Some newKey,
         said ++ [Log "API key stored in keychain for future use."],
         Key newKey).

End Cli.

(** *** What the frames of a stream leave for the sentinel *)














(** ** Sample inputs

    The values and texts that the examples below run the handler on. *)

Definition quote : string := String "034"%char "".

Definition line_feed : string := String "010"%char "".

(** A string between quotation marks, with the quotation mark and the
    backslash escaped. *)
Fixpoint escape (s : string) : string :=
  match s with
  | EmptyString => EmptyString
  | String a s' =>
      if Ascii.eqb a "034"%char || Ascii.eqb a "092"%char
      then String "092"%char (String a (escape s'))
      else String a (escape s')
  end.

(** The JSON text of a value, without white space. *)
Fixpoint to_json (v : value) : string :=
  match v with
  | VUndef | VNull | VNaN => "null"
  | VBool true => "true"
  | VBool false => "false"
  | VNum n => Str.of_Z n
  | VStr s => quote ++ escape s ++ quote
  | VArr l => "[" ++ Str.join "," (map to_json l) ++ "]"
  | VObj props =>
      "{"
      ++ Str.join ","
           (map (fun kv =>
                   match kv with
                   | (k, x) =>
                       (quote ++ escape k ++ quote ++ ":" ++ to_json x)%string
                   end) props)
      ++ "}"
  end.

(** A stand-in for [JSON.parse] in the examples: it knows the listed values
    by their JSON text and reports every other text as cut short, with the
    message that [JSON.parse] gives for a text that ends early. *)
Definition sample_parse (known : list value) (text : string) : result value :=
  match find (fun v => String.eqb (to_json v) text) known with
  | Some v => Ok v
  | None => Throw "Unexpected end of JSON input"
  end.

Definition sample_stringify (v : value) : value :=
  match v with
  | VUndef => VUndef
  | _ => VStr (to_json v)
  end.

Definition sample_config : config :=
  mkConfig "https://api.groq.com/openai" "key"
    "moonshotai/kimi-k2-instruct" "moonshotai/kimi-k2-instruct" 16384.

Definition user_says (text : string) : value :=
  VObj [("role", VStr "user"); ("content", VStr text)].

Definition streaming_request : value :=
  VObj [("messages", VArr [user_says "hi"]); ("stream", VBool true)].

Definition sample_payload : openai_payload :=
  mkPayload "moonshotai/kimi-k2-instruct" [user_says "hi"] 16384 (VNum 1)
    true [].

(** A frame with the given delta. *)
Definition frame_with (delta : value) : value :=
  VObj [("choices", VArr [VObj [("delta", delta)]])].

(** A frame with one tool call. *)
Definition tool_frame (idx : Z) (arguments : string) : value :=
  frame_with
    (VObj [("tool_calls",
            VArr [VObj [("index", VNum idx);
                        ("id", VStr "call_1");
                        ("function",
                         VObj [("name", VStr "get_weather");
                               ("arguments", VStr arguments)])]])]).

(** A frame with a piece of text. *)
Definition text_frame (text : string) : value :=
  frame_with (VObj [("content", VStr text)]).

Definition data_line (frame : value) : string := "data: " ++ to_json frame.

Definition done_line : string := "data: [DONE]".

(** A data line whose JSON text was cut short. *)
Definition truncated_line : string := "data: {" ++ quote ++ "choi".

(** Three cumulative argument strings for the tool call 0, the last one
    repeated. *)
Definition arguments_1 : string := "{".

Definition arguments_2 : string := "{" ++ quote ++ "city" ++ quote ++ ":".

Definition tool_frames : list value :=
  [tool_frame 0 arguments_1; tool_frame 0 arguments_2;
   tool_frame 0 arguments_2].

Definition tool_chunks : list string :=
  [(data_line (tool_frame 0 arguments_1) ++ line_feed ++ line_feed
    ++ "data: {" ++ quote ++ "choi")%string;
   ("ces" ++ quote
    ++ Str.substring 10 (to_json (tool_frame 0 arguments_2))
    ++ line_feed ++ line_feed
    ++ data_line (tool_frame 0 arguments_2) ++ line_feed ++ line_feed
    ++ done_line ++ line_feed ++ line_feed)%string].




(** A frame cut in the middle of its JSON text, in two reads and in one. *)
Definition split_chunks : list string :=
  [("data: {" ++ quote ++ "choi")%string;
   ("ces" ++ quote ++ Str.substring 10 (to_json (text_frame "hello"))
    ++ line_feed ++ line_feed)%string].

Definition whole_chunks : list string :=
  [(data_line (text_frame "hello") ++ line_feed ++ line_feed)%string].




(** A request with a system prompt given as a string, and one with a
    system prompt given as blocks, one of them empty. *)
Definition string_system_request : list (string * value) :=
  [("system", VStr "Be brief.");
   ("messages", VArr [user_says "hi"])].

Definition block_system_request : list (string * value) :=
  [("system", VArr (map text_block ["Be brief."; ""; "Be kind."]));
   ("messages", VArr [user_says "hi"])].

(** Two tools, one of them the batch tool. *)
Definition weather_tool : value :=
  VObj [("name", VStr "get_weather");
        ("description", VStr "The weather of a city");
        ("input_schema",
         VObj [("type", VStr "object");
               ("properties", VObj [("source", uri_string)])])].

Definition batch_tool : value :=
  VObj [("name", VStr "BatchTool");
        ("description", VStr "Runs tools in a batch");
        ("input_schema", VObj [("type", VStr "object")])].

(** The streaming request with fields that the translator does not
    read. *)
Definition verbose_request : value :=
  VObj [("model", VStr "claude");
        ("max_tokens", VNum 1);
        ("messages", VArr [user_says "hi"]);
        ("stream", VBool true);
        ("tool_choice", VStr "auto")].

(** A completion with a text, a tool call and a usage, and its
    translation. *)
Definition weather_arguments : string :=
  to_json (VObj [("city", VStr "Lisbon")]).

Definition weather_call : value :=
  VObj [("id", VStr "call_1");
        ("type", VStr "function");
        ("function", VObj [("name", VStr "get_weather");
                           ("arguments", VStr weather_arguments)])].

Definition tool_completion : value :=
  VObj [("id", VStr "chatcmpl-1");
        ("choices",
         VArr [VObj [("message",
                      VObj [("role", VStr "assistant");
                            ("content", VStr "Let me check.");
                            ("tool_calls", VArr [weather_call])]);
                     ("finish_reason", VStr "tool_calls")]]);
        ("usage", VObj [("prompt_tokens", VNum 12);
                        ("completion_tokens", VNum 7)])].

Definition tool_response : value :=
  VObj [("content",
         VArr [VObj [("text", VStr "Let me check."); ("type", VStr "text")];
               tool_use_with (VStr "call_1") (VStr "get_weather")
                 (VObj [("city", VStr "Lisbon")])]);
        ("id", VStr "msg-1");
        ("model", VStr "moonshotai/kimi-k2-instruct");
        ("role", VStr "assistant");
        ("stop_reason", VStr "tool_use");
        ("stop_sequence", VNull);
        ("type", VStr "message");
        ("usage", VObj [("input_tokens", VNum 12);
                        ("output_tokens", VNum 7)])].

(** The translation of a completion without usage that says
    [hello world]. *)
Definition estimated_response : value :=
  VObj [("content",
         VArr [VObj [("text", VStr "hello world"); ("type", VStr "text")]]);
        ("id", VStr "msg-1");
        ("model", VStr "moonshotai/kimi-k2-instruct");
        ("role", VStr "assistant");
        ("stop_reason", VStr "end_turn");
        ("stop_sequence", VNull);
        ("type", VStr "message");
        ("usage", VObj [("input_tokens", VNum 1);
                        ("output_tokens", VNum 2)])].

(** A request that does not stream. *)
Definition plain_request : value :=
  VObj [("messages", VArr [user_says "hi"])].

Definition plain_payload : openai_payload :=
  mkPayload "moonshotai/kimi-k2-instruct" [user_says "hi"] 16384 (VNum 1)
    false [].

(** An upstream answer that carries an error, and one without choices. *)
Definition error_answer : value :=
  VObj [("error", VObj [("message", VStr "model overloaded")])].

Definition empty_answer : value := VObj [("choices", VArr [])].

(** A frame with a piece of reasoning. *)
Definition reasoning_frame (text : string) : value :=
  frame_with (VObj [("reasoning", VStr text)]).

(** A reasoning frame and two text frames in two reads, the second read
    cut inside the last frame, and a comment line between the frames. *)
Definition hello_frames : list value :=
  [reasoning_frame "greet them"; text_frame "Hello,"; text_frame " world"].

Definition hello_chunks : list string :=
  [(data_line (reasoning_frame "greet them") ++ line_feed ++ line_feed
    ++ data_line (text_frame "Hello,") ++ line_feed ++ line_feed
    ++ ": keep-alive" ++ line_feed
    ++ String.substring 0 20 (data_line (text_frame " world")))%string;
   (Str.substring 20 (data_line (text_frame " world"))
    ++ line_feed ++ line_feed ++ done_line ++ line_feed ++ line_feed)%string].

Definition hello_lines : list string :=
  [data_line (reasoning_frame "greet them"); "";
   data_line (text_frame "Hello,"); ""; ": keep-alive";
   data_line (text_frame " world"); ""].

(** A text frame that reports a usage, and the second half of a data line
    that was cut after [truncated_line]. *)
Definition usage_frame : value :=
  VObj [("choices", VArr [VObj [("delta", VObj [("content", VStr "hi")])]]);
        ("usage", VObj [("completion_tokens", VNum 7)])].

Definition continued_line : string :=
  "data: ces" ++ quote ++ Str.substring 10 (to_json (text_frame "hello")).

(** A schema without uri formats, and one with a uri string among its
    properties and in a list of alternatives. *)
Definition city_schema : value :=
  VObj [("type", VStr "object");
        ("properties",
         VObj [("city", VObj [("type", VStr "string")]);
               ("days", VObj [("type", VStr "integer")])]);
        ("required", VArr [VStr "city"])].

Definition link_schema : value :=
  VObj [("type", VStr "object");
        ("properties",
         VObj [("link", uri_string);
               ("format", VObj [("type", VStr "string")])]);
        ("anyOf", VArr [uri_string; VObj [("type", VStr "null")]])].





(** The first frame of a chat completion: a role and an empty content. *)
Definition role_frame : value :=
  frame_with (VObj [("role", VStr "assistant"); ("content", VStr "")]).

(** ** Streams

    The re-framer for a given parser, request and random suffix. *)
Section Streams.

Variable JSON_parse : string -> result value.
Variable p : openai_payload.
Variable rnd : string.

(** The read loop on the lines of a text. *)
Definition run_lines (st : state) (lines : list string) : loop_end :=
  match process_lines JSON_parse p rnd st lines with
  | Continue st' => Finished st'
  | Return st' => Returned st'
  end.


(** *** Well-formed states *)
Definition header_block : list action :=
  [WriteHead 200 sse_headers;
   WriteSSE "message_start" (message_start ("msg_" ++ rnd) (model p));
   WriteSSE "ping" ping].

(** The traces that start with the header block and do not hold it twice. *)
Definition opened (trace : list action) : Prop :=
  exists tail, trace = header_block ++ tail /\ quiet tail.

(** What holds of the state whenever the read loop looks at it. *)
Record wf (st : state) : Prop := mkWf {
  wf_keys : NoDup (JS.keys (toolCallAccumulators st));
  wf_strings :
    Forall (fun kv => JS.is_string (snd kv) = true) (toolCallAccumulators st);
  wf_open : writableEnded (raw st) = false;
  wf_destroyed : destroyed (raw st) = true -> connectionClosed st = true;
  wf_header :
    if isStreamingStarted st
    then isSucceeded st = true /\ opened (written (raw st))
    else isSucceeded st = false /\ hasStartedStreaming st = false
         /\ headersSent (raw st) = false /\ written (raw st) = []
}.

(** What holds while the body of the [try] runs after the stream was
    opened. *)
Definition streaming (st : state) : Prop :=
  wf st /\ isStreamingStarted st = true.

(** The states in which the read loop can be. *)
Inductive reachable : state -> Prop :=
| reach_start : reachable initial_state
| reach_close : forall st, reachable st -> reachable (client_closed st)
| reach_line :
    forall st line st',
      reachable st -> connectionClosed st = false ->
      process_line JSON_parse p rnd st line = Continue st' -> reachable st'.

(** The header block was written once, at the start, or not at all. *)
Definition at_most_once (trace : list action) : Prop :=
  quiet trace \/ opened trace.


(** *** Streams of text and reasoning *)

(** What [process_line] does with the text of a data line once a pending
    line has been taken (lines 348-490). *)
Definition process_data (st : state) (dataStr : string) : outcome :=
  if String.eqb dataStr "[DONE]" then Return (finalize st)
  else if connectionClosed st then Continue st
  else
    match (parsed <~ lift (JSON_parse dataStr) ;; handle_frame p rnd parsed) st
    with
    | (st', Ok _) => Continue st'
    | (st', Throw message) =>
        if looks_truncated message
        then Continue (set_incompleteDataLine dataStr st')
        else Continue st'
    end.

(** A piece of an answer: a piece of its text, or of its reasoning. *)
Inductive piece : Type :=
| Content (s : string)
| Reasoning (s : string).

(** A frame that carries a piece and nothing else: no error, no usage, no
    tool calls, and in the delta of its first choice either the piece as
    its content, or no content and the piece as its reasoning. *)
Definition carries (f : value) (d : piece) : bool :=
  negb (nullish f)
  && negb (JS.truthy (JS.get_opt f "error"))
  && negb (JS.truthy (JS.get_opt f "usage"))
  && JS.truthy (delta_of f)
  && negb (JS.truthy (JS.get_opt (delta_of f) "tool_calls"))
  && match d with
     | Content s =>
         JS.str_eq (JS.get_opt (delta_of f) "content") s && nonempty s
     | Reasoning s =>
         negb (JS.truthy (JS.get_opt (delta_of f) "content"))
         && JS.str_eq (JS.get_opt (delta_of f) "reasoning") s
         && nonempty s
     end.

(** The lines of a stream of such frames together with their pieces:
    every data line before the sentinel parses to a frame that carries a
    piece. *)
Inductive piece_feeds : list string -> list piece -> Prop :=
| piece_feeds_end : piece_feeds [] []
| piece_feeds_skip :
    forall line lines pieces,
      is_data_line line = false ->
      piece_feeds lines pieces -> piece_feeds (line :: lines) pieces
| piece_feeds_frame :
    forall line lines f d pieces,
      is_data_line line = true ->
      Str.strip_data (Str.trim line) <> "[DONE]" ->
      JSON_parse (Str.strip_data (Str.trim line)) = Ok f ->
      carries f d = true ->
      piece_feeds lines pieces -> piece_feeds (line :: lines) (d :: pieces).

(** The delta that is sent for a piece (lines 447-454 and 469-476). *)
Definition piece_delta (d : piece) : value :=
  match d with
  | Content s => text_delta (VStr s)
  | Reasoning s => thinking_delta (VStr s)
  end.

(** The events of the text block with the given pieces (lines 436-476). *)
Definition block_events (pieces : list piece) : list action :=
  WriteSSE "content_block_start" text_block_start
  :: map (fun d => WriteSSE "content_block_delta" (piece_delta d)) pieces.

(** The text and the reasoning of the pieces. *)
Definition contents (pieces : list piece) : string :=
  text_of (flat_map (fun d => match d with
                              | Content s => [s]
                              | Reasoning _ => []
                              end) pieces).

Definition reasonings (pieces : list piece) : string :=
  text_of (flat_map (fun d => match d with
                              | Content _ => []
                              | Reasoning s => [s]
                              end) pieces).

(** The state of the handler after the frames of the given pieces. *)
Definition after_pieces (pieces : list piece) : state :=
  match pieces with
  | [] => initial_state
  | _ =>
      mkState
        (mkSocket false false true (header_block ++ block_events pieces))
        true false true true (contents pieces) (reasonings pieces) VNull
        true false [] ""
  end.

(** The events that close such an answer at the sentinel when upstream
    has reported no usage (lines 358-383). *)
Definition block_stops (pieces : list piece) : list action :=
  [WriteSSE "content_block_stop" (content_block_stop (VNum 0));
   WriteSSE "message_delta"
     (message_delta "end_turn"
        (VNum (words (VStr (contents pieces))
               + words (VStr (reasonings pieces)))));
   WriteSSE "message_stop" message_stop;
   EndResponse].

(** *** Numerals *)












(** *** Texts and lines *)

Lemma append_empty_r : forall s : string, (s ++ "")%string = s.
Proof. induction s as [|a s IH]; simpl; [reflexivity|now rewrite IH]. Qed.

Lemma append_assoc :
  forall a b c : string, ((a ++ b) ++ c)%string = (a ++ b ++ c)%string.
Proof.
  induction a as [|x a IH]; intros; simpl; [reflexivity|now rewrite IH].
Qed.

(** A property of a value that is neither [null] nor [undefined] can be
    read. *)
Lemma get_defined :
  forall v name, nullish v = false -> JS.get v name = Ok (JS.get_opt v name).
Proof. intros [] name H; try discriminate H; reflexivity. Qed.

Section Lines.

Variable c : ascii.

Lemma split_not_nil : forall s, Str.split c s <> [].
Proof.
  intros [|a s]; simpl; [discriminate|].
  destruct (Ascii.eqb a c); [discriminate|].
  destruct (Str.split c s); discriminate.
Qed.

Lemma split_cons :
  forall a s,
    Str.split c (String a s)
    = if Ascii.eqb a c then "" :: Str.split c s
      else String a (hd "" (Str.split c s)) :: tl (Str.split c s).
Proof.
  intros a s. simpl. destruct (Ascii.eqb a c); [reflexivity|].
  destruct (Str.split c s) eqn:E; [now apply split_not_nil in E|reflexivity].
Qed.

Lemma removelast_cons :
  forall (A : Type) (x : A) (l : list A),
    l <> [] -> removelast (x :: l) = x :: removelast l.
Proof. intros A x [|y l] H; [contradiction|reflexivity]. Qed.

Lemma last_cons :
  forall (A : Type) (x d : A) (l : list A),
    l <> [] -> last (x :: l) d = last l d.
Proof. intros A x d [|y l] H; [contradiction|reflexivity]. Qed.

(** Splitting a text that arrives in two parts: the complete lines of the
    first part, then the split of what it left over followed by the
    second part. *)
Lemma split_app :
  forall a b,
    Str.split c (a ++ b)
    = removelast (Str.split c a)
      ++ Str.split c (last (Str.split c a) "" ++ b).
Proof.
  induction a as [|x a IH]; intros b; [reflexivity|].
  change (String x a ++ b)%string with (String x (a ++ b)).
  rewrite !split_cons. destruct (Ascii.eqb x c) eqn:Ex.
  - rewrite removelast_cons, last_cons by apply split_not_nil.
    simpl. now rewrite IH.
  - rewrite IH. destruct (Str.split c a) as [|w [|w2 ws]] eqn:E.
    + now apply split_not_nil in E.
    + simpl. rewrite Ex.
      destruct (Str.split c (w ++ b)) eqn:E2;
        [now apply split_not_nil in E2|reflexivity].
    + reflexivity.
Qed.

Lemma split_last_single :
  forall s, Str.split c (last (Str.split c s) "") = [last (Str.split c s) ""].
Proof.
  induction s as [|x s IH]; [reflexivity|].
  rewrite split_cons. destruct (Ascii.eqb x c) eqn:Ex.
  - now rewrite last_cons by apply split_not_nil.
  - destruct (Str.split c s) as [|w [|w2 ws]] eqn:E.
    + now apply split_not_nil in E.
    + simpl in *. rewrite Ex. now rewrite IH.
    + exact IH.
Qed.

End Lines.

Lemma removelast_app_r :
  forall (A : Type) (l1 l2 : list A),
    l2 <> [] -> removelast (l1 ++ l2) = l1 ++ removelast l2.
Proof. intros; now apply removelast_app. Qed.

Lemma lines_of_app :
  forall a b,
    lines_of (a ++ b)
    = lines_of a ++ lines_of (last (Str.split "010" a) "" ++ b).
Proof.
  intros a b. unfold lines_of. rewrite split_app.
  apply removelast_app, split_not_nil.
Qed.

Lemma process_lines_closed :
  forall lines st,
    connectionClosed st = true ->
    process_lines JSON_parse p rnd st lines = Continue st.
Proof. intros [|l ls] st H; simpl; [reflexivity|now rewrite H]. Qed.

(** The loop over the lines goes on with the next lines unless the
    handler has returned. *)
Lemma process_lines_app :
  forall l1 l2 st,
    process_lines JSON_parse p rnd st (l1 ++ l2)
    = match process_lines JSON_parse p rnd st l1 with
      | Continue st' => process_lines JSON_parse p rnd st' l2
      | Return st' => Return st'
      end.
Proof.
  induction l1 as [|l l1 IH]; intros l2 st; [reflexivity|]. simpl.
  destruct (connectionClosed st) eqn:Hc.
  - symmetry. now apply process_lines_closed.
  - destruct (process_line JSON_parse p rnd st l); [apply IH|reflexivity].
Qed.

Lemma run_lines_closed :
  forall lines st,
    connectionClosed st = true -> run_lines st lines = Finished st.
Proof. intros; unfold run_lines; now rewrite process_lines_closed. Qed.

(** The read loop sees the lines of the whole text, however the text was
    cut into chunks. *)
Lemma read_loop_lines :
  forall chunks st buffer,
    lines_of buffer = [] ->
    read_loop JSON_parse p rnd st buffer (map (Chunk false) chunks)
    = run_lines st (lines_of (buffer ++ text_of chunks)).
Proof.
  induction chunks as [|ch chunks IH]; intros st buffer Hb.
  - simpl. rewrite append_empty_r, Hb. unfold run_lines. simpl.
    now destruct (connectionClosed st).
  - simpl. destruct (connectionClosed st) eqn:Hc.
    + symmetry. now apply run_lines_closed.
    + unfold process_chunk, carry_over.
      rewrite <- append_assoc, lines_of_app. fold (lines_of (buffer ++ ch)).
      unfold run_lines. rewrite process_lines_app.
      destruct (process_lines JSON_parse p rnd st (lines_of (buffer ++ ch)))
        as [st'|st'];
        [|reflexivity].
      rewrite IH; [reflexivity|].
      unfold lines_of. now rewrite split_last_single.
Qed.

(** The streaming branch depends on the text of the reads only. *)
Lemma stream_rechunking :
  forall chunks1 chunks2 st,
    text_of chunks1 = text_of chunks2 ->
    stream_response JSON_parse p rnd st (map (Chunk false) chunks1)
    = stream_response JSON_parse p rnd st (map (Chunk false) chunks2).
Proof.
  intros chunks1 chunks2 st H. unfold stream_response.
  now rewrite !read_loop_lines, H by reflexivity.
Qed.

Lemma process_line_skipped :
  forall st line,
    is_data_line line = false ->
    process_line JSON_parse p rnd st line = Continue st.
Proof.
  intros st line H. unfold process_line. unfold is_data_line in H.
  destruct (String.eqb (Str.trim line) ""); cbn [negb andb orb] in *;
    [reflexivity|].
  now rewrite H.
Qed.

(** The sentinel, when no line is pending, ends the stream. *)
Lemma process_line_done :
  forall st line,
    is_done_line line = true -> incompleteDataLine st = "" ->
    process_line JSON_parse p rnd st line = Return (finalize st).
Proof.
  intros st line H Hi. unfold is_done_line, is_data_line in H.
  apply andb_prop in H as [H Hd]. apply andb_prop in H as [H1 H2].
  unfold process_line. rewrite Hi.
  destruct (String.eqb (Str.trim line) ""); [discriminate|].
  rewrite H2. cbn [negb andb orb String.eqb]. now rewrite Hd.
Qed.

Lemma process_lines_skipped :
  forall skipped st rest,
    Forall (fun l => is_data_line l = false) skipped ->
    process_lines JSON_parse p rnd st (skipped ++ rest)
    = process_lines JSON_parse p rnd st rest.
Proof.
  induction skipped as [|l ls IH]; intros st rest H; [reflexivity|].
  inversion H as [|? ? Hl Hls]; subst. simpl.
  rewrite process_line_skipped by assumption.
  destruct (connectionClosed st) eqn:Hc; [|now apply IH].
  symmetry. now apply process_lines_closed.
Qed.

(** A stream whose first data line is the sentinel. *)
Lemma stream_done_first :
  forall chunks skipped line rest,
    lines_of (text_of chunks) = skipped ++ line :: rest ->
    Forall (fun l => is_data_line l = false) skipped ->
    is_done_line line = true ->
    stream_response JSON_parse p rnd initial_state (map (Chunk false) chunks)
    = Returned (finalize initial_state).
Proof.
  intros chunks skipped line rest Hl Hs Hd. unfold stream_response.
  rewrite read_loop_lines by reflexivity. simpl (_ ++ _)%string.
  rewrite Hl. unfold run_lines. rewrite process_lines_skipped by assumption.
  simpl. now rewrite process_line_done.
Qed.

(** *** Invariants of the body of the [try] *)

Lemma preserves_ret :
  forall (A : Type) (I : state -> Prop) (a : A), preserves I (ret a).
Proof. intros A I a st H; exact H. Qed.

Lemma preserves_throw :
  forall (A : Type) (I : state -> Prop) m, preserves I (@throw A m).
Proof. intros A I m st H; exact H. Qed.

Lemma preserves_lift :
  forall (A : Type) (I : state -> Prop) (r : result A), preserves I (lift r).
Proof. intros A I r st H; exact H. Qed.

Lemma preserves_modify :
  forall (I : state -> Prop) f,
    (forall st, I st -> I (f st)) -> preserves I (modify f).
Proof. intros I f Hf st H; simpl; auto. Qed.

Lemma preserves_bind :
  forall (A B : Type) (I : state -> Prop) (c : M A) (k : A -> M B),
    preserves I c -> (forall a, preserves I (k a)) -> preserves I (bindM c k).
Proof.
  intros A B I c k Hc Hk st H. unfold bindM. specialize (Hc st H).
  destruct (c st) as [st' [a|m]]; simpl in *; [now apply Hk|exact Hc].
Qed.

Lemma preserves_lift_bind :
  forall (A B : Type) (I : state -> Prop) (r : result A) (k : A -> M B),
    (forall a, r = Ok a -> preserves I (k a)) ->
    preserves I (bindM (lift r) k).
Proof.
  intros A B I r k Hk st H. unfold bindM, lift.
  destruct r as [a|m]; simpl; [now apply (Hk a)|exact H].
Qed.

Lemma preserves_when :
  forall (I : state -> Prop) b c, preserves I c -> preserves I (when b c).
Proof. intros I [] c Hc; [exact Hc|apply preserves_ret]. Qed.

Section Stable.

Variable I : state -> Prop.
Hypothesis HI : stable I.

Lemma preserves_emit :
  forall event data, body_event event = true -> preserves I (emit event data).
Proof.
  intros event data He. apply preserves_modify. intros st H.
  now apply (stable_send _ HI).
Qed.

Lemma substring_of_string :
  forall e v start s, substring_of e v start = Ok s -> exists t, v = VStr t.
Proof.
  intros e v start s H; destruct v; try discriminate H. now eexists.
Qed.

Lemma handle_tool_call_preserves :
  forall toolCall, preserves I (handle_tool_call toolCall).
Proof.
  intros toolCall. unfold handle_tool_call.
  apply preserves_bind;
    [apply preserves_modify; intros; now apply (stable_tool _ HI)|intros _].
  apply preserves_lift_bind; intros idx _.
  apply preserves_bind; [intros st H; exact H|intros unseen].
  apply preserves_bind.
  { apply preserves_when.
    apply preserves_bind;
      [apply preserves_modify; intros; now apply (stable_accumulate _ HI)
      |intros _].
    apply preserves_lift_bind; intros id _.
    apply preserves_lift_bind; intros fn _.
    apply preserves_lift_bind; intros name _.
    now apply preserves_emit. }
  intros _. apply preserves_lift_bind; intros fn _.
  apply preserves_lift_bind; intros arguments _.
  apply preserves_lift_bind; intros newLength _.
  apply preserves_bind; [intros st H; exact H|intros oldLength].
  destruct (JS.gt newLength oldLength); [|apply preserves_ret].
  apply preserves_lift_bind; intros deltaText Hd.
  apply substring_of_string in Hd as [t Ht]. rewrite Ht.
  apply preserves_bind; [now apply preserves_emit|intros _].
  apply preserves_modify; intros; now apply (stable_accumulate _ HI).
Qed.

Lemma tool_calls_loop_preserves :
  forall toolCalls, preserves I (tool_calls_loop toolCalls).
Proof.
  induction toolCalls as [|tc tcs IH]; [apply preserves_ret|].
  intros st H. simpl. destruct (connectionClosed st); [exact H|].
  revert st H. apply preserves_bind;
    [apply handle_tool_call_preserves|intros _; exact IH].
Qed.

Lemma open_text_block_preserves : preserves I open_text_block.
Proof.
  intros st H. unfold open_text_block.
  destruct (textBlockStarted st); [exact H|]. simpl.
  apply (stable_send _ HI); [reflexivity|now apply (stable_text _ HI)].
Qed.

Lemma frame_body_preserves : forall parsed, preserves I (frame_body parsed).
Proof.
  intros parsed. unfold frame_body.
  apply preserves_lift_bind; intros captured _.
  apply preserves_bind.
  { apply preserves_when, preserves_modify.
    intros; now apply (stable_usage _ HI). }
  intros _ st H.
  destruct (JS.truthy (delta_of parsed)
            && JS.truthy (JS.get_opt (delta_of parsed) "tool_calls")
            && negb (connectionClosed st)).
  { revert st H. apply preserves_lift_bind; intros tcs _.
    apply tool_calls_loop_preserves. }
  destruct (JS.truthy (delta_of parsed)
            && JS.truthy (JS.get_opt (delta_of parsed) "content")
            && negb (connectionClosed st)).
  { revert st H. apply preserves_bind; [apply open_text_block_preserves|].
    intros _. apply preserves_bind.
    - apply preserves_modify. intros; now apply (stable_content _ HI).
    - intros _. now apply preserves_emit. }
  destruct (JS.truthy (delta_of parsed)
            && JS.truthy (JS.get_opt (delta_of parsed) "reasoning")
            && negb (connectionClosed st)); [|exact H].
  revert st H. apply preserves_bind; [apply open_text_block_preserves|].
  intros _. apply preserves_bind.
  - apply preserves_modify. intros; now apply (stable_reasoning _ HI).
  - intros _. now apply preserves_emit.
Qed.

End Stable.

Lemma handle_frame_unfold :
  forall parsed st,
    handle_frame p rnd parsed st
    = match JS.get parsed "error" with
      | Throw m => (st, Throw m)
      | Ok err =>
          if JS.truthy err then
            match JS.get err "message" with
            | Ok m => (st, Throw (error_message m))
            | Throw m => (st, Throw m)
            end
          else
            frame_body parsed
              (if negb (isStreamingStarted st) && negb (connectionClosed st)
               then sendSuccessMessage p rnd st else st)
      end.
Proof.
  intros parsed st. unfold handle_frame, bindM, lift.
  destruct (JS.get parsed "error") as [err|m]; [|reflexivity].
  destruct (JS.truthy err).
  - destruct (JS.get err "message"); reflexivity.
  - destruct (negb (isStreamingStarted st) && negb (connectionClosed st));
      reflexivity.
Qed.

Lemma keys_update :
  forall k v props, JS.keys (JS.update k v props) = JS.keys props.
Proof.
  intros k v props; induction props as [|[k' v'] props IH]; [reflexivity|].
  simpl. destruct (String.eqb k k'); [reflexivity|].
  unfold JS.keys in *. simpl. now rewrite IH.
Qed.

Lemma has_In :
  forall k props, JS.has k props = true <-> In k (JS.keys props).
Proof.
  intros k props; induction props as [|[k' v'] props IH]; simpl.
  - split; [discriminate|contradiction].
  - rewrite orb_true_iff, IH, String.eqb_eq. split; intros [H|H]; auto.
Qed.

Lemma In_keys_insert :
  forall k v props x,
    In x (JS.keys (JS.insert k v props)) <-> x = k \/ In x (JS.keys props).
Proof.
  intros k v props x; induction props as [|[k' v'] props IH]; simpl.
  - split; intros [H|H]; auto.
  - destruct (JS.array_index k) as [n|], (JS.array_index k') as [n'|];
      try destruct (n <? n')%Z; simpl; rewrite ?IH;
      split; intros H; decompose [or] H; auto.
Qed.

Lemma NoDup_keys_insert :
  forall k v props,
    ~ In k (JS.keys props) -> NoDup (JS.keys props) ->
    NoDup (JS.keys (JS.insert k v props)).
Proof.
  intros k v props; induction props as [|[k' v'] props IH]; intros Hk Hn.
  - simpl. constructor; [intros []|constructor].
  - simpl in Hk. inversion Hn as [|? ? Hk' Hn']; subst.
    assert (Hins : NoDup (JS.keys ((k', v') :: JS.insert k v props))).
    { simpl. constructor; [|apply IH; auto].
      rewrite In_keys_insert. intros [->|H]; auto. }
    assert (Hfront : NoDup (JS.keys ((k, v) :: (k', v') :: props))).
    { simpl. constructor; [exact Hk|exact Hn]. }
    simpl. destruct (JS.array_index k) as [n|], (JS.array_index k') as [n'|];
      try destruct (n <? n')%Z; assumption.
Qed.

Lemma NoDup_keys_set :
  forall k v props,
    NoDup (JS.keys props) -> NoDup (JS.keys (JS.set k v props)).
Proof.
  intros k v props H. unfold JS.set.
  destruct (String.eqb k "__proto__"); [exact H|].
  destruct (JS.has k props) eqn:E.
  - now rewrite keys_update.
  - apply NoDup_keys_insert; [|exact H].
    intros Hin. apply has_In in Hin. congruence.
Qed.

Lemma strings_set :
  forall k s props,
    Forall (fun kv => JS.is_string (snd kv) = true) props ->
    Forall (fun kv => JS.is_string (snd kv) = true)
      (JS.set k (VStr s) props).
Proof.
  intros k s props H. unfold JS.set.
  destruct (String.eqb k "__proto__"); [exact H|].
  destruct (JS.has k props).
  - induction H as [|[k' v'] props Hx Hp IH]; simpl; [constructor|].
    destruct (String.eqb k k'); constructor; auto.
  - induction H as [|[k' v'] props Hx Hp IH]; simpl;
      [repeat constructor|].
    destruct (JS.array_index k) as [n|], (JS.array_index k') as [n'|];
      try destruct (n <? n')%Z; repeat constructor; auto.
Qed.

(** A record is appended when the socket is open. *)
Lemma send_open :
  forall st event data,
    destroyed (raw st) = false -> writableEnded (raw st) = false ->
    send event data st
    = set_raw (mkSocket false false true
                 (written (raw st) ++ [WriteSSE event data])) st.
Proof.
  intros st event data Hd He. unfold send, sendSSE, Raw.write.
  now rewrite Hd, He.
Qed.

(** A call of [sendSSE] writes one record or nothing. *)
Lemma send_cases :
  forall st event data,
    send event data st = st
    \/ (destroyed (raw st) = false /\ writableEnded (raw st) = false
        /\ send event data st
           = set_raw (mkSocket false false true
                        (written (raw st) ++ [WriteSSE event data])) st).
Proof.
  intros st event data.
  destruct (destroyed (raw st)) eqn:Hd; [left|].
  - unfold send, sendSSE. rewrite Hd. now destruct st.
  - destruct (writableEnded (raw st)) eqn:He; [left|right].
    + unfold send, sendSSE. rewrite Hd, He. now destruct st.
    + repeat split. now apply send_open.
Qed.

Lemma quiet_app :
  forall t1 t2, quiet t1 -> quiet t2 -> quiet (t1 ++ t2).
Proof. intros; now apply Forall_app. Qed.

Lemma opened_app :
  forall t1 t2, opened t1 -> quiet t2 -> opened (t1 ++ t2).
Proof.
  intros t1 t2 (tail & -> & Hq) H2. exists (tail ++ t2).
  split; [now rewrite app_assoc|now apply quiet_app].
Qed.

(** Once the stream was opened, every step of the body of the [try]
    leaves the state well formed. *)
Lemma streaming_stable : stable streaming.
Proof.
  constructor.
  - intros st [[] Hs]; split; [constructor|]; assumption.
  - intros st [[] Hs]; split; [constructor|]; assumption.
  - intros st u [[] Hs]; split; [constructor|]; assumption.
  - intros st s [[] Hs]; split; [constructor|]; assumption.
  - intros st s [[] Hs]; split; [constructor|]; assumption.
  - intros st k s [[Hk Hv Ho Hd Hh] Hs]; split; [constructor|]; try assumption;
      simpl; [now apply NoDup_keys_set|now apply strings_set].
  - intros st event data He [[Hk Hv Ho Hd Hh] Hs].
    destruct (send_cases st event data) as [E|(H1 & H2 & E)]; rewrite E.
    + split; [constructor|]; assumption.
    + split; [constructor|]; simpl; try assumption; try discriminate;
        try reflexivity.
      rewrite Hs in *. destruct Hh as [H3 H4]. split; [exact H3|].
      apply opened_app; [exact H4|]. constructor; [|constructor].
      simpl. unfold body_event in He.
      apply orb_prop in He as [He|He]; apply String.eqb_eq in He;
        subst; reflexivity.
Qed.

(** What [sendSuccessMessage] does at its first call. *)
Lemma sendSuccessMessage_fresh :
  forall st,
    wf st -> connectionClosed st = false -> isStreamingStarted st = false ->
    sendSuccessMessage p rnd st
    = set_raw (mkSocket false false true header_block)
        (set_hasStartedStreaming true
           (set_isStreamingStarted true (set_isSucceeded true st))).
Proof.
  intros st [Hk Hv Ho Hd Hh] Hc Hs. rewrite Hs in Hh.
  destruct Hh as (H1 & H2 & H3 & H4).
  assert (Hdd : destroyed (raw st) = false).
  { destruct (destroyed (raw st)); [|reflexivity].
    rewrite Hd in Hc by reflexivity. discriminate. }
  unfold sendSuccessMessage, Raw.sent. rewrite H1, Ho, Hc, H2.
  cbn [orb]. unfold Raw.writeHead. cbn [raw set_hasStartedStreaming
    set_isStreamingStarted set_isSucceeded]. rewrite H3.
  unfold send, sendSSE, Raw.write. cbn. rewrite Hdd, Ho, H4. reflexivity.
Qed.

Lemma handle_frame_wf :
  forall parsed st,
    wf st -> connectionClosed st = false ->
    wf (fst (handle_frame p rnd parsed st)).
Proof.
  intros parsed st Hwf Hc. rewrite handle_frame_unfold.
  destruct (JS.get parsed "error") as [err|m]; [|exact Hwf].
  destruct (JS.truthy err).
  { destruct (JS.get err "message"); exact Hwf. }
  rewrite Hc. cbn [negb andb]. rewrite andb_true_r.
  apply (frame_body_preserves streaming streaming_stable).
  destruct (isStreamingStarted st) eqn:Hs; cbn [negb]; [now split|].
  rewrite sendSuccessMessage_fresh by assumption.
  destruct Hwf as [Hk Hv Ho Hd Hh]. split; [constructor|reflexivity]; simpl;
    try assumption; try discriminate; try reflexivity.
  split; [reflexivity|].
  exists []. split; [now rewrite app_nil_r|constructor].
Qed.

(** The processing of a line leaves the state well formed. *)
Lemma process_line_wf :
  forall st line st',
    wf st -> connectionClosed st = false ->
    process_line JSON_parse p rnd st line = Continue st' -> wf st'.
Proof.
  intros st line st' Hwf Hc H. unfold process_line in H.
  destruct (String.eqb (Str.trim line) ""
            || negb (Str.startsWith "data:" (Str.trim line)));
    [injection H as <-; exact Hwf|].
  set (st1 := if negb (String.eqb (incompleteDataLine st) "")
              then set_incompleteDataLine "" st else st) in *.
  assert (Hwf1 : wf st1 /\ connectionClosed st1 = false).
  { unfold st1. destruct (negb (String.eqb (incompleteDataLine st) ""));
      [|now split].
    split; [|exact Hc]. destruct Hwf. constructor; assumption. }
  destruct Hwf1 as [Hwf1 Hc1].
  match type of H with
  | (if String.eqb ?d _ then _ else _) = _ =>
      set (dataStr := d) in *; destruct (String.eqb dataStr "[DONE]");
        [discriminate H|]
  end.
  rewrite Hc1 in H. unfold bindM, lift in H.
  destruct (JSON_parse dataStr) as [parsed|m].
  - pose proof (handle_frame_wf parsed st1 Hwf1 Hc1) as Hf.
    destruct (handle_frame p rnd parsed st1) as [st2 [u|m]]; simpl in Hf.
    + injection H as <-. exact Hf.
    + destruct (looks_truncated m); injection H as <-; [|exact Hf].
      destruct Hf. constructor; assumption.
  - destruct (looks_truncated m); injection H as <-; [|exact Hwf1].
    destruct Hwf1. constructor; assumption.
Qed.

(** The read loop only sees well-formed states. *)
Lemma reachable_wf : forall st, reachable st -> wf st.
Proof.
  induction 1 as [|st _ IH|st line st' _ IH Hc Hl].
  - constructor; simpl; auto; try constructor; try discriminate.
  - destruct IH as [Hk Hv Ho Hd Hh]. constructor; simpl; auto.
  - now apply (process_line_wf st line).
Qed.

Lemma reachable_lines :
  forall lines st,
    reachable st ->
    forall st',
      process_lines JSON_parse p rnd st lines = Continue st' -> reachable st'.
Proof.
  induction lines as [|l ls IH]; intros st Hr st' H; simpl in H.
  - injection H as <-. exact Hr.
  - destruct (connectionClosed st) eqn:Hc; [injection H as <-; exact Hr|].
    destruct (process_line JSON_parse p rnd st l) as [s1|s1] eqn:El;
      [|discriminate H].
    apply (IH s1); [|exact H]. now apply (reach_line st l).
Qed.

Lemma wf_socket_open :
  forall st, wf st -> connectionClosed st = false ->
    destroyed (raw st) = false /\ writableEnded (raw st) = false.
Proof.
  intros st [Hk Hv Ho Hd Hh] Hc. split; [|exact Ho].
  destruct (destroyed (raw st)); [|reflexivity].
  rewrite Hd in Hc by reflexivity. discriminate.
Qed.

Lemma set_raw_same :
  forall st d e h w,
    destroyed (raw st) = d -> writableEnded (raw st) = e ->
    headersSent (raw st) = h -> written (raw st) = w ->
    set_raw (mkSocket d e h w) st = st.
Proof.
  intros [[d' e' h' w'] ? ? ? ? ? ? ? ? ? ? ?] d e h w; simpl.
  intros -> -> -> ->. reflexivity.
Qed.

Lemma stop_tool_blocks_open :
  forall keys st,
    connectionClosed st = false ->
    destroyed (raw st) = false -> writableEnded (raw st) = false ->
    exists h,
      stop_tool_blocks keys st
      = set_raw (mkSocket false false h
                   (written (raw st) ++ map stop_of_key keys)) st.
Proof.
  induction keys as [|k keys IH]; intros st Hc Hd He.
  - exists (headersSent (raw st)). simpl. rewrite app_nil_r.
    symmetry. now apply set_raw_same.
  - simpl. rewrite Hc. rewrite send_open by assumption.
    edestruct IH as [h ->]; [| | |exists h]; try reflexivity; [exact Hc|].
    simpl. now rewrite <- app_assoc.
Qed.

Lemma close_blocks_open :
  forall st,
    connectionClosed st = false ->
    destroyed (raw st) = false -> writableEnded (raw st) = false ->
    exists h,
      close_blocks st
      = set_raw (mkSocket false false h (written (raw st) ++ stops st)) st.
Proof.
  intros st Hc Hd He. unfold close_blocks, stops.
  destruct (encounteredToolCall st).
  - now apply stop_tool_blocks_open.
  - destruct (textBlockStarted st); rewrite Hc; cbn [negb andb].
    + exists true. now apply send_open.
    + exists (headersSent (raw st)). rewrite app_nil_r.
      symmetry. now apply set_raw_same.
Qed.

Lemma finish_message_open :
  forall st,
    connectionClosed st = false ->
    destroyed (raw st) = false -> writableEnded (raw st) = false ->
    finish_message st
    = set_raw (mkSocket false true true (written (raw st) ++ final_events st))
        st.
Proof.
  intros st Hc Hd He. unfold finish_message, final_events, output_tokens.
  rewrite Hc. cbn [negb]. cbv zeta.
  rewrite (send_open st) by assumption.
  rewrite send_open by reflexivity. cbn.
  now rewrite <- !app_assoc.
Qed.

(** What the [[DONE]] branch writes on an open connection. *)
Lemma finalize_open :
  forall st,
    connectionClosed st = false ->
    destroyed (raw st) = false -> writableEnded (raw st) = false ->
    finalize st
    = set_raw (mkSocket false true true
                 (written (raw st) ++ stops st ++ final_events st)) st.
Proof.
  intros st Hc Hd He. unfold finalize.
  destruct (close_blocks_open st Hc Hd He) as [h ->].
  rewrite finish_message_open; [|exact Hc|reflexivity|reflexivity]. cbn.
  now rewrite <- app_assoc.
Qed.

Lemma quiet_stops : forall st, quiet (stops st).
Proof.
  intros st. unfold stops, quiet.
  destruct (encounteredToolCall st).
  - apply Forall_forall. intros a Ha. apply in_map_iff in Ha as (k & <- & _).
    reflexivity.
  - destruct (textBlockStarted st); repeat constructor.
Qed.

Lemma quiet_final_events : forall st, quiet (final_events st).
Proof. intros st. repeat constructor. Qed.

Lemma wf_at_most_once : forall st, wf st -> at_most_once (written (raw st)).
Proof.
  intros st [Hk Hv Ho Hd Hh]. destruct (isStreamingStarted st).
  - right. apply Hh.
  - left. destruct Hh as (_ & _ & _ & ->). constructor.
Qed.

Lemma at_most_once_app :
  forall t1 t2, at_most_once t1 -> quiet t2 -> at_most_once (t1 ++ t2).
Proof.
  intros t1 t2 [H|H] H2;
    [left; now apply quiet_app|right; now apply opened_app].
Qed.

Lemma process_line_return :
  forall st line st',
    wf st -> connectionClosed st = false ->
    process_line JSON_parse p rnd st line = Return st' ->
    at_most_once (written (raw st')).
Proof.
  intros st line st' Hwf Hc H. unfold process_line in H.
  destruct (String.eqb (Str.trim line) ""
            || negb (Str.startsWith "data:" (Str.trim line)));
    [discriminate H|].
  set (st1 := if negb (String.eqb (incompleteDataLine st) "")
              then set_incompleteDataLine "" st else st) in *.
  assert (Hwf1 : wf st1 /\ connectionClosed st1 = false).
  { unfold st1. destruct (negb (String.eqb (incompleteDataLine st) ""));
      [|now split].
    split; [|exact Hc]. destruct Hwf. constructor; assumption. }
  destruct Hwf1 as [Hwf1 Hc1].
  match type of H with
  | (if ?b then _ else _) = _ => destruct b
  end.
  - injection H as <-.
    destruct (wf_socket_open st1 Hwf1 Hc1) as [Hd He].
    rewrite finalize_open by assumption. simpl.
    apply at_most_once_app; [now apply wf_at_most_once|].
    apply quiet_app; [apply quiet_stops|apply quiet_final_events].
  - rewrite Hc1 in H.
    match type of H with
    | match ?c with _ => _ end = _ =>
        destruct c as [? [?|m]]; [discriminate H|];
          destruct (looks_truncated m); discriminate H
    end.
Qed.

(** The read loop keeps the header block at the start of the trace. *)
Lemma read_loop_at_most_once :
  forall reads st buffer,
    wf st ->
    at_most_once
      (written
         (raw (end_state (read_loop JSON_parse p rnd st buffer reads))))
    /\ match read_loop JSON_parse p rnd st buffer reads with
       | Returned _ => True
       | Finished st' | Failed st' _ => wf st'
       end.
Proof.
  induction reads as [|r reads IH]; intros st buffer Hwf; simpl.
  - destruct (connectionClosed st); split; auto using wf_at_most_once.
  - destruct (connectionClosed st) eqn:Hc;
      [split; auto using wf_at_most_once|].
    destruct r as [closeEvent text|m];
      [|split; auto using wf_at_most_once].
    destruct closeEvent.
    + simpl. apply IH. destruct Hwf. constructor; simpl; auto.
    + rewrite Hc. unfold process_chunk.
      destruct (process_lines JSON_parse p rnd st
                  (removelast (Str.split "010" (buffer ++ text))))
        as [st'|st'] eqn:E.
      * apply IH. clear IH. revert st Hwf Hc E.
        induction (removelast (Str.split "010" (buffer ++ text)))
          as [|l ls IHl]; intros st Hwf Hc E; simpl in E.
        { injection E as <-. exact Hwf. }
        rewrite Hc in E.
        destruct (process_line JSON_parse p rnd st l) as [s1|s1] eqn:El;
          [|discriminate E].
        pose proof (process_line_wf st l s1 Hwf Hc El) as Hw1.
        destruct (connectionClosed s1) eqn:Hc1.
        { rewrite process_lines_closed in E by assumption.
          injection E as <-. exact Hw1. }
        now apply (IHl s1).
      * split; [|exact I]. simpl. clear IH. revert st Hwf Hc E.
        induction (removelast (Str.split "010" (buffer ++ text)))
          as [|l ls IHl]; intros st Hwf Hc E; simpl in E; [discriminate E|].
        rewrite Hc in E.
        destruct (process_line JSON_parse p rnd st l) as [s1|s1] eqn:El.
        { pose proof (process_line_wf st l s1 Hwf Hc El) as Hw1.
          destruct (connectionClosed s1) eqn:Hc1.
          - rewrite process_lines_closed in E by assumption. discriminate E.
          - now apply (IHl s1). }
        injection E as <-. now apply (process_line_return st l).
Qed.

Lemma stream_at_most_once :
  forall st0 reads,
    wf st0 ->
    at_most_once
      (written
         (raw (end_state (stream_response JSON_parse p rnd st0 reads)))).
Proof.
  intros st0 reads Hwf. unfold stream_response.
  destruct (read_loop_at_most_once reads st0 "" Hwf) as [H1 H2].
  destruct (read_loop JSON_parse p rnd st0 "" reads) as [st|st|st m];
    simpl in *; try exact H1.
  destruct (connectionClosed st); simpl; [exact H1|].
  unfold Raw.end_. rewrite (wf_open _ H2). simpl.
  apply at_most_once_app; [exact H1|repeat constructor].
Qed.

(** The first frame that parses and carries no error opens the stream. *)
Lemma first_frame_opens :
  forall st line parsed err,
    reachable st -> connectionClosed st = false ->
    isStreamingStarted st = false ->
    is_data_line line = true ->
    data_of st line <> "[DONE]" ->
    JSON_parse (data_of st line) = Ok parsed ->
    JS.get parsed "error" = Ok err -> JS.truthy err = false ->
    written (raw st) = []
    /\ exists st' tail,
         process_line JSON_parse p rnd st line = Continue st'
         /\ written (raw st') = header_block ++ tail /\ quiet tail.
Proof.
  intros st line parsed err Hr Hc Hs Hl Hd Hp He Ht.
  pose proof (reachable_wf st Hr) as Hwf.
  split. { destruct Hwf as [_ _ _ _ Hh]. rewrite Hs in Hh. apply Hh. }
  unfold process_line. unfold is_data_line in Hl.
  apply andb_prop in Hl as [Hl1 Hl2]. rewrite Hl2.
  destruct (String.eqb (Str.trim line) ""); [discriminate Hl1|].
  cbn [negb orb]. fold (data_of st line).
  destruct (String.eqb_spec (data_of st line) "[DONE]"); [contradiction|].
  set (st1 := if negb (String.eqb (incompleteDataLine st) "")
              then set_incompleteDataLine "" st else st) in *.
  assert (H1 : wf st1 /\ connectionClosed st1 = false
               /\ isStreamingStarted st1 = false).
  { unfold st1. destruct (negb (String.eqb (incompleteDataLine st) ""));
      [|split; [exact Hwf|split; assumption]].
    split; [|split; assumption]. destruct Hwf. constructor; assumption. }
  destruct H1 as (Hwf1 & Hc1 & Hs1).
  rewrite Hc1. unfold bindM at 1. unfold lift at 1. rewrite Hp.
  assert (Hstr : streaming (fst (handle_frame p rnd parsed st1))).
  { rewrite handle_frame_unfold, He, Ht, Hs1, Hc1. cbn [negb andb].
    apply (frame_body_preserves streaming streaming_stable).
    rewrite sendSuccessMessage_fresh by assumption.
    destruct Hwf1 as [Hk Ho Hdd Hh].
    split; [constructor|reflexivity]; simpl;
      try assumption; try discriminate; try reflexivity.
    split; [reflexivity|]. exists [].
    split; [now rewrite app_nil_r|constructor]. }
  destruct (handle_frame p rnd parsed st1) as [st2 [u|m]]; simpl in Hstr;
    destruct Hstr as [[_ _ _ _ Hh] Hs2]; rewrite Hs2 in Hh;
    destruct Hh as [_ (tail & Htail & Hq)].
  - exists st2, tail. auto.
  - destruct (looks_truncated m); eexists; exists tail; split;
      try reflexivity; auto.
Qed.



Lemma not_inherited_proto :
  forall k, JS.has k JS.inherited = false -> String.eqb k "__proto__" = false.
Proof.
  intros k H. unfold JS.inherited in H. cbn [JS.has] in H.
  repeat (apply orb_false_elim in H as [? H]). assumption.
Qed.











Lemma text_of_app :
  forall l1 l2, text_of (l1 ++ l2) = (text_of l1 ++ text_of l2)%string.
Proof.
  induction l1 as [|x l1 IH]; intros l2; simpl; [reflexivity|].
  now rewrite IH, append_assoc.
Qed.


















Lemma text_branch :
  forall g event data st,
    bindM open_text_block
      (fun _ => bindM (modify g) (fun _ => emit event data)) st
    = (send event data (g (fst (open_text_block st))), Ok tt).
Proof.
  intros g event data st. unfold bindM, open_text_block, modify, emit.
  destruct (textBlockStarted st); reflexivity.
Qed.

Lemma frame_body_unfold :
  forall f st,
    nullish f = false ->
    let st1 := if JS.truthy (JS.get_opt f "usage")
               then set_usage (JS.get_opt f "usage") st else st in
    frame_body f st
    = if JS.truthy (delta_of f)
         && JS.truthy (JS.get_opt (delta_of f) "tool_calls")
         && negb (connectionClosed st1)
      then
        match JS.iterate "delta.tool_calls"
                (JS.get_opt (delta_of f) "tool_calls") with
        | Ok l => tool_calls_loop l st1
        | Throw m => (st1, Throw m)
        end
      else if JS.truthy (delta_of f)
              && JS.truthy (JS.get_opt (delta_of f) "content")
              && negb (connectionClosed st1)
      then
        (send "content_block_delta"
           (text_delta (JS.get_opt (delta_of f) "content"))
           (set_accumulatedContent
              (accumulatedContent (fst (open_text_block st1))
               ++ JS.toString (JS.get_opt (delta_of f) "content"))
              (fst (open_text_block st1))), Ok tt)
      else if JS.truthy (delta_of f)
              && JS.truthy (JS.get_opt (delta_of f) "reasoning")
              && negb (connectionClosed st1)
      then
        (send "content_block_delta"
           (thinking_delta (JS.get_opt (delta_of f) "reasoning"))
           (set_accumulatedReasoning
              (accumulatedReasoning (fst (open_text_block st1))
               ++ JS.toString (JS.get_opt (delta_of f) "reasoning"))
              (fst (open_text_block st1))), Ok tt)
      else (st1, Ok tt).
Proof.
  intros f st Hn st1. unfold frame_body.
  unfold bindM at 1. unfold lift at 1. rewrite (get_defined f "usage" Hn).
  unfold bindM at 1.
  replace (when (JS.truthy (JS.get_opt f "usage"))
             (modify (set_usage (JS.get_opt f "usage"))) st)
    with (st1, Ok tt)
    by (unfold st1; now destruct (JS.truthy (JS.get_opt f "usage"))).
  destruct (JS.truthy (delta_of f)
            && JS.truthy (JS.get_opt (delta_of f) "tool_calls")
            && negb (connectionClosed st1)).
  { unfold bindM, lift.
    now destruct (JS.iterate "delta.tool_calls"
                    (JS.get_opt (delta_of f) "tool_calls")). }
  destruct (JS.truthy (delta_of f)
            && JS.truthy (JS.get_opt (delta_of f) "content")
            && negb (connectionClosed st1)); [now rewrite text_branch|].
  destruct (JS.truthy (delta_of f)
            && JS.truthy (JS.get_opt (delta_of f) "reasoning")
            && negb (connectionClosed st1)); [now rewrite text_branch|].
  reflexivity.
Qed.


Lemma fragments_header : forall k, fragments k header_block = [].
Proof. reflexivity. Qed.











(** ** The claims *)


End Streams.

(** ** The handler *)
Section Handler.

Variable JSON_parse : string -> result value.
Variable JSON_stringify : value -> value.
Variable cfg : config.

Lemma startsWith_app : forall p s, Str.startsWith p (p ++ s) = true.
Proof.
  induction p as [|a p IH]; intros s; simpl; [reflexivity|].
  now rewrite Ascii.eqb_refl, IH.
Qed.

Lemma substring_app : forall p s, Str.substring (String.length p) (p ++ s) = s.
Proof.
  induction p as [|a p IH]; intros s; simpl; [now destruct s|apply IH].
Qed.

Lemma replace_unfold :
  forall p r s,
    Str.replace p r s =
    if Str.startsWith p s then (r ++ Str.substring (String.length p) s)%string
    else match s with
         | EmptyString => EmptyString
         | String a s' => String a (Str.replace p r s')
         end.
Proof. intros p r s; destruct s; reflexivity. Qed.

Lemma replace_prefix : forall p r s, Str.replace p r (p ++ s) = (r ++ s)%string.
Proof.
  intros p r s. rewrite replace_unfold, startsWith_app, substring_app.
  reflexivity.
Qed.

Lemma replace_absent :
  forall p r s, Str.includes p s = false -> Str.replace p r s = s.
Proof.
  intros p r s; induction s as [|a s IH]; simpl; intros H.
  - apply orb_false_elim in H as [H _]. now rewrite H.
  - apply orb_false_elim in H as [H1 H2]. rewrite H1, IH; auto.
Qed.

Ltac step_bind H :=
  match type of H with
  | bind ?e _ = Ok _ =>
      let E := fresh "E" in
      destruct e eqn:E; simpl in H; [|discriminate H]
  | (if ?b then _ else _) = Ok _ =>
      let E := fresh "E" in destruct b eqn:E; simpl in H
  end.




Lemma read_text_quiet :
  forall st chunks,
    read_text st (map (Chunk false) chunks) = (st, Ok (text_of chunks)).
Proof.
  intros st chunks; induction chunks as [|c cs IH]; simpl;
    [reflexivity|now rewrite IH].
Qed.






Lemma set_content :
  forall r v, JS.set "content" v [("role", r)] = [("role", r); ("content", v)].
Proof. reflexivity. Qed.





Lemma read_text_written :
  forall reads st,
    written (raw (fst (read_text st reads))) = written (raw st).
Proof.
  induction reads as [|r reads IH]; intros st; simpl; [reflexivity|].
  destruct r as [closeEvent text|m]; simpl; [|reflexivity].
  specialize (IH (if closeEvent then client_closed st else st)).
  destruct (read_text (if closeEvent then client_closed st else st) reads)
    as [st' [s|m]]; simpl in *; rewrite IH; now destruct closeEvent.
Qed.

Lemma on_error_written :
  forall st message, written (fst (on_error st message)) = written (raw st).
Proof.
  intros st message. unfold on_error. now destruct (may_answer st).
Qed.

(** The handler writes the header block at most once. *)
Lemma handler_at_most_once :
  forall payload env q,
    build_payload JSON_stringify cfg payload = Ok q ->
    at_most_once q (randomSuffix env)
      (written (fst (handler JSON_parse JSON_stringify cfg payload env))).
Proof.
  intros payload env q Hq. unfold handler. rewrite Hq.
  set (st0 := if closedEarly env then client_closed initial_state
              else initial_state).
  assert (Hw0 : written (raw st0) = []).
  { unfold st0. now destruct (closedEarly env). }
  assert (Hwf0 : wf q (randomSuffix env) st0).
  { unfold st0. destruct (closedEarly env).
    - apply (reachable_wf JSON_parse), reach_close, reach_start.
    - apply (reachable_wf JSON_parse), reach_start. }
  assert (Hnil : at_most_once q (randomSuffix env) []) by (left; constructor).
  destruct (upstream env) as [m|ok status body].
  - now rewrite on_error_written, Hw0.
  - destruct ok; cbn [negb].
    + destruct (stream q); cbn [negb].
      * pose proof (stream_at_most_once JSON_parse q (randomSuffix env) st0
                      body Hwf0) as H.
        destruct (stream_response JSON_parse q (randomSuffix env) st0 body)
          as [st|st|st m]; simpl in H; try exact H.
        now rewrite on_error_written.
      * pose proof (read_text_written body st0) as Hr.
        destruct (read_text st0 body) as [st [text|m]]; simpl in Hr.
        -- destruct (bind (JSON_parse text)
                       (fun data => translate_response JSON_parse q
                                      (randomSuffix env) data));
             [simpl; now rewrite Hr, Hw0|].
           now rewrite on_error_written, Hr, Hw0.
        -- now rewrite on_error_written, Hr, Hw0.
    + pose proof (read_text_written body st0) as Hr.
      destruct (read_text st0 body) as [st [text|m]]; simpl in Hr.
      * destruct (may_answer st); simpl; now rewrite Hr, Hw0.
      * now rewrite on_error_written, Hr, Hw0.
Qed.

(** C5 (as amended).  The header block.  Whatever the upstream call
    delivers, the trace of the socket holds the response headers, the
    [message_start] and the [ping] at most once, and if it holds them they
    come first and in this order; they are written when the first data
    line is processed whose text parses to a value that is neither [null]
    nor [undefined] and has no truthy [error], whether or not it carries
    content, and nothing was written before. *)
Theorem C5_stream_opened_once :
  (forall payload env q,
      build_payload JSON_stringify cfg payload = Ok q ->
      at_most_once q (randomSuffix env)
        (written (fst (handler JSON_parse JSON_stringify cfg payload env))))
  /\ (forall q rnd st line parsed err,
         reachable JSON_parse q rnd st ->
         connectionClosed st = false ->
         isStreamingStarted st = false ->
         is_data_line line = true ->
         data_of st line <> "[DONE]" ->
         JSON_parse (data_of st line) = Ok parsed ->
         JS.get parsed "error" = Ok err ->
         JS.truthy err = false ->
         written (raw st) = []
         /\ exists st' tail,
              process_line JSON_parse q rnd st line = Continue st'
              /\ written (raw st') = header_block q rnd ++ tail
              /\ quiet tail).
Proof.
  split; [exact handler_at_most_once|].
  intros q rnd. exact (first_frame_opens JSON_parse q rnd).
Qed.

(** C6.  The sanitizer returns a schema of type string and format uri
    without its [format] and without looking inside it: a uri format
    nested in such a schema survives, and a second pass removes it, so the
    sanitizer is not idempotent. *)
Theorem C6_nested_uri_format_survives :
  Schema.removeUriFormat nested_uri_schema
  = VObj [("type", VStr "string"); ("anyOf", VArr [uri_string])]
  /\ Schema.removeUriFormat (Schema.removeUriFormat nested_uri_schema)
     = VObj [("type", VStr "string");
             ("anyOf", VArr [VObj [("type", VStr "string")]])]
  /\ Schema.removeUriFormat (Schema.removeUriFormat nested_uri_schema)
     <> Schema.removeUriFormat nested_uri_schema.
Proof.
  split; [reflexivity|]. split; [reflexivity|]. discriminate.
Qed.

(** C7 (as amended).  An upstream id that starts with [chatcmpl] becomes
    the id with [msg] in place of that prefix; a non-empty upstream id in
    which [chatcmpl] does not occur is passed on as it is; only when the
    id is absent or empty is an id made of [msg_] and a random suffix; and
    the [id] of the translated response is this message id. *)
Theorem C7_message_id :
  (forall rest suffix,
      messageId (VStr ("chatcmpl" ++ rest)) suffix
      = Ok ("msg" ++ rest)%string)
  /\ (forall s suffix,
         s <> "" -> Str.includes "chatcmpl" s = false ->
         messageId (VStr s) suffix = Ok s)
  /\ (forall id suffix,
         JS.truthy id = false ->
         messageId id suffix = Ok ("msg_" ++ suffix)%string)
  /\ (forall q suffix data resp,
         translate_response JSON_parse q suffix data = Ok resp ->
         exists mid,
           messageId (JS.get_opt data "id") suffix = Ok mid
           /\ JS.get_opt resp "id" = VStr mid).
Proof.
  split; [|split; [|split]].
  - intros rest suffix. unfold messageId.
    replace (JS.truthy (VStr ("chatcmpl" ++ rest))) with true by reflexivity.
    now rewrite (replace_prefix "chatcmpl" "msg" rest).
  - intros s suffix Hs Hinc. unfold messageId, JS.truthy.
    destruct (String.eqb_spec s ""); [contradiction|]. simpl.
    now rewrite replace_absent.
  - intros id suffix H. unfold messageId. now rewrite H.
  - intros q suffix data resp H. unfold translate_response in H.
    repeat step_bind H; try discriminate H.
    match goal with
    | Hid : JS.get data "id" = Ok ?v, Hm : messageId ?v suffix = Ok ?m |- _ =>
        exists m; split; [unfold JS.get_opt; now rewrite Hid|]
    end.
    injection H as <-. reflexivity.
Qed.


(** C9.  When the first data line of a streaming answer is [[DONE]], the
    handler writes a [message_delta] with stop reason [end_turn] and two
    output tokens, a [message_stop], and ends the response; it writes
    neither the event-stream headers nor [message_start] nor [ping]. *)
Theorem C9_done_first :
  forall payload p rnd status chunks skipped line rest,
    build_payload JSON_stringify cfg payload = Ok p ->
    stream p = true ->
    lines_of (text_of chunks) = skipped ++ line :: rest ->
    Forall (fun l => is_data_line l = false) skipped ->
    is_done_line line = true ->
    handler JSON_parse JSON_stringify cfg payload
      (mkEnv (Response true status (map (Chunk false) chunks)) false rnd)
    = (mkSocket false true true done_only, Nothing).
Proof.
  intros payload p rnd status chunks skipped line rest Hp Hs Hl Hk Hd.
  unfold handler. rewrite Hp. simpl. rewrite Hs. simpl.
  now rewrite (stream_done_first JSON_parse p rnd chunks skipped line rest).
Qed.

(** C10.  For the request [tool_only_request], whose assistant message
    holds one [tool_use] block and so goes upstream with [tool_calls] and
    without [content]: whenever the upstream answer is a completion
    without [usage], the estimate of the input tokens throws while it
    splits the absent content and the handler answers with status 500. *)
Theorem C10_estimate_throws :
  forall status rnd text id content finish,
    JSON_parse text = Ok (bare_completion id content finish) ->
    build_messages JSON_stringify tool_only_request
    = Ok [VObj [("role", VStr "user"); ("content", VStr "weather?")];
          VObj [("role", VStr "assistant");
                ("tool_calls",
                 VArr [VObj [("id", VStr "toolu_1");
                             ("type", VStr "function");
                             ("function",
                              VObj [("name", VStr "get_weather");
                                    ("arguments",
                                     JSON_stringify
                                       (VObj [("city", VStr "Lisbon")]))])]])]]
    /\ handler JSON_parse JSON_stringify cfg tool_only_request
         (mkEnv (Response true status [Chunk false text]) false rnd)
       = (fresh_socket,
          Body 500
            (error_body
               "Cannot read properties of undefined (reading 'split')")).
Proof.
  intros status rnd text id content finish Hparse.
  split; [reflexivity|].
  unfold handler. cbn -[translate_response].
  rewrite append_empty_r.
  rewrite Hparse. unfold translate_response, bare_completion. cbn.
  unfold messageId. destruct (JS.truthy (VStr id)); reflexivity.
Qed.

End Handler.

(** ** Further properties *)

(** *** The payload translator *)
Section Translator.

Variable JSON_parse : string -> result value.
Variable JSON_stringify : value -> value.
Variable cfg : config.

Lemma lookup_without_other :
  forall k k' props,
    k <> k' -> JS.lookup k (JS.without k' props) = JS.lookup k props.
Proof.
  intros k k' props Hk. unfold JS.without.
  induction props as [|[k2 v2] props IH]; [reflexivity|]. simpl.
  destruct (String.eqb_spec k2 k') as [->|Hne]; simpl.
  - apply String.eqb_neq in Hk. now rewrite Hk.
  - now rewrite IH.
Qed.

Lemma lookup_without_same :
  forall k props, JS.lookup k (JS.without k props) = VUndef.
Proof.
  intros k props. unfold JS.without.
  induction props as [|[k2 v2] props IH]; [reflexivity|]. simpl.
  destruct (String.eqb_spec k2 k) as [->|Hne]; simpl; [exact IH|].
  destruct (String.eqb_spec k k2); [congruence|exact IH].
Qed.

(** X1.  A [system] that is not an array, such
    as a system prompt given as one string, is not forwarded: the outbound
    messages are those of the request without its [system]. *)
Theorem system_not_array_is_dropped :
  forall props,
    JS.isArray (JS.lookup "system" props) = false ->
    build_messages JSON_stringify (VObj props)
    = build_messages JSON_stringify (VObj (JS.without "system" props)).
Proof.
  intros props H. unfold build_messages. cbn [JS.get bind].
  rewrite lookup_without_same.
  rewrite (lookup_without_other "messages" "system") by discriminate.
  destruct (JS.lookup "system" props); try reflexivity. discriminate H.
Qed.

Lemma system_message_text :
  forall s,
    system_message (text_block s)
    = Ok (if nonempty s then [system_message_of s] else []).
Proof.
  intros s. unfold system_message, text_or_content, text_block, nonempty.
  cbn [JS.get JS.lookup String.eqb Ascii.eqb Bool.eqb bind JS.truthy].
  destruct (String.eqb s "") eqn:E; cbn [negb bind].
  - apply String.eqb_eq in E. subst s. reflexivity.
  - cbn [normalizeContent bind JS.truthy]. now rewrite E.
Qed.

Lemma mapM_system_texts :
  forall texts,
    mapM system_message (map text_block texts)
    = Ok (map (fun s => if nonempty s then [system_message_of s] else [])
            texts).
Proof.
  induction texts as [|s texts IH]; [reflexivity|].
  cbn [map mapM]. rewrite system_message_text, IH. reflexivity.
Qed.

Lemma concat_filter_singletons :
  forall (A B : Type) (f : A -> B) (keep : A -> bool) l,
    concat (map (fun x => if keep x then [f x] else []) l)
    = map f (filter keep l).
Proof.
  intros A B f keep l; induction l as [|x l IH]; [reflexivity|].
  simpl. destruct (keep x); simpl; now rewrite IH.
Qed.

(** X2.  When [system] is an array of text
    blocks, each block with a text that is not empty becomes a message
    with role [system], in the order of the blocks and before every other
    message; a block with an empty text is left out. *)
Theorem system_blocks_come_first :
  forall props texts,
    JS.lookup "system" props = VArr (map text_block texts) ->
    build_messages JSON_stringify (VObj props)
    = (rest <- build_messages JSON_stringify
                 (VObj (JS.without "system" props)) ;;
       Ok (map system_message_of (filter nonempty texts) ++ rest)).
Proof.
  intros props texts H. unfold build_messages. cbn [JS.get bind].
  rewrite lookup_without_same, H.
  rewrite (lookup_without_other "messages" "system") by discriminate.
  rewrite mapM_system_texts. cbn [bind].
  rewrite concat_filter_singletons.
  destruct (JS.lookup "messages" props); try reflexivity.
  destruct (mapM (translate_message JSON_stringify) items); reflexivity.
Qed.

Lemma get_role :
  forall msg content,
    JS.get msg "content" = Ok content ->
    JS.get msg "role" = Ok (JS.get_opt msg "role").
Proof.
  intros msg content H. apply get_defined.
  destruct msg; try reflexivity; discriminate H.
Qed.

(** X3.  A message whose content is no array is
    forwarded with its role and its content, and nothing else of it, when
    the content is a string that is not empty; with any other content --
    the empty string, [null], a number, or none -- it is left out. *)
Theorem message_without_blocks :
  forall msg content,
    JS.get msg "content" = Ok content ->
    JS.isArray content = false ->
    translate_message JSON_stringify msg
    = Ok (if JS.is_string content && JS.truthy content
          then [VObj [("role", JS.get_opt msg "role"); ("content", content)]]
          else []).
Proof.
  intros msg content Hc Ha. unfold translate_message.
  rewrite Hc, (get_role msg content Hc). cbn [bind].
  destruct content; try discriminate Ha; try reflexivity.
  cbn [filterM mapM bind normalizeContent JS.is_string andb].
  destruct (JS.truthy (VStr s)) eqn:E; [|reflexivity].
  rewrite set_content. change (Z.of_nat (Datatypes.length [])) with 0%Z.
  cbn [Z.ltb Z.compare JS.lookup String.eqb Ascii.eqb Bool.eqb JS.or].
  unfold JS.or. rewrite !E. reflexivity.
Qed.

Lemma filterM_defined :
  forall (f : value -> result bool) (g : value -> bool) l,
    (forall x, nullish x = false -> f x = Ok (g x)) ->
    Forall (fun x => nullish x = false) l ->
    filterM f l = Ok (filter g l).
Proof.
  intros f g l Hf H; induction H as [|x l Hx _ IH]; [reflexivity|].
  cbn [filterM filter]. rewrite (Hf x Hx), IH. cbn [bind].
  now destruct (g x).
Qed.

Lemma mapM_defined :
  forall (f : value -> result value) (g : value -> value) l,
    (forall x, nullish x = false -> f x = Ok (g x)) ->
    Forall (fun x => nullish x = false) l ->
    mapM f l = Ok (map g l).
Proof.
  intros f g l Hf H; induction H as [|x l Hx _ IH]; [reflexivity|].
  cbn [mapM map]. now rewrite (Hf x Hx), IH.
Qed.

Lemma Forall_filter_keep :
  forall (A : Type) (P : A -> Prop) (keep : A -> bool) l,
    Forall P l -> Forall P (filter keep l).
Proof.
  intros A P keep l H; induction H as [|x l Hx _ IH]; simpl;
    [constructor|]. destruct (keep x); [constructor|]; assumption.
Qed.

(** X4.  The outbound tools are the tools of the
    request other than the one called [BatchTool], in their order, each as
    a function with the name, the description and the sanitized input
    schema of the tool. *)
Theorem tools_without_batch_tool :
  forall payload l,
    JS.get payload "tools" = Ok (VArr l) ->
    Forall (fun tool => nullish tool = false) l ->
    build_tools payload
    = Ok (map function_of (filter (fun tool => negb (is_batch_tool tool)) l)).
Proof.
  intros payload l Hg Hl. unfold build_tools. rewrite Hg. cbn [bind].
  change (JS.or (VArr l) (VArr [])) with (VArr l). cbv iota.
  rewrite (filterM_defined _ (fun tool => negb (is_batch_tool tool)) l);
    [|intros x Hx; now rewrite (get_defined x "name" Hx)|exact Hl].
  cbn [bind]. apply mapM_defined.
  - intros x Hx.
    now rewrite (get_defined x "name" Hx), (get_defined x "description" Hx),
      (get_defined x "input_schema" Hx).
  - now apply Forall_filter_keep.
Qed.

(** X5.  The outbound request depends on six fields
    of the inbound one only: two requests that agree on [system],
    [messages], [tools], [thinking], [temperature] and [stream] are
    translated alike, whatever [model], [max_tokens] or other fields they
    carry; the outbound [max_tokens] is the configured one and the
    outbound model one of the two configured ones. *)
Theorem request_fields_only :
  forall payload1 payload2,
    (forall name,
        In name request_fields ->
        JS.get payload1 name = JS.get payload2 name) ->
    build_payload JSON_stringify cfg payload1
    = build_payload JSON_stringify cfg payload2
    /\ forall q,
         build_payload JSON_stringify cfg payload1 = Ok q ->
         max_tokens q = maxTokens cfg
         /\ (model q = reasoning cfg \/ model q = completion cfg).
Proof.
  intros payload1 payload2 H. split.
  - unfold build_payload, build_messages, build_tools.
    rewrite !(H "system"), !(H "messages"), !(H "tools"), !(H "thinking"),
      !(H "temperature"), !(H "stream");
      unfold request_fields; simpl; auto 10.
  - intros q Hq. unfold build_payload in Hq.
    destruct (build_messages JSON_stringify payload1); [|discriminate Hq].
    destruct (build_tools payload1); [|discriminate Hq].
    destruct (JS.get payload1 "thinking") as [thinking|]; [|discriminate Hq].
    destruct (JS.get payload1 "temperature"); [|discriminate Hq].
    destruct (JS.get payload1 "stream"); [|discriminate Hq].
    cbn [bind] in Hq. injection Hq as <-. cbn [max_tokens model].
    split; [reflexivity|]. destruct (JS.truthy thinking); auto.
Qed.

(** X6.  A [tool_use] block that goes upstream as a
    tool call and comes back as a tool call of the completion is the block
    again, with its id, its name and its input, provided that
    [JSON.parse] reads back what [JSON.stringify] wrote for the input. *)
Theorem tool_use_round_trip :
  forall block text,
    nullish block = false ->
    JSON_stringify (JS.get_opt block "input") = VStr text ->
    JSON_parse text = Ok (JS.get_opt block "input") ->
    (call <- tool_call_of JSON_stringify block ;;
     tool_use_of JSON_parse call)
    = Ok (tool_use_with (JS.get_opt block "id") (JS.get_opt block "name")
            (JS.get_opt block "input")).
Proof.
  intros block text Hn Hs Hp. unfold tool_call_of.
  rewrite (get_defined block "id" Hn), (get_defined block "name" Hn),
    (get_defined block "input" Hn).
  cbn [bind]. unfold tool_use_of.
  cbn [JS.get JS.lookup String.eqb Ascii.eqb Bool.eqb bind].
  rewrite Hs. cbn [JS.toString]. rewrite Hp. reflexivity.
Qed.

End Translator.

(** *** The non-streaming response translator *)

Ltac bind_step H :=
  match type of H with
  | bind ?e _ = _ =>
      let E := fresh "E" in
      destruct e eqn:E; cbn [bind] in H; [|discriminate H]
  | (if ?b then _ else _) = _ =>
      let E := fresh "E" in destruct b eqn:E
  end.

Section Completion.

Variable JSON_parse : string -> result value.
Variable JSON_stringify : value -> value.
Variable cfg : config.

(** [split] yields one piece more than the text has separators. *)
Lemma split_length :
  forall c s, List.length (Str.split c s) = S (occurrences c s).
Proof.
  intros c s; induction s as [|a s IH]; [reflexivity|]. simpl.
  destruct (Ascii.eqb a c); simpl; [now rewrite IH|].
  destruct (Str.split c s) as [|w ws] eqn:E; simpl in *; [discriminate IH|].
  exact IH.
Qed.

Lemma word_count_words :
  forall expr v n,
    JS.word_count expr v = Ok n -> JS.is_string v = true /\ n = words v.
Proof.
  intros expr v n H. destruct v; try discriminate H. simpl in H.
  injection H as <-. split; [reflexivity|]. simpl words.
  now rewrite split_length.
Qed.

Lemma estimate_input_total :
  forall msgs acc n,
    estimate_input msgs acc = Ok n ->
    Forall (fun msg => JS.is_string (JS.get_opt msg "content") = true) msgs
    /\ n = (acc + total (map content_words msgs))%Z.
Proof.
  induction msgs as [|msg msgs IH]; intros acc n H; simpl in H.
  - injection H as <-. split; [constructor|]. simpl. lia.
  - destruct (JS.get msg "content") as [content|] eqn:Ec; [|discriminate H].
    cbn [bind] in H.
    destruct (JS.word_count "msg.content" content) as [k|] eqn:Ek;
      [|discriminate H].
    cbn [bind] in H. apply word_count_words in Ek as [Hs ->].
    destruct (IH _ _ H) as [Hf ->].
    assert (Hc : JS.get_opt msg "content" = content).
    { unfold JS.get_opt. now rewrite Ec. }
    split.
    + constructor; [now rewrite Hc|exact Hf].
    + simpl. unfold content_words at 2. rewrite Hc. lia.
Qed.

Lemma mapM_Forall2 :
  forall (A B : Type) (f : A -> result B) l ys,
    mapM f l = Ok ys -> Forall2 (fun x y => f x = Ok y) l ys.
Proof.
  intros A B f l; induction l as [|x l IH]; intros ys H; simpl in H.
  - injection H as <-. constructor.
  - destruct (f x) as [y|] eqn:Ex; [|discriminate H]. cbn [bind] in H.
    destruct (mapM f l) as [zs|]; [|discriminate H]. cbn [bind] in H.
    injection H as <-. constructor; [exact Ex|now apply IH].
Qed.

Lemma get_ok_opt :
  forall v name x, JS.get v name = Ok x -> JS.get_opt v name = x.
Proof. intros v name x H. unfold JS.get_opt. now rewrite H. Qed.

Lemma tool_use_of_fields :
  forall call block,
    tool_use_of JSON_parse call = Ok block ->
    block
    = tool_use_with (JS.get_opt call "id")
        (JS.get_opt (JS.get_opt call "function") "name")
        (JS.get_opt block "input")
    /\ JSON_parse
         (JS.toString (JS.get_opt (JS.get_opt call "function") "arguments"))
       = Ok (JS.get_opt block "input").
Proof.
  intros call block H. unfold tool_use_of in H.
  destruct (JS.get call "id") as [id|] eqn:E1; [|discriminate H].
  destruct (JS.get call "function") as [fn|] eqn:E2; [|discriminate H].
  cbn [bind] in H.
  destruct (JS.get fn "name") as [name|] eqn:E3; [|discriminate H].
  destruct (JS.get fn "arguments") as [arguments|] eqn:E4; [|discriminate H].
  cbn [bind] in H.
  destruct (JSON_parse (JS.toString arguments)) as [input|] eqn:E5;
    [|discriminate H].
  cbn [bind] in H. injection H as <-.
  rewrite (get_ok_opt _ _ _ E1), (get_ok_opt _ _ _ E2),
    (get_ok_opt _ _ _ E3), (get_ok_opt _ _ _ E4).
  split; [reflexivity|exact E5].
Qed.

Lemma first_ok :
  forall v x, first v = Ok x -> JS.first_opt v = x.
Proof.
  intros v x H.
  destruct v; cbn [first] in H; try discriminate H; now injection H as <-.
Qed.

(** What a successful translation is made of. *)
Lemma translate_response_inv :
  forall q rnd data resp,
    translate_response JSON_parse q rnd data = Ok resp ->
    exists mid blocks input_tokens output_tokens,
      JS.truthy (JS.get_opt data "error") = false
      /\ messageId (JS.get_opt data "id") rnd = Ok mid
      /\ mapM (tool_use_of JSON_parse) (completion_calls data) = Ok blocks
      /\ (if JS.truthy (JS.get_opt data "usage")
          then input_tokens
               = JS.get_opt (JS.get_opt data "usage") "prompt_tokens"
               /\ output_tokens
                  = JS.get_opt (JS.get_opt data "usage") "completion_tokens"
          else (exists n, estimate_input (messages q) 0%Z = Ok n
                          /\ input_tokens = VNum n)
               /\ (exists n,
                      JS.word_count "openaiMessage.content"
                        (JS.get_opt (completion_message data) "content")
                      = Ok n
                      /\ output_tokens = VNum n))
      /\ resp
         = VObj [("content",
                  VArr (VObj [("text",
                               JS.get_opt (completion_message data) "content");
                              ("type", VStr "text")] :: blocks));
                 ("id", VStr mid);
                 ("model", VStr (model q));
                 ("role", JS.get_opt (completion_message data) "role");
                 ("stop_reason",
                  VStr (mapStopReason (completion_finish data)));
                 ("stop_sequence", VNull);
                 ("type", VStr "message");
                 ("usage", VObj [("input_tokens", input_tokens);
                                 ("output_tokens", output_tokens)])].
Proof.
  intros q rnd data resp H. unfold translate_response in H.
  bind_step H. bind_step H; [repeat bind_step H; discriminate H|].
  do 8 bind_step H.
  assert (Hm : completion_message data = a2).
  { unfold completion_message.
    now rewrite (get_ok_opt _ _ _ E1), (first_ok _ _ E2),
      (get_ok_opt _ _ _ E3). }
  assert (Hf : completion_finish data = a3).
  { unfold completion_finish.
    now rewrite (get_ok_opt _ _ _ E1), (first_ok _ _ E2),
      (get_ok_opt _ _ _ E4). }
  assert (Hcalls :
    match JS.or a4 (VArr []) with
    | VArr l => mapM (tool_use_of JSON_parse) l
    | _ =>
        Throw ("toolCalls.map is not a function"
               ++ " or its return value is not iterable")
    end
    = match JS.or a4 (VArr []) with
      | VArr _ => mapM (tool_use_of JSON_parse) (completion_calls data)
      | _ =>
          Throw ("toolCalls.map is not a function"
                 ++ " or its return value is not iterable")
      end).
  { unfold completion_calls. rewrite Hm, (get_ok_opt _ _ _ E5).
    now destruct (JS.or a4 (VArr [])). }
  rewrite Hcalls in H. clear Hcalls.
  destruct (JS.or a4 (VArr [])) eqn:Eor; try discriminate H.
  do 3 bind_step H.
  rewrite (get_ok_opt _ _ _ E), (get_ok_opt _ _ _ E6), Hm, Hf,
    (get_ok_opt _ _ _ E8), (get_ok_opt _ _ _ E10),
    (get_ok_opt _ _ _ E11).
  destruct (JS.truthy a10) eqn:Eu.
  - do 2 bind_step H. injection H as <-.
    exists a6, a8, a11, a12. repeat split; try assumption.
    + now apply get_ok_opt in E12.
    + now apply get_ok_opt in E13.
  - destruct (estimate_input (messages q) 0) as [n|] eqn:En;
      [|discriminate H].
    cbn [bind] in H.
    destruct (JS.word_count "openaiMessage.content" a7) as [k|] eqn:Ek;
      [|discriminate H].
    cbn [bind] in H. injection H as <-.
    exists a6, a8, (VNum n), (VNum k). repeat split; try assumption.
    + now exists n.
    + now exists k.
Qed.

(** X7.  The content of a translated response is
    a text block with the content of the completion's message, even when
    that is [null], followed by one [tool_use] block for each tool call of
    the message, in their order, with the id and the function name of the
    call and the parsed arguments as input; the model of the response is
    the model that was sent upstream and its role the role of the
    message. *)
Theorem response_content_blocks :
  forall q rnd data resp,
    translate_response JSON_parse q rnd data = Ok resp ->
    exists blocks,
      JS.get_opt resp "content"
      = VArr (VObj [("text", JS.get_opt (completion_message data) "content");
                    ("type", VStr "text")] :: blocks)
      /\ Forall2
           (fun call block =>
              block
              = tool_use_with (JS.get_opt call "id")
                  (JS.get_opt (JS.get_opt call "function") "name")
                  (JS.get_opt block "input")
              /\ JSON_parse
                   (JS.toString
                      (JS.get_opt (JS.get_opt call "function") "arguments"))
                 = Ok (JS.get_opt block "input"))
           (completion_calls data) blocks
      /\ JS.get_opt resp "model" = VStr (model q)
      /\ JS.get_opt resp "role" = JS.get_opt (completion_message data) "role".
Proof.
  intros q rnd data resp H.
  destruct (translate_response_inv q rnd data resp H)
    as (mid & blocks & it & ot & _ & _ & Hb & _ & ->).
  exists blocks. split; [reflexivity|]. split; [|split; reflexivity].
  apply mapM_Forall2 in Hb. clear H.
  induction Hb as [|call block calls blocks Hc _ IH]; constructor;
    [now apply tool_use_of_fields|exact IH].
Qed.

(** X8.  The usage of a translated response:
    when the completion reports a usage, its prompt and completion tokens;
    when it reports none, the count of space-separated words -- each
    string counts one more than it has spaces -- summed over the contents
    of the outbound messages for the input and taken of the completion's
    content for the output, and then all these contents are strings. *)
Theorem usage_reported_or_estimated :
  forall q rnd data resp,
    translate_response JSON_parse q rnd data = Ok resp ->
    if JS.truthy (JS.get_opt data "usage") then
      JS.get_opt resp "usage"
      = VObj [("input_tokens",
               JS.get_opt (JS.get_opt data "usage") "prompt_tokens");
              ("output_tokens",
               JS.get_opt (JS.get_opt data "usage") "completion_tokens")]
    else
      Forall (fun msg => JS.is_string (JS.get_opt msg "content") = true)
        (messages q)
      /\ JS.is_string (JS.get_opt (completion_message data) "content") = true
      /\ JS.get_opt resp "usage"
         = VObj [("input_tokens",
                  VNum (total (map content_words (messages q))));
                 ("output_tokens",
                  VNum (words
                          (JS.get_opt (completion_message data) "content")))].
Proof.
  intros q rnd data resp H.
  destruct (translate_response_inv q rnd data resp H)
    as (mid & blocks & it & ot & _ & _ & _ & Hu & ->).
  destruct (JS.truthy (JS.get_opt data "usage")).
  - destruct Hu as [-> ->]. reflexivity.
  - destruct Hu as [(n & Hn & ->) (k & Hk & ->)].
    apply estimate_input_total in Hn as [Hf ->].
    apply word_count_words in Hk as [Hs ->].
    repeat split; assumption.
Qed.

(** X9.  The stop reason of a translated response
    is [tool_use] exactly when the completion finished with [tool_calls],
    [max_tokens] exactly when it finished with [length], and [end_turn] in
    every other case, an absent or unknown finish reason included. *)
Theorem stop_reason_of_response :
  forall q rnd data resp,
    translate_response JSON_parse q rnd data = Ok resp ->
    (JS.get_opt resp "stop_reason" = VStr "tool_use"
     /\ completion_finish data = VStr "tool_calls")
    \/ (JS.get_opt resp "stop_reason" = VStr "max_tokens"
        /\ completion_finish data = VStr "length")
    \/ (JS.get_opt resp "stop_reason" = VStr "end_turn"
        /\ completion_finish data <> VStr "tool_calls"
        /\ completion_finish data <> VStr "length").
Proof.
  intros q rnd data resp H.
  destruct (translate_response_inv q rnd data resp H)
    as (mid & blocks & it & ot & _ & _ & _ & _ & ->).
  change (JS.get_opt (VObj _) "stop_reason")
    with (VStr (mapStopReason (completion_finish data))).
  unfold mapStopReason, JS.str_eq. clear H.
  destruct (completion_finish data) as [| |b|n| |s|l|o];
    try (right; right; split; [reflexivity|split; discriminate]).
  destruct (String.eqb_spec s "tool_calls") as [->|H1]; [now left|].
  destruct (String.eqb_spec s "stop") as [->|H2];
    [right; right; split; [reflexivity|split; discriminate]|].
  destruct (String.eqb_spec s "length") as [->|H3]; [right; now left|].
  right; right; split; [reflexivity|split; congruence].
Qed.

(** What the handler answers to a request that does not stream. *)
Lemma non_streaming_answer :
  forall payload q status rnd chunks,
    build_payload JSON_stringify cfg payload = Ok q ->
    stream q = false ->
    handler JSON_parse JSON_stringify cfg payload
      (mkEnv (Response true status (map (Chunk false) chunks)) false rnd)
    = (fresh_socket,
       match data <- JSON_parse (text_of chunks) ;;
             translate_response JSON_parse q rnd data
       with
       | Ok resp => Body 200 resp
       | Throw message => Body 500 (error_body message)
       end).
Proof.
  intros payload q status rnd chunks Hq Hs. unfold handler.
  rewrite Hq. cbn [upstream closedEarly randomSuffix negb].
  rewrite Hs. cbn [negb]. rewrite read_text_quiet.
  now destruct (bind (JSON_parse (text_of chunks))
                  (fun data => translate_response JSON_parse q rnd data)).
Qed.

(** X10.  A request that does not stream is answered
    with status 200 and the translated response, whatever the 2xx status of
    upstream was, and with status 500 when the translation fails: with the
    parser's message when the body is no JSON, with the message of the
    [error] when the body carries one, and with a type error when the body
    has no choice. *)
Theorem non_streaming_answers :
  forall payload q status rnd chunks,
    build_payload JSON_stringify cfg payload = Ok q ->
    stream q = false ->
    let answer :=
      handler JSON_parse JSON_stringify cfg payload
        (mkEnv (Response true status (map (Chunk false) chunks)) false rnd) in
    (forall data resp,
        JSON_parse (text_of chunks) = Ok data ->
        translate_response JSON_parse q rnd data = Ok resp ->
        answer = (fresh_socket, Body 200 resp))
    /\ (forall message,
           JSON_parse (text_of chunks) = Throw message ->
           answer = (fresh_socket, Body 500 (error_body message)))
    /\ (forall data err,
           JSON_parse (text_of chunks) = Ok data ->
           JS.get data "error" = Ok err -> JS.truthy err = true ->
           answer
           = (fresh_socket,
              Body 500
                (error_body (error_message (JS.get_opt err "message")))))
    /\ (forall data err,
           JSON_parse (text_of chunks) = Ok data ->
           JS.get data "error" = Ok err -> JS.truthy err = false ->
           JS.get data "choices" = Ok (VArr []) ->
           answer
           = (fresh_socket,
              Body 500
                (error_body
                   "Cannot read properties of undefined (reading 'message')"))).
Proof.
  intros payload q status rnd chunks Hq Hs answer. unfold answer.
  rewrite (non_streaming_answer payload q status rnd chunks Hq Hs).
  split; [|split; [|split]].
  - intros data resp Hd Hr. rewrite Hd. cbn [bind]. now rewrite Hr.
  - intros message Hd. now rewrite Hd.
  - intros data err Hd He Ht. rewrite Hd. cbn [bind].
    unfold translate_response. rewrite He. cbn [bind]. rewrite Ht.
    assert (Hn : nullish err = false) by (now destruct err).
    now rewrite (get_defined err "message" Hn).
  - intros data err Hd He Ht Hc. rewrite Hd. cbn [bind].
    unfold translate_response. rewrite He. cbn [bind]. rewrite Ht, Hc.
    reflexivity.
Qed.

End Completion.

(** *** The read loop *)
Section Loop.

Variable JSON_parse : string -> result value.
Variable p : openai_payload.
Variable rnd : string.

Section Invariant.

(** A property of the state that each step of the read loop keeps. *)
Variable I : state -> Prop.
Hypothesis I_usage : forall st u, I st -> I (set_usage u st).
Hypothesis I_text : forall st, I st -> I (set_textBlockStarted true st).
Hypothesis I_content : forall st s, I st -> I (set_accumulatedContent s st).
Hypothesis I_reasoning :
  forall st s, I st -> I (set_accumulatedReasoning s st).
Hypothesis I_pending : forall st s, I st -> I (set_incompleteDataLine s st).
Hypothesis I_send :
  forall st event data,
    text_event event data -> I st -> I (send event data st).
Hypothesis I_tool :
  forall toolCall st,
    streaming p rnd st -> I st -> I (fst (handle_tool_call toolCall st)).
Hypothesis I_header :
  forall st,
    written (raw st) = [] -> I st ->
    I (set_raw (mkSocket false false true (header_block p rnd))
         (set_hasStartedStreaming true
            (set_isStreamingStarted true (set_isSucceeded true st)))).
Hypothesis I_close : forall st, I st -> I (client_closed st).

Lemma wf_taken :
  forall st, wf p rnd st -> wf p rnd (taken st).
Proof.
  intros st Hwf. unfold taken.
  destruct (negb (String.eqb (incompleteDataLine st) "")); [|exact Hwf].
  destruct Hwf. constructor; assumption.
Qed.

Lemma taken_open :
  forall st, connectionClosed (taken st) = connectionClosed st.
Proof.
  intros st. unfold taken.
  now destruct (negb (String.eqb (incompleteDataLine st) "")).
Qed.

Lemma taken_keeps : forall st, I st -> I (taken st).
Proof.
  intros st HI. unfold taken.
  destruct (negb (String.eqb (incompleteDataLine st) ""));
    [now apply I_pending|exact HI].
Qed.

Lemma tool_calls_loop_keeps :
  forall toolCalls st,
    streaming p rnd st -> I st -> I (fst (tool_calls_loop toolCalls st)).
Proof.
  induction toolCalls as [|tc tcs IH]; intros st Hs HI; [exact HI|].
  simpl. destruct (connectionClosed st); [exact HI|]. unfold bindM.
  pose proof (I_tool tc st Hs HI) as H1.
  pose proof (handle_tool_call_preserves (streaming p rnd)
                (streaming_stable p rnd) tc st Hs) as H2.
  destruct (handle_tool_call tc st) as [st1 [u|m]]; simpl in *;
    [now apply IH|exact H1].
Qed.

Lemma open_text_block_keeps :
  forall st, I st -> I (fst (open_text_block st)).
Proof.
  intros st HI. unfold open_text_block.
  destruct (textBlockStarted st); [exact HI|]. simpl.
  apply I_send; [constructor|now apply I_text].
Qed.

Lemma frame_body_keeps :
  forall f st,
    nullish f = false -> streaming p rnd st -> I st ->
    I (fst (frame_body f st)).
Proof.
  intros f st Hn Hs HI. rewrite (frame_body_unfold f st Hn). cbv zeta.
  set (st1 := if JS.truthy (JS.get_opt f "usage")
              then set_usage (JS.get_opt f "usage") st else st).
  assert (H1 : streaming p rnd st1 /\ I st1).
  { unfold st1. destruct (JS.truthy (JS.get_opt f "usage")); [|now split].
    split; [now apply (stable_usage _ (streaming_stable p rnd))
           |now apply I_usage]. }
  destruct H1 as [Hs1 HI1].
  destruct (JS.truthy (delta_of f)
            && JS.truthy (JS.get_opt (delta_of f) "tool_calls")
            && negb (connectionClosed st1)).
  { destruct (JS.iterate "delta.tool_calls"
                (JS.get_opt (delta_of f) "tool_calls")) as [l|m];
      [now apply tool_calls_loop_keeps|exact HI1]. }
  destruct (JS.truthy (delta_of f)
            && JS.truthy (JS.get_opt (delta_of f) "content")
            && negb (connectionClosed st1)).
  { cbn [fst]. apply I_send; [constructor|].
    now apply I_content, open_text_block_keeps. }
  destruct (JS.truthy (delta_of f)
            && JS.truthy (JS.get_opt (delta_of f) "reasoning")
            && negb (connectionClosed st1)); [|exact HI1].
  cbn [fst]. apply I_send; [constructor|].
  now apply I_reasoning, open_text_block_keeps.
Qed.

Lemma sendSuccessMessage_streaming :
  forall st,
    wf p rnd st -> connectionClosed st = false ->
    streaming p rnd
      (if negb (isStreamingStarted st) then sendSuccessMessage p rnd st
       else st).
Proof.
  intros st Hwf Hc.
  destruct (isStreamingStarted st) eqn:Hs; cbn [negb]; [now split|].
  rewrite sendSuccessMessage_fresh by assumption.
  destruct Hwf as [Hk Hv Ho Hd Hh]. split; [constructor|reflexivity]; simpl;
    try assumption; try discriminate; try reflexivity.
  split; [reflexivity|].
  exists []. split; [now rewrite app_nil_r|constructor].
Qed.

Lemma handle_frame_keeps :
  forall parsed st,
    wf p rnd st -> connectionClosed st = false -> I st ->
    I (fst (handle_frame p rnd parsed st)).
Proof.
  intros parsed st Hwf Hc HI. rewrite handle_frame_unfold.
  destruct (JS.get parsed "error") as [err|m] eqn:Ee; [|exact HI].
  destruct (JS.truthy err).
  { destruct (JS.get err "message"); exact HI. }
  rewrite Hc. cbn [negb andb]. rewrite andb_true_r.
  apply frame_body_keeps.
  - destruct parsed; try reflexivity; discriminate Ee.
  - now apply sendSuccessMessage_streaming.
  - destruct (isStreamingStarted st) eqn:Hs; cbn [negb]; [exact HI|].
    rewrite sendSuccessMessage_fresh by assumption.
    apply I_header; [|exact HI].
    pose proof (wf_header p rnd st Hwf) as Hh. rewrite Hs in Hh. apply Hh.
Qed.

Lemma process_line_keeps :
  forall st line st',
    wf p rnd st -> connectionClosed st = false -> I st ->
    process_line JSON_parse p rnd st line = Continue st' -> I st'.
Proof.
  intros st line st' Hwf Hc HI H. unfold process_line in H.
  destruct (String.eqb (Str.trim line) ""
            || negb (Str.startsWith "data:" (Str.trim line)));
    [injection H as <-; exact HI|].
  fold (taken st) in H.
  assert (Hwf1 : wf p rnd (taken st)) by now apply wf_taken.
  assert (Hc1 : connectionClosed (taken st) = false)
    by now rewrite taken_open.
  assert (HI1 : I (taken st)) by now apply taken_keeps.
  match type of H with
  | (if String.eqb ?d _ then _ else _) = _ =>
      set (dataStr := d) in *; destruct (String.eqb dataStr "[DONE]");
        [discriminate H|]
  end.
  rewrite Hc1 in H. unfold bindM, lift in H.
  destruct (JSON_parse dataStr) as [parsed|m].
  - pose proof (handle_frame_keeps parsed (taken st) Hwf1 Hc1 HI1) as Hf.
    destruct (handle_frame p rnd parsed (taken st)) as [st2 [u|m]];
      simpl in Hf.
    + injection H as <-. exact Hf.
    + destruct (looks_truncated m); injection H as <-;
        [now apply I_pending|exact Hf].
  - destruct (looks_truncated m); injection H as <-;
      [now apply I_pending|exact HI1].
Qed.

(** The handler returns from the loop at the sentinel only. *)
Lemma process_line_returns :
  forall st line st',
    process_line JSON_parse p rnd st line = Return st' ->
    st' = finalize (taken st).
Proof.
  intros st line st' H. unfold process_line in H.
  destruct (String.eqb (Str.trim line) ""
            || negb (Str.startsWith "data:" (Str.trim line)));
    [discriminate H|].
  fold (taken st) in H.
  match type of H with
  | (if ?b then _ else _) = _ => destruct b
  end; [now injection H as <-|].
  destruct (connectionClosed (taken st)); [discriminate H|].
  match type of H with
  | match ?c with _ => _ end = _ =>
      destruct c as [? [?|m]]; [discriminate H|];
        destruct (looks_truncated m); discriminate H
  end.
Qed.

Lemma wf_closed :
  forall st, wf p rnd st -> wf p rnd (client_closed st).
Proof.
  intros st [Hk Hv Ho Hd Hh]. constructor; simpl; auto.
Qed.

(** How the loop over the lines of a chunk ends. *)
Lemma process_lines_keeps :
  forall lines st,
    wf p rnd st -> I st ->
    match process_lines JSON_parse p rnd st lines with
    | Continue st' => wf p rnd st' /\ I st'
    | Return st' =>
        exists st1,
          wf p rnd st1 /\ I st1 /\ connectionClosed st1 = false
          /\ st' = finalize st1
    end.
Proof.
  induction lines as [|l ls IH]; intros st Hwf HI; simpl; [now split|].
  destruct (connectionClosed st) eqn:Hc; [now split|].
  destruct (process_line JSON_parse p rnd st l) as [s1|s1] eqn:El.
  - apply IH; [now apply (process_line_wf JSON_parse p rnd st l)
              |now apply (process_line_keeps st l)].
  - exists (taken st). split; [now apply wf_taken|]. split; [|split].
    + now apply taken_keeps.
    + now rewrite taken_open.
    + now apply (process_line_returns st l).
Qed.

(** How the read loop ends. *)
Lemma read_loop_keeps :
  forall reads st buffer,
    wf p rnd st -> I st ->
    match read_loop JSON_parse p rnd st buffer reads with
    | Finished st' | Failed st' _ => wf p rnd st' /\ I st'
    | Returned st' =>
        exists st1,
          wf p rnd st1 /\ I st1 /\ connectionClosed st1 = false
          /\ st' = finalize st1
    end.
Proof.
  induction reads as [|r reads IH]; intros st buffer Hwf HI; simpl.
  - now destruct (connectionClosed st).
  - destruct (connectionClosed st) eqn:Hc; [now split|].
    destruct r as [closeEvent text|m]; [|now split].
    destruct closeEvent.
    + simpl. apply IH; [now apply wf_closed|now apply I_close].
    + rewrite Hc. unfold process_chunk.
      pose proof (process_lines_keeps
                    (removelast (Str.split "010" (buffer ++ text))) st Hwf HI)
        as H.
      destruct (process_lines JSON_parse p rnd st
                  (removelast (Str.split "010" (buffer ++ text))))
        as [st'|st']; [|exact H].
      destruct H as [H1 H2]. now apply IH.
Qed.

End Invariant.

(** The read loop keeps what every change made by the body of the [try]
    keeps. *)
Lemma read_loop_keeps_stable :
  forall I : state -> Prop,
    stable I ->
    (forall st s, I st -> I (set_incompleteDataLine s st)) ->
    (forall st,
        written (raw st) = [] -> I st ->
        I (set_raw (mkSocket false false true (header_block p rnd))
             (set_hasStartedStreaming true
                (set_isStreamingStarted true (set_isSucceeded true st))))) ->
    (forall st, I st -> I (client_closed st)) ->
    forall reads st buffer,
      wf p rnd st -> I st ->
      match read_loop JSON_parse p rnd st buffer reads with
      | Finished st' | Failed st' _ => wf p rnd st' /\ I st'
      | Returned st' =>
          exists st1,
            wf p rnd st1 /\ I st1 /\ connectionClosed st1 = false
            /\ st' = finalize st1
      end.
Proof.
  intros I HI Hp Hh Hc. apply read_loop_keeps; try assumption.
  - apply (stable_usage _ HI).
  - apply (stable_text _ HI).
  - apply (stable_content _ HI).
  - apply (stable_reasoning _ HI).
  - intros st event data He. apply (stable_send _ HI).
    now destruct He.
  - intros tc st _. apply (handle_tool_call_preserves I HI).
Qed.

(** The loop writes no end of the response. *)
Lemma unended_stable :
  stable (fun st => forallb not_end (written (raw st)) = true).
Proof.
  constructor; try (intros; assumption).
  intros st event data _ H.
  destruct (send_cases st event data) as [->|(_ & _ & ->)]; [exact H|].
  cbn [raw set_raw written]. rewrite forallb_app, H. reflexivity.
Qed.

Lemma unended_stops :
  forall st, forallb not_end (stops st) = true.
Proof.
  intros st. unfold stops. destruct (encounteredToolCall st).
  - induction (JS.keys (toolCallAccumulators st)) as [|k ks IH];
      [reflexivity|exact IH].
  - now destruct (textBlockStarted st).
Qed.

(** The stream is flagged as started for the handler when it is for the
    loop. *)
Lemma started_stable :
  stable (fun st =>
            isStreamingStarted st = true -> hasStartedStreaming st = true).
Proof. constructor; intros st; intros; cbn in *; now auto. Qed.

Lemma after_fetch_wf : forall closed, wf p rnd (after_fetch closed).
Proof.
  intros closed. unfold after_fetch. destruct closed.
  - apply (reachable_wf JSON_parse), reach_close, reach_start.
  - apply (reachable_wf JSON_parse), reach_start.
Qed.

(** The trace of the streaming branch holds the end of the response at
    most once, as its last action, and then the response is ended. *)
Lemma stream_ended_once :
  forall closed reads,
    let socket :=
      raw (end_state
             (stream_response JSON_parse p rnd (after_fetch closed) reads)) in
    (writableEnded socket = false
     /\ forallb not_end (written socket) = true)
    \/ (writableEnded socket = true
        /\ exists trace,
             written socket = trace ++ [EndResponse]
             /\ forallb not_end trace = true).
Proof.
  intros closed reads socket. unfold socket, stream_response.
  pose proof (read_loop_keeps_stable
                (fun st => forallb not_end (written (raw st)) = true)
                unended_stable (fun st s H => H) (fun st _ _ => eq_refl)
                (fun st H => H) reads (after_fetch closed) ""
                (after_fetch_wf closed)) as H.
  destruct (read_loop JSON_parse p rnd (after_fetch closed) "" reads)
    as [st|st|st m].
  - destruct H as [Hwf HI]; [now destruct closed|].
    destruct (connectionClosed st); cbn [negb end_state].
    + left. split; [apply (wf_open p rnd st Hwf)|exact HI].
    + right. unfold Raw.end_. rewrite (wf_open p rnd st Hwf).
      cbn [raw set_raw writableEnded written]. split; [reflexivity|].
      now exists (written (raw st)).
  - destruct H as (st1 & Hwf & HI & Hc & ->); [now destruct closed|].
    destruct (wf_socket_open p rnd st1 Hwf Hc) as [Hd He].
    rewrite finalize_open by assumption.
    right. cbn [end_state raw set_raw writableEnded written].
    split; [reflexivity|].
    exists (written (raw st1) ++ stops st1
            ++ removelast (final_events st1)).
    split.
    + unfold final_events. cbn [removelast].
      now rewrite <- !app_assoc.
    + rewrite !forallb_app, HI, unended_stops. reflexivity.
  - destruct H as [Hwf HI]; [now destruct closed|].
    left. split; [apply (wf_open p rnd st Hwf)|exact HI].
Qed.

(** A read failure can be answered only when nothing was written. *)
Lemma stream_failed_unwritten :
  forall closed reads st message,
    stream_response JSON_parse p rnd (after_fetch closed) reads
    = Failed st message ->
    may_answer st = true ->
    written (raw st) = [] /\ writableEnded (raw st) = false
    /\ headersSent (raw st) = false.
Proof.
  intros closed reads st message H Hm. unfold stream_response in H.
  pose proof (read_loop_keeps_stable
                (fun st =>
                   isStreamingStarted st = true ->
                   hasStartedStreaming st = true)
                started_stable (fun st s H => H)
                (fun st _ _ _ => eq_refl) (fun st H => H)
                reads (after_fetch closed) ""
                (after_fetch_wf closed)) as Hk.
  destruct (read_loop JSON_parse p rnd (after_fetch closed) "" reads)
    as [st'|st'|st' m]; try discriminate H.
  injection H as -> ->.
  destruct Hk as [Hwf HI]; [now destruct closed|].
  unfold may_answer in Hm. apply andb_prop in Hm as [Hm _].
  apply andb_prop in Hm as [_ Hm]. apply negb_true_iff in Hm.
  pose proof (wf_header p rnd st Hwf) as Hh.
  destruct (isStreamingStarted st).
  - rewrite HI in Hm by reflexivity. discriminate Hm.
  - destruct Hh as (_ & _ & H3 & H4).
    split; [exact H4|]. split; [apply (wf_open p rnd st Hwf)|exact H3].
Qed.

(** The reads that come with and after a close event are not processed,
    and then the response is not ended. *)
Lemma read_loop_close :
  forall reads1 st buffer text reads2,
    read_loop JSON_parse p rnd st buffer
      (reads1 ++ Chunk true text :: reads2)
    = match read_loop JSON_parse p rnd st buffer reads1 with
      | Finished st1 =>
          Finished (if connectionClosed st1 then st1 else client_closed st1)
      | other => other
      end.
Proof.
  induction reads1 as [|r reads1 IH]; intros st buffer text reads2.
  - cbn [app read_loop]. destruct (connectionClosed st) eqn:Hc;
      [now rewrite Hc|]. cbn. rewrite Hc.
    now destruct reads2.
  - cbn [app read_loop]. destruct (connectionClosed st) eqn:Hc;
      [now rewrite Hc|].
    destruct r as [closeEvent t|m]; [|reflexivity].
    destruct closeEvent.
    + cbn [client_closed connectionClosed set_connectionClosed]. apply IH.
    + rewrite Hc.
      destruct (process_chunk JSON_parse p rnd st buffer t);
        [apply IH|reflexivity].
Qed.

(** X11.  A second call of [sendSuccessMessage] does
    nothing, in whatever state the first one was made. *)
Theorem send_success_once :
  forall st,
    sendSuccessMessage p rnd (sendSuccessMessage p rnd st)
    = sendSuccessMessage p rnd st.
Proof.
  assert (H : forall s,
             isSucceeded s = true -> sendSuccessMessage p rnd s = s).
  { intros s Hs. unfold sendSuccessMessage. now rewrite Hs. }
  intros st. unfold sendSuccessMessage at 2.
  destruct (isSucceeded st || Raw.sent (raw st) || connectionClosed st
            || hasStartedStreaming st) eqn:E; [reflexivity|].
  rewrite H; [unfold sendSuccessMessage; now rewrite E|].
  destruct (Raw.writeHead
              (raw (set_hasStartedStreaming true
                      (set_isStreamingStarted true
                         (set_isSucceeded true st)))) 200 sse_headers);
    reflexivity.
Qed.

End Loop.

(** *** What the handler writes and answers *)
Section Answers.

Variable JSON_parse : string -> result value.
Variable JSON_stringify : value -> value.
Variable cfg : config.

Lemma read_text_raw :
  forall reads st,
    written (raw (fst (read_text st reads))) = written (raw st)
    /\ writableEnded (raw (fst (read_text st reads)))
       = writableEnded (raw st)
    /\ headersSent (raw (fst (read_text st reads))) = headersSent (raw st).
Proof.
  induction reads as [|r reads IH]; intros st; simpl; [now repeat split|].
  destruct r as [closeEvent text|m]; simpl; [|now repeat split].
  specialize (IH (if closeEvent then client_closed st else st)).
  destruct (read_text (if closeEvent then client_closed st else st) reads)
    as [st' [s|m]]; simpl in *; destruct IH as (-> & -> & ->);
    now destruct closeEvent.
Qed.

Lemma after_fetch_raw :
  forall closed,
    written (raw (after_fetch closed)) = []
    /\ writableEnded (raw (after_fetch closed)) = false
    /\ headersSent (raw (after_fetch closed)) = false.
Proof. intros []; now repeat split. Qed.

Lemma on_error_raw :
  forall st message, fst (on_error st message) = raw st.
Proof.
  intros st message. unfold on_error. now destruct (may_answer st).
Qed.

Lemma on_error_pair :
  forall st message,
    on_error st message = (raw st, snd (on_error st message)).
Proof.
  intros st message. unfold on_error. now destruct (may_answer st).
Qed.

(** The handler, case by case. *)
Lemma handler_cases :
  forall payload env,
    (exists message,
        build_payload JSON_stringify cfg payload = Throw message
        /\ handler JSON_parse JSON_stringify cfg payload env
           = on_error initial_state message)
    \/ exists q,
         build_payload JSON_stringify cfg payload = Ok q
         /\ ((exists st answer,
                 handler JSON_parse JSON_stringify cfg payload env
                 = (raw st, answer)
                 /\ written (raw st) = []
                 /\ writableEnded (raw st) = false
                 /\ headersSent (raw st) = false)
             \/ exists status body,
                  upstream env = Response true status body
                  /\ stream q = true
                  /\ handler JSON_parse JSON_stringify cfg payload env
                     = match stream_response JSON_parse q (randomSuffix env)
                               (after_fetch (closedEarly env)) body with
                       | Finished st => (raw st, Nothing)
                       | Returned st => (raw st, Nothing)
                       | Failed st message => on_error st message
                       end).
Proof.
  intros payload env. unfold handler.
  destruct (build_payload JSON_stringify cfg payload) as [q|m];
    [right; exists q; split; [reflexivity|]|left; now exists m].
  fold (after_fetch (closedEarly env)).
  destruct (after_fetch_raw (closedEarly env)) as (Hw & He & Hh).
  destruct (upstream env) as [m|ok status body].
  - left. exists (after_fetch (closedEarly env)).
    rewrite on_error_pair. eexists. split; [reflexivity|now repeat split].
  - destruct ok; cbn [negb].
    + destruct (stream q) eqn:Hs; cbn [negb].
      * right. exists status, body. now repeat split.
      * left.
        destruct (read_text_raw body (after_fetch (closedEarly env)))
          as (H1 & H2 & H3).
        destruct (read_text (after_fetch (closedEarly env)) body)
          as [st [text|m]]; simpl in H1, H2, H3; exists st.
        -- destruct (bind (JSON_parse text)
                       (fun data => translate_response JSON_parse q
                                      (randomSuffix env) data));
             [|rewrite on_error_pair]; eexists;
             (split; [reflexivity|repeat split; congruence]).
        -- rewrite on_error_pair. eexists.
           split; [reflexivity|repeat split; congruence].
    + left.
      destruct (read_text_raw body (after_fetch (closedEarly env)))
        as (H1 & H2 & H3).
      destruct (read_text (after_fetch (closedEarly env)) body)
        as [st [text|m]]; simpl in H1, H2, H3; exists st.
      * destruct (may_answer st); eexists;
          (split; [reflexivity|repeat split; congruence]).
      * rewrite on_error_pair. eexists.
        split; [reflexivity|repeat split; congruence].
Qed.

(** X12.  Whatever the request and whatever upstream
    delivers, the handler ends the raw response at most once and writes
    nothing after the end: either the response is not ended and the trace
    holds no end, or it is ended and the end is the last action of the
    trace and the only one. *)
Theorem response_ended_once :
  forall payload env,
    let socket := fst (handler JSON_parse JSON_stringify cfg payload env) in
    (writableEnded socket = false
     /\ forallb not_end (written socket) = true)
    \/ (writableEnded socket = true
        /\ exists trace,
             written socket = trace ++ [EndResponse]
             /\ forallb not_end trace = true).
Proof.
  intros payload env socket. unfold socket.
  destruct (handler_cases payload env)
    as [(m & _ & ->)|(q & _ & [(st & a & -> & Hw & He & _)
                               |(status & body & _ & _ & ->)])].
  - rewrite on_error_raw. now left.
  - left. cbn [fst]. now rewrite Hw, He.
  - pose proof (stream_ended_once JSON_parse q (randomSuffix env)
                  (closedEarly env) body) as H.
    cbv zeta in H.
    destruct (stream_response JSON_parse q (randomSuffix env)
                (after_fetch (closedEarly env)) body) as [st|st|st m];
      cbn [end_state] in H; rewrite ?on_error_raw; exact H.
Qed.

(** X13.  When the handler returns a body for
    Fastify to send, be it the translated response or an error, it has
    written nothing on the raw response, has sent no headers and has not
    ended it. *)
Theorem no_answer_after_write :
  forall payload env status body,
    snd (handler JSON_parse JSON_stringify cfg payload env)
    = Body status body ->
    let socket := fst (handler JSON_parse JSON_stringify cfg payload env) in
    written socket = [] /\ writableEnded socket = false
    /\ headersSent socket = false.
Proof.
  intros payload env status body H socket. unfold socket.
  destruct (handler_cases payload env)
    as [(m & _ & E)|(q & _ & [(st & a & E & Hw & He & Hh)
                              |(st0 & b & _ & _ & E)])];
    rewrite E in *.
  - rewrite on_error_raw. now repeat split.
  - now repeat split.
  - destruct (stream_response JSON_parse q (randomSuffix env)
                (after_fetch (closedEarly env)) b) as [st|st|st m] eqn:Es;
      try discriminate H.
    rewrite on_error_raw. unfold on_error in H.
    destruct (may_answer st) eqn:Hm; [|discriminate H].
    now apply (stream_failed_unwritten JSON_parse q (randomSuffix env)
                 (closedEarly env) b st m).
Qed.

(** X14.  Once the client has gone, the handler
    processes no further read, writes nothing and does not end the
    response: a streaming request whose client went away during the
    upstream call leaves an empty trace and no answer, and a close event
    during a read stops the read loop where the reads before it had
    left it. *)
Theorem nothing_after_close :
  (forall payload q status body rnd,
      build_payload JSON_stringify cfg payload = Ok q ->
      stream q = true ->
      handler JSON_parse JSON_stringify cfg payload
        (mkEnv (Response true status body) true rnd)
      = (mkSocket true false false [], Nothing))
  /\ (forall q rnd st reads1 text reads2,
         stream_response JSON_parse q rnd st
           (reads1 ++ Chunk true text :: reads2)
         = match read_loop JSON_parse q rnd st "" reads1 with
           | Finished st1 =>
               Finished
                 (if connectionClosed st1 then st1 else client_closed st1)
           | other => other
           end).
Proof.
  split.
  - intros payload q status body rnd Hq Hs. unfold handler.
    rewrite Hq. cbn [upstream closedEarly randomSuffix negb]. rewrite Hs.
    cbn [negb]. unfold stream_response. now destruct body.
  - intros q rnd st reads1 text reads2. unfold stream_response.
    rewrite read_loop_close.
    destruct (read_loop JSON_parse q rnd st "" reads1) as [st1|st1|st1 m];
      try reflexivity.
    destruct (connectionClosed st1) eqn:E; [now rewrite E|reflexivity].
Qed.

End Answers.

Section Text.

Variable JSON_parse : string -> result value.
Variable p : openai_payload.
Variable rnd : string.

Lemma process_line_data :
  forall st line,
    process_line JSON_parse p rnd st line
    = if is_data_line line
      then process_data JSON_parse p rnd (taken st) (data_of st line)
      else Continue st.
Proof.
  intros st line. unfold process_line, is_data_line, process_data, taken,
    data_of.
  destruct (String.eqb (Str.trim line) ""); cbn [negb orb andb];
    [reflexivity|].
  destruct (Str.startsWith "data:" (Str.trim line)); cbn [negb];
    reflexivity.
Qed.

Lemma str_eq_inv :
  forall v s, JS.str_eq v s = true -> v = VStr s.
Proof.
  intros v s H. destruct v; try discriminate H.
  f_equal. now apply String.eqb_eq.
Qed.

Lemma carries_inv :
  forall f d,
    carries f d = true ->
    nullish f = false
    /\ JS.truthy (JS.get_opt f "error") = false
    /\ JS.truthy (JS.get_opt f "usage") = false
    /\ JS.truthy (delta_of f) = true
    /\ JS.truthy (JS.get_opt (delta_of f) "tool_calls") = false
    /\ match d with
       | Content s =>
           JS.get_opt (delta_of f) "content" = VStr s
           /\ JS.truthy (VStr s) = true
       | Reasoning s =>
           JS.truthy (JS.get_opt (delta_of f) "content") = false
           /\ JS.get_opt (delta_of f) "reasoning" = VStr s
           /\ JS.truthy (VStr s) = true
       end.
Proof.
  intros f d H. unfold carries in H.
  apply andb_prop in H as [H Hd].
  repeat (apply andb_prop in H as [H ?]).
  repeat match goal with
         | H : negb _ = true |- _ => apply negb_true_iff in H
         end.
  repeat split; try assumption.
  destruct d as [s|s].
  - apply andb_prop in Hd as [Ha Hb].
    split; [now apply str_eq_inv|exact Hb].
  - apply andb_prop in Hd as [Ha Hc]. apply andb_prop in Ha as [Ha Hb].
    apply negb_true_iff in Ha.
    split; [exact Ha|]. split; [now apply str_eq_inv|exact Hc].
Qed.

Lemma block_events_app :
  forall pieces d,
    block_events (pieces ++ [d])
    = block_events pieces
      ++ [WriteSSE "content_block_delta" (piece_delta d)].
Proof.
  intros pieces d. unfold block_events. now rewrite map_app.
Qed.

Lemma contents_app :
  forall pieces d,
    contents (pieces ++ [d])
    = (contents pieces
       ++ match d with Content s => s | Reasoning _ => "" end)%string.
Proof.
  intros pieces d. unfold contents. rewrite flat_map_app, text_of_app.
  destruct d; cbn [flat_map app text_of fold_right];
    now rewrite ?append_empty_r.
Qed.

Lemma reasonings_app :
  forall pieces d,
    reasonings (pieces ++ [d])
    = (reasonings pieces
       ++ match d with Content _ => "" | Reasoning s => s end)%string.
Proof.
  intros pieces d. unfold reasonings. rewrite flat_map_app, text_of_app.
  destruct d; cbn [flat_map app text_of fold_right];
    now rewrite ?append_empty_r.
Qed.

Lemma after_pieces_cons :
  forall d pieces,
    after_pieces p rnd (d :: pieces)
    = mkState
        (mkSocket false false true
           (header_block p rnd ++ block_events (d :: pieces)))
        true false true true (contents (d :: pieces))
        (reasonings (d :: pieces)) VNull true false [] "".
Proof. reflexivity. Qed.

Lemma after_pieces_snoc :
  forall pieces d,
    after_pieces p rnd (pieces ++ [d])
    = mkState
        (mkSocket false false true
           (header_block p rnd ++ block_events (pieces ++ [d])))
        true false true true (contents (pieces ++ [d]))
        (reasonings (pieces ++ [d])) VNull true false [] "".
Proof. now intros [|x pieces] d. Qed.

Lemma piece_frame_step :
  forall pieces f d,
    carries f d = true ->
    handle_frame p rnd f (after_pieces p rnd pieces)
    = (after_pieces p rnd (pieces ++ [d]), Ok tt).
Proof.
  intros pieces f d H.
  destruct (carries_inv f d H) as (Hn & He & Hu & Hd & Ht & Hp).
  rewrite handle_frame_unfold, (get_defined f "error" Hn), He.
  rewrite after_pieces_snoc, block_events_app, contents_app,
    reasonings_app.
  destruct pieces as [|x pieces].
  - cbn [after_pieces app isStreamingStarted connectionClosed initial_state
         negb andb].
    rewrite (frame_body_unfold f _ Hn). cbv zeta. rewrite Hu, Hd, Ht.
    destruct d as [s|s].
    + destruct Hp as [Hc Hs]. rewrite Hc, Hs.
      unfold send, sendSSE, Raw.write. cbn.
      now rewrite ?append_empty_r.
    + destruct Hp as (Hc & Hr & Hs). rewrite Hc, Hr, Hs.
      unfold send, sendSSE, Raw.write. cbn.
      now rewrite ?append_empty_r.
  - rewrite after_pieces_cons.
    cbn [isStreamingStarted connectionClosed negb andb].
    rewrite (frame_body_unfold f _ Hn). cbv zeta. rewrite Hu, Hd, Ht.
    destruct d as [s|s].
    + destruct Hp as [Hc Hs]. rewrite Hc, Hs.
      unfold send, sendSSE, Raw.write.
      cbn [andb negb connectionClosed open_text_block textBlockStarted fst
           raw destroyed writableEnded orb set_raw set_accumulatedContent
           accumulatedContent JS.toString written hasStartedStreaming
           isSucceeded isStreamingStarted accumulatedReasoning usage
           encounteredToolCall toolCallAccumulators incompleteDataLine
           piece_delta].
      now rewrite app_assoc, append_empty_r.
    + destruct Hp as (Hc & Hr & Hs). rewrite Hc, Hr, Hs.
      unfold send, sendSSE, Raw.write.
      cbn [andb negb connectionClosed open_text_block textBlockStarted fst
           raw destroyed writableEnded orb set_raw set_accumulatedReasoning
           accumulatedContent JS.toString written hasStartedStreaming
           isSucceeded isStreamingStarted accumulatedReasoning usage
           encounteredToolCall toolCallAccumulators incompleteDataLine
           piece_delta].
      now rewrite app_assoc, append_empty_r.
Qed.

Lemma after_pieces_open :
  forall pieces,
    connectionClosed (after_pieces p rnd pieces) = false
    /\ incompleteDataLine (after_pieces p rnd pieces) = ""
    /\ taken (after_pieces p rnd pieces) = after_pieces p rnd pieces.
Proof. intros [|d pieces]; repeat split. Qed.

Lemma piece_lines :
  forall lines pieces,
    piece_feeds JSON_parse lines pieces ->
    forall seen,
      process_lines JSON_parse p rnd (after_pieces p rnd seen) lines
      = Continue (after_pieces p rnd (seen ++ pieces)).
Proof.
  intros lines pieces H;
    induction H as [|line lines pieces Hl _ IH
                    |line lines f d pieces Hl Hd Hp Hc _ IH];
    intros seen.
  - now rewrite app_nil_r.
  - destruct (after_pieces_open seen) as (Ho & _ & _).
    cbn [process_lines]. rewrite Ho, process_line_data, Hl. apply IH.
  - destruct (after_pieces_open seen) as (Ho & Hi & Ht).
    cbn [process_lines]. rewrite Ho, process_line_data, Hl, Ht.
    unfold data_of. rewrite Hi. cbn [String.eqb negb].
    unfold process_data. apply String.eqb_neq in Hd. rewrite Hd, Ho.
    unfold bindM, lift. rewrite Hp, (piece_frame_step seen f d Hc).
    replace (seen ++ d :: pieces) with ((seen ++ [d]) ++ pieces)
      by now rewrite <- app_assoc.
    apply IH.
Qed.

Lemma piece_stream_lines :
  forall chunks lines pieces line rest,
    lines_of (text_of chunks) = lines ++ line :: rest ->
    piece_feeds JSON_parse lines pieces ->
    pieces <> [] ->
    is_done_line line = true ->
    stream_response JSON_parse p rnd initial_state (map (Chunk false) chunks)
    = Returned
        (set_raw
           (mkSocket false true true
              (header_block p rnd ++ block_events pieces
               ++ block_stops pieces))
           (after_pieces p rnd pieces)).
Proof.
  intros chunks lines pieces line rest Hl Hf Hne Hd.
  unfold stream_response. rewrite read_loop_lines by reflexivity.
  cbn [append]. rewrite Hl. unfold run_lines.
  rewrite process_lines_app.
  change initial_state with (after_pieces p rnd []).
  rewrite (piece_lines lines pieces Hf []). cbn [app process_lines].
  destruct (after_pieces_open pieces) as (Ho & Hi & _).
  rewrite Ho, process_line_done by assumption.
  destruct pieces as [|d pieces]; [contradiction|].
  rewrite finalize_open by reflexivity.
  unfold block_stops, stops, final_events.
  cbn [after_pieces raw written encounteredToolCall textBlockStarted usage
       JS.truthy accumulatedContent accumulatedReasoning].
  rewrite !split_length. unfold words.
  rewrite <- !app_assoc. reflexivity.
Qed.

End Text.

Section TextAnswers.

Variable JSON_parse : string -> result value.
Variable JSON_stringify : value -> value.
Variable cfg : config.

(** X15.  A streaming request whose upstream stream consists of
    frames that carry text or reasoning only, followed by the sentinel, is
    answered with the header block, one text block at index 0 that is
    opened once and holds one delta per frame in stream order -- a
    text_delta for a piece of text, a thinking_delta for a piece of
    reasoning --, the stop of that block, a message_delta with stop_reason
    end_turn and the word estimates of the joined text and of the joined
    reasoning as output tokens, the message_stop, and the end of the
    response; lines that are not data lines are skipped and whatever
    follows the sentinel is ignored. *)
Theorem text_stream :
  forall payload q status chunks rnd lines pieces line rest,
    build_payload JSON_stringify cfg payload = Ok q ->
    stream q = true ->
    lines_of (text_of chunks) = lines ++ line :: rest ->
    piece_feeds JSON_parse lines pieces ->
    pieces <> [] ->
    is_done_line line = true ->
    handler JSON_parse JSON_stringify cfg payload
      (mkEnv (Response true status (map (Chunk false) chunks)) false rnd)
    = (mkSocket false true true
         (header_block q rnd ++ block_events pieces ++ block_stops pieces),
       Nothing).
Proof.
  intros payload q status chunks rnd lines pieces line rest Hq Hs Hl Hf Hne
    Hd.
  unfold handler. rewrite Hq.
  cbn [upstream closedEarly randomSuffix negb]. rewrite Hs. cbn [negb].
  now rewrite (piece_stream_lines JSON_parse q rnd chunks lines pieces line
                 rest Hl Hf Hne Hd).
Qed.

End TextAnswers.

(** *** Data lines *)
Lemma all_space_app :
  forall a b, Str.all_space (a ++ b) = Str.all_space a && Str.all_space b.
Proof.
  induction a as [|c a IH]; intros b; [reflexivity|]. simpl.
  now rewrite IH, andb_assoc.
Qed.

Lemma trimStart_app_space :
  forall a b,
    Str.all_space a = true -> Str.trimStart (a ++ b) = Str.trimStart b.
Proof.
  induction a as [|c a IH]; intros b H; [reflexivity|]. simpl in *.
  apply andb_prop in H as [H1 H2]. rewrite H1. now apply IH.
Qed.

Lemma trimEnd_space :
  forall s, Str.all_space s = true -> Str.trimEnd s = "".
Proof. intros [|c s] H; [reflexivity|]. cbn [Str.trimEnd]. now rewrite H. Qed.

Lemma trimEnd_app_space :
  forall a b, Str.all_space b = true -> Str.trimEnd (a ++ b) = Str.trimEnd a.
Proof.
  induction a as [|c a IH]; intros b H; [now apply trimEnd_space|].
  cbn [append Str.trimEnd]. rewrite IH by exact H.
  change (String c (a ++ b)) with (String c a ++ b)%string.
  now rewrite all_space_app, H, andb_true_r.
Qed.

Lemma trimEnd_app :
  forall a b,
    Str.all_space b = false ->
    Str.trimEnd (a ++ b) = (a ++ Str.trimEnd b)%string.
Proof.
  induction a as [|c a IH]; intros b H; [reflexivity|].
  cbn [append Str.trimEnd]. rewrite IH by exact H.
  change (String c (a ++ b)) with (String c a ++ b)%string.
  now rewrite all_space_app, H, andb_false_r.
Qed.

Lemma trimStart_length :
  forall s, (String.length (Str.trimStart s) <= String.length s)%nat.
Proof.
  induction s as [|c s IH]; [reflexivity|]. simpl.
  destruct (Str.is_space c); simpl; lia.
Qed.

Lemma trimEnd_length :
  forall s, (String.length (Str.trimEnd s) <= String.length s)%nat.
Proof.
  induction s as [|c s IH]; [reflexivity|]. cbn [Str.trimEnd].
  destruct (Str.all_space (String c s)); simpl; lia.
Qed.

Lemma trimStart_same_length :
  forall s,
    String.length (Str.trimStart s) = String.length s -> Str.trimStart s = s.
Proof.
  intros [|c s] H; [reflexivity|]. simpl in *.
  destruct (Str.is_space c); [|reflexivity].
  pose proof (trimStart_length s). lia.
Qed.

Lemma trim_fixed :
  forall s,
    Str.trim s = s -> Str.trimStart s = s /\ Str.trimEnd s = s.
Proof.
  intros s H. unfold Str.trim in H.
  assert (Hs : Str.trimStart s = s).
  { apply trimStart_same_length.
    pose proof (trimStart_length s).
    pose proof (trimEnd_length (Str.trimStart s)).
    rewrite H in *. lia. }
  split; [exact Hs|]. now rewrite Hs in H.
Qed.

Lemma trimStart_fixed_not_space :
  forall s, s <> "" -> Str.trimStart s = s -> Str.all_space s = false.
Proof.
  intros [|c s] Hne H; [contradiction|]. simpl in *.
  destruct (Str.is_space c) eqn:E; [|reflexivity].
  pose proof (trimStart_length s) as Hl. rewrite H in Hl. simpl in Hl. lia.
Qed.

(** X16.  White space before the data prefix, between
    the prefix and the data, and after the data does not matter: such a
    line is a data line and its data is the text without that space. *)
Theorem data_line_spacing :
  forall before between after body,
    Str.all_space before = true ->
    Str.all_space between = true ->
    Str.all_space after = true ->
    body <> "" -> Str.trim body = body ->
    let line := (before ++ "data:" ++ between ++ body ++ after)%string in
    is_data_line line = true /\ Str.strip_data (Str.trim line) = body.
Proof.
  intros before between after body H1 H2 H3 Hne Ht line.
  destruct (trim_fixed body Ht) as [Hs He].
  pose proof (trimStart_fixed_not_space body Hne Hs) as Hb.
  assert (Hline : Str.trim line = ("data:" ++ between ++ body)%string).
  { unfold line, Str.trim. rewrite trimStart_app_space by exact H1.
    cbn [append Str.trimStart Str.is_space].
    change (Str.is_space "d") with false. cbv iota.
    change (String "d" (String "a" (String "t" (String "a" (String ":"
              (between ++ body ++ after))))))
      with ("data:" ++ between ++ body ++ after)%string.
    replace ("data:" ++ between ++ body ++ after)%string
      with ((("data:" ++ between) ++ body) ++ after)%string
      by now rewrite !append_assoc.
    rewrite trimEnd_app_space by exact H3.
    rewrite trimEnd_app by exact Hb. now rewrite He, append_assoc. }
  unfold is_data_line. rewrite Hline. split; [reflexivity|].
  unfold Str.strip_data. cbn.
  rewrite trimStart_app_space by exact H2. exact Hs.
Qed.

(** *** Frames *)
Section Frames.

Variable JSON_parse : string -> result value.
Variable p : openai_payload.
Variable rnd : string.

Lemma truthy_defined : forall v, JS.truthy v = true -> nullish v = false.
Proof. intros [] H; try reflexivity; discriminate H. Qed.

Lemma taken_none :
  forall st, incompleteDataLine st = "" -> taken st = st.
Proof. intros st H. unfold taken. now rewrite H. Qed.

Lemma pending_same :
  forall st, set_incompleteDataLine (incompleteDataLine st) st = st.
Proof. now intros []. Qed.

Lemma taken_pending :
  forall st s,
    incompleteDataLine st = "" -> s <> "" ->
    taken (set_incompleteDataLine s st) = st.
Proof.
  intros st s H Hs. unfold taken. destruct st; simpl in *. subst.
  apply String.eqb_neq in Hs. now rewrite Hs.
Qed.

(** X17.  A frame of the stream that reports an
    upstream error is dropped without a trace: nothing is written, the
    stream is neither opened nor ended, and the loop goes on with the next
    line.  Only when the error message contains one of the three markers of
    a cut JSON text is the text of the frame kept as the pending line. *)
Theorem error_frame_is_skipped :
  forall st line f err,
    connectionClosed st = false ->
    is_data_line line = true ->
    data_of st line <> "[DONE]" ->
    JSON_parse (data_of st line) = Ok f ->
    JS.get f "error" = Ok err ->
    JS.truthy err = true ->
    process_line JSON_parse p rnd st line
    = Continue
        (if looks_truncated (error_message (JS.get_opt err "message"))
         then set_incompleteDataLine (data_of st line) (taken st)
         else taken st).
Proof.
  intros st line f err Hc Hl Hd Hp He Ht.
  rewrite process_line_data, Hl. unfold process_data.
  apply String.eqb_neq in Hd. rewrite Hd, taken_open, Hc.
  unfold bindM, lift. rewrite Hp, handle_frame_unfold, He, Ht.
  rewrite (get_defined err "message" (truthy_defined err Ht)).
  now destruct (looks_truncated (error_message (JS.get_opt err "message"))).
Qed.

(** X18.  A data line whose text does not parse,
    with a message that marks a cut JSON text, is kept and joined with the
    data of the next data line: the two lines are processed as the one
    data line that carries the joined text. *)
Theorem frame_cut_between_lines :
  forall st line1 line2 line message,
    connectionClosed st = false ->
    incompleteDataLine st = "" ->
    is_data_line line1 = true ->
    is_data_line line2 = true ->
    is_data_line line = true ->
    Str.strip_data (Str.trim line1) <> "[DONE]" ->
    JSON_parse (Str.strip_data (Str.trim line1)) = Throw message ->
    looks_truncated message = true ->
    Str.strip_data (Str.trim line)
    = (Str.strip_data (Str.trim line1)
       ++ Str.strip_data (Str.trim line2))%string ->
    process_lines JSON_parse p rnd st [line1; line2]
    = process_lines JSON_parse p rnd st [line].
Proof.
  intros st line1 line2 line message Hc Hi H1 H2 H Hd Hp Ht He.
  cbn [process_lines]. rewrite Hc, !process_line_data, H1, H.
  rewrite (taken_none st Hi). unfold data_of. rewrite Hi.
  cbn [String.eqb negb]. unfold process_data at 1.
  apply String.eqb_neq in Hd. rewrite Hd, Hc. unfold bindM at 1, lift at 1.
  rewrite Hp, Ht.
  replace (connectionClosed
             (set_incompleteDataLine (Str.strip_data (Str.trim line1)) st))
    with false by (now destruct st).
  rewrite process_line_data, H2, He.
  destruct (String.eqb (Str.strip_data (Str.trim line1)) "") eqn:E.
  - apply String.eqb_eq in E. rewrite E.
    assert (Hs : set_incompleteDataLine "" st = st)
      by (rewrite <- Hi at 1; apply pending_same).
    rewrite Hs, (taken_none st Hi). unfold data_of. now rewrite Hi.
  - assert (E' := E). apply String.eqb_neq in E'.
    rewrite (taken_pending st _ Hi E'). unfold data_of.
    replace (incompleteDataLine
               (set_incompleteDataLine (Str.strip_data (Str.trim line1)) st))
      with (Str.strip_data (Str.trim line1)) by (now destruct st).
    now rewrite E.
Qed.

Lemma handle_tool_call_usage :
  forall u toolCall,
    preserves (fun st => usage st = u) (handle_tool_call toolCall).
Proof.
  intros u toolCall. unfold handle_tool_call.
  apply preserves_bind; [now apply preserves_modify|intros _].
  apply preserves_lift_bind; intros idx _.
  apply preserves_bind; [intros st H; exact H|intros unseen].
  apply preserves_bind.
  { apply preserves_when.
    apply preserves_bind; [now apply preserves_modify|intros _].
    apply preserves_lift_bind; intros id _.
    apply preserves_lift_bind; intros fn _.
    apply preserves_lift_bind; intros name _.
    now apply preserves_modify. }
  intros _. apply preserves_lift_bind; intros fn _.
  apply preserves_lift_bind; intros arguments _.
  apply preserves_lift_bind; intros newLength _.
  apply preserves_bind; [intros st H; exact H|intros oldLength].
  destruct (JS.gt newLength oldLength); [|apply preserves_ret].
  apply preserves_lift_bind; intros deltaText _.
  apply preserves_bind; [now apply preserves_modify|intros _].
  now apply preserves_modify.
Qed.

Lemma tool_calls_loop_usage :
  forall u toolCalls,
    preserves (fun st => usage st = u) (tool_calls_loop toolCalls).
Proof.
  intros u toolCalls; induction toolCalls as [|tc tcs IH]; intros st H;
    [exact H|].
  simpl. destruct (connectionClosed st); [exact H|].
  apply (preserves_bind _ _ (fun st => usage st = u));
    [apply handle_tool_call_usage|intros _; exact IH|exact H].
Qed.

Lemma open_text_block_usage :
  forall st, usage (fst (open_text_block st)) = usage st.
Proof.
  intros st. unfold open_text_block. now destruct (textBlockStarted st).
Qed.

Lemma frame_body_usage :
  forall f st,
    nullish f = false ->
    usage (fst (frame_body f st))
    = if JS.truthy (JS.get_opt f "usage") then JS.get_opt f "usage"
      else usage st.
Proof.
  intros f st Hn. rewrite (frame_body_unfold f st Hn). cbv zeta.
  set (st1 := if JS.truthy (JS.get_opt f "usage")
              then set_usage (JS.get_opt f "usage") st else st).
  assert (H1 : usage st1
               = if JS.truthy (JS.get_opt f "usage")
                 then JS.get_opt f "usage" else usage st)
    by (unfold st1; now destruct (JS.truthy (JS.get_opt f "usage"))).
  rewrite <- H1.
  destruct (JS.truthy (delta_of f)
            && JS.truthy (JS.get_opt (delta_of f) "tool_calls")
            && negb (connectionClosed st1)).
  { destruct (JS.iterate "delta.tool_calls"
                (JS.get_opt (delta_of f) "tool_calls")) as [l|m];
      [now apply tool_calls_loop_usage|reflexivity]. }
  destruct (JS.truthy (delta_of f)
            && JS.truthy (JS.get_opt (delta_of f) "content")
            && negb (connectionClosed st1));
    [cbn [fst]; apply open_text_block_usage|].
  destruct (JS.truthy (delta_of f)
            && JS.truthy (JS.get_opt (delta_of f) "reasoning")
            && negb (connectionClosed st1));
    [cbn [fst]; apply open_text_block_usage|reflexivity].
Qed.

Lemma sendSuccessMessage_usage :
  forall st, usage (sendSuccessMessage p rnd st) = usage st.
Proof.
  intros st. unfold sendSuccessMessage.
  destruct (isSucceeded st || Raw.sent (raw st) || connectionClosed st
            || hasStartedStreaming st); [reflexivity|].
  cbv zeta.
  now destruct (Raw.writeHead _ 200 sse_headers).
Qed.

(** A data line that is not the sentinel leaves the loop going. *)
Lemma process_line_continues :
  forall st line,
    connectionClosed st = false ->
    is_data_line line = true ->
    data_of st line <> "[DONE]" ->
    process_line JSON_parse p rnd st line
    = Continue (state_of (process_line JSON_parse p rnd st line)).
Proof.
  intros st line Hc Hl Hd. rewrite process_line_data, Hl.
  unfold process_data. apply String.eqb_neq in Hd.
  rewrite Hd, taken_open, Hc.
  destruct (bindM (lift (JSON_parse (data_of st line)))
              (fun parsed => handle_frame p rnd parsed) (taken st))
    as [st1 [u|m]]; [reflexivity|].
  now destruct (looks_truncated m).
Qed.

(** X19.  A frame without an error that reports a usage replaces the
    usage kept so far, whatever else the frame holds and whether or not
    the rest of the frame fails; a frame that reports none leaves it as it
    is.  When the sentinel follows the frame, in a state reached by the
    read loop, with the connection open, no line pending and a usage kept,
    the handler returns after writing the stops of the open blocks, a
    message_delta whose output tokens are the completion_tokens of that
    usage, the message_stop and the end of the response. *)
Theorem usage_last_wins :
  forall st line f,
    connectionClosed st = false ->
    is_data_line line = true ->
    data_of st line <> "[DONE]" ->
    JSON_parse (data_of st line) = Ok f ->
    nullish f = false ->
    JS.truthy (JS.get_opt f "error") = false ->
    let st' := state_of (process_line JSON_parse p rnd st line) in
    usage st'
    = (if JS.truthy (JS.get_opt f "usage") then JS.get_opt f "usage"
       else usage st)
    /\ (forall done,
           reachable JSON_parse p rnd st ->
           is_done_line done = true ->
           connectionClosed st' = false ->
           incompleteDataLine st' = "" ->
           JS.truthy (usage st') = true ->
           process_lines JSON_parse p rnd st [line; done]
           = Return
               (set_raw
                  (mkSocket false true true
                     (written (raw st') ++ stops st'
                      ++ [WriteSSE "message_delta"
                            (message_delta
                               (if encounteredToolCall st' then "tool_use"
                                else "end_turn")
                               (JS.get_opt (usage st') "completion_tokens"));
                          WriteSSE "message_stop" message_stop;
                          EndResponse]))
                  st')).
Proof.
  intros st line f Hc Hl Hd Hp Hn He st'.
  assert (H : usage st'
              = if JS.truthy (JS.get_opt f "usage")
                then JS.get_opt f "usage" else usage st).
  { unfold st'. rewrite process_line_data, Hl. unfold process_data.
    rewrite (proj2 (String.eqb_neq _ _) Hd), taken_open, Hc.
    unfold bindM, lift. rewrite Hp, handle_frame_unfold.
    rewrite (get_defined f "error" Hn), He.
    pose proof (frame_body_usage f
                  (if negb (isStreamingStarted (taken st))
                      && negb (connectionClosed (taken st))
                   then sendSuccessMessage p rnd (taken st) else taken st)
                  Hn) as Hu.
    assert (Ht : usage
                   (if negb (isStreamingStarted (taken st))
                       && negb (connectionClosed (taken st))
                    then sendSuccessMessage p rnd (taken st) else taken st)
                 = usage st).
    { assert (usage (taken st) = usage st)
        by (unfold taken;
            now destruct (negb (String.eqb (incompleteDataLine st) ""))).
      destruct (negb (isStreamingStarted (taken st))
                && negb (connectionClosed (taken st)));
        [now rewrite sendSuccessMessage_usage|assumption]. }
    rewrite Ht in Hu.
    destruct (frame_body f _) as [st2 [[]|m]]; cbn [fst] in Hu;
      [exact Hu|].
    now destruct (looks_truncated m). }
  split; [exact H|].
  intros done Hr Hdone Hc' Hi' Hu.
  pose proof (process_line_continues st line Hc Hl Hd) as Hline.
  fold st' in Hline.
  assert (Hwf : wf p rnd st').
  { apply (process_line_wf JSON_parse p rnd st line); try assumption.
    now apply (reachable_wf JSON_parse). }
  destruct (wf_socket_open p rnd st' Hwf Hc') as [Hdes Hend].
  cbn [process_lines]. rewrite Hc, Hline, Hc'.
  rewrite process_line_done by assumption.
  rewrite finalize_open by assumption.
  unfold final_events. now rewrite Hu.
Qed.

End Frames.

(** *** Tool blocks *)
Section Tools.

Variable JSON_parse : string -> result value.
Variable p : openai_payload.
Variable rnd : string.

Lemma opens_of_app :
  forall k t1 t2,
    opens_of k (t1 ++ t2) = (opens_of k t1 + opens_of k t2)%nat.
Proof.
  intros k t1 t2. unfold opens_of. now rewrite filter_app, length_app.
Qed.

Lemma has_set_mono :
  forall k k' v props,
    JS.has k props = true -> JS.has k (JS.set k' v props) = true.
Proof.
  intros k k' v props H. unfold JS.set.
  destruct (String.eqb k' "__proto__"); [exact H|].
  apply has_In. apply has_In in H.
  destruct (JS.has k' props).
  - now rewrite keys_update.
  - apply In_keys_insert. now right.
Qed.

Lemma has_set_same :
  forall k v props,
    JS.has k JS.inherited = false -> JS.has k (JS.set k v props) = true.
Proof.
  intros k v props Hk. unfold JS.set. rewrite (not_inherited_proto k Hk).
  destruct (JS.has k props) eqn:E.
  - apply has_In. rewrite keys_update. now apply has_In.
  - apply has_In, In_keys_insert. now left.
Qed.

Lemma has_strings_lookup :
  forall k props,
    Forall (fun kv => JS.is_string (snd kv) = true) props ->
    JS.has k props = true -> JS.lookup k props <> VUndef.
Proof.
  intros k props H; induction H as [|[k' v'] props Hx Hp IH]; simpl;
    [discriminate|].
  destruct (String.eqb k k'); simpl; [|exact IH].
  intros _ E. rewrite E in Hx. discriminate Hx.
Qed.

Lemma opened_once_set :
  forall st k v,
    opened_once st ->
    opened_once
      (set_toolCallAccumulators (JS.set k v (toolCallAccumulators st)) st).
Proof.
  intros st k v H k0. specialize (H k0).
  replace (written (raw (set_toolCallAccumulators
                           (JS.set k v (toolCallAccumulators st)) st)))
    with (written (raw st)) by (now destruct st).
  replace (toolCallAccumulators
             (set_toolCallAccumulators
                (JS.set k v (toolCallAccumulators st)) st))
    with (JS.set k v (toolCallAccumulators st)) by (now destruct st).
  destruct (JS.has k0 (toolCallAccumulators st)) eqn:E.
  - now rewrite (has_set_mono k0 k v _ E).
  - destruct (JS.has k0 (JS.set k v (toolCallAccumulators st))); lia.
Qed.

Lemma opened_once_send :
  forall st event data,
    opened_tool (WriteSSE event data) = None ->
    opened_once st -> opened_once (send event data st).
Proof.
  intros st event data Hn H.
  destruct (send_cases st event data) as [->|(_ & _ & ->)]; [exact H|].
  intros k. specialize (H k). cbn [raw set_raw written].
  replace (toolCallAccumulators (set_raw _ st))
    with (toolCallAccumulators st) by (now destruct st).
  rewrite opens_of_app. unfold opens_of at 2. cbn [filter]. unfold opens.
  rewrite Hn. cbn [List.length]. lia.
Qed.

Lemma keeps_bind :
  forall (A B : Type) (I : state -> Prop) (c : M A) (k : A -> M B) st,
    I (fst (c st)) -> (forall a, preserves I (k a)) ->
    I (fst (bindM c k st)).
Proof.
  intros A B I c k st Hc Hk. unfold bindM.
  destruct (c st) as [st' [a|m]]; simpl in *; [now apply Hk|exact Hc].
Qed.

Lemma undefined_at_fresh :
  forall k props,
    Forall (fun kv => JS.is_string (snd kv) = true) props ->
    JS.undefined_at k props = true ->
    JS.has k props = false /\ JS.has k JS.inherited = false.
Proof.
  intros k props Hs H. unfold JS.undefined_at in H.
  destruct (JS.has k props) eqn:E.
  - pose proof (has_strings_lookup k props Hs E) as Hl.
    destruct (JS.lookup k props); try discriminate H. now elim Hl.
  - split; [reflexivity|]. now apply negb_true_iff.
Qed.

Lemma opened_once_start :
  forall st idx id name,
    JS.has (JS.toString idx) (toolCallAccumulators st) = false ->
    JS.has (JS.toString idx) JS.inherited = false ->
    opened_once st ->
    opened_once
      (send "content_block_start" (tool_block_start idx id name)
         (set_toolCallAccumulators
            (JS.set (JS.toString idx) (VStr "") (toolCallAccumulators st))
            st)).
Proof.
  intros st idx id name Hf Hi H.
  pose proof (opened_once_set st (JS.toString idx) (VStr "") H) as H1.
  destruct (send_cases
              (set_toolCallAccumulators
                 (JS.set (JS.toString idx) (VStr "")
                    (toolCallAccumulators st)) st)
              "content_block_start" (tool_block_start idx id name))
    as [->|(_ & _ & ->)]; [exact H1|].
  intros k. specialize (H1 k). specialize (H k).
  destruct st as [r a1 a2 a3 a4 a5 a6 a7 a8 a9 accs a11]; simpl in *.
  rewrite opens_of_app. unfold opens_of at 2. cbn [filter].
  change (opens k (WriteSSE "content_block_start"
                     (tool_block_start idx id name)))
    with (String.eqb (JS.toString idx) k).
  destruct (String.eqb (JS.toString idx) k) eqn:E; cbn [List.length];
    [|lia].
  apply String.eqb_eq in E. subst k. rewrite Hf in H.
  rewrite (has_set_same _ (VStr "") accs Hi). lia.
Qed.

Lemma handle_tool_call_opens :
  forall toolCall st,
    Forall (fun kv => JS.is_string (snd kv) = true)
      (toolCallAccumulators st) ->
    opened_once st -> opened_once (fst (handle_tool_call toolCall st)).
Proof.
  intros tc st Hs HI. unfold handle_tool_call.
  assert (HI0 : opened_once (set_encounteredToolCall true st))
    by (now destruct st).
  assert (Hs0 : Forall (fun kv => JS.is_string (snd kv) = true)
                  (toolCallAccumulators (set_encounteredToolCall true st)))
    by (now destruct st).
  unfold bindM at 1, modify at 1. cbv beta iota.
  revert HI0 Hs0. generalize (set_encounteredToolCall true st).
  clear st Hs HI. intros st HI Hs.
  unfold bindM at 1, lift at 1.
  destruct (JS.get tc "index") as [idx|m]; [|exact HI].
  unfold bindM at 1. cbv beta iota.
  apply keeps_bind.
  - destruct (JS.undefined_at (JS.toString idx) (toolCallAccumulators st))
      eqn:Hu; [|exact HI].
    destruct (undefined_at_fresh _ _ Hs Hu) as [Hf Hi].
    unfold when, bindM, modify, lift, emit.
    pose proof (opened_once_set st (JS.toString idx) (VStr "") HI) as H1.
    destruct (JS.get tc "id") as [id|m]; [|exact H1].
    destruct (JS.get tc "function") as [fn|m]; [|exact H1].
    destruct (JS.get fn "name") as [name|m]; [|exact H1].
    now apply opened_once_start.
  - intros _. apply preserves_lift_bind; intros fn _.
    apply preserves_lift_bind; intros arguments _.
    apply preserves_lift_bind; intros newLength _.
    apply preserves_bind; [intros s H; exact H|intros oldLength].
    destruct (JS.gt newLength oldLength); [|apply preserves_ret].
    apply preserves_lift_bind; intros deltaText _.
    apply preserves_bind.
    + apply preserves_modify. intros s H.
      now apply opened_once_send.
    + intros _. apply preserves_modify. intros s H.
      now apply opened_once_set.
Qed.

Lemma opens_of_stops : forall k st, opens_of k (stops st) = O.
Proof.
  intros k st. unfold stops. destruct (encounteredToolCall st).
  - induction (JS.keys (toolCallAccumulators st)) as [|x l IH];
      [reflexivity|exact IH].
  - now destruct (textBlockStarted st).
Qed.

(** The read loop opens no tool block twice. *)
Lemma read_loop_opens :
  forall closed reads k,
    (opens_of k
       (written
          (raw (end_state
                  (stream_response JSON_parse p rnd (after_fetch closed)
                     reads))))
     <= 1)%nat.
Proof.
  intros closed reads k. unfold stream_response.
  pose proof (read_loop_keeps JSON_parse p rnd opened_once) as H.
  specialize (H (fun st u HI => ltac:(now destruct st))).
  specialize (H (fun st HI => ltac:(now destruct st))).
  specialize (H (fun st s HI => ltac:(now destruct st))).
  specialize (H (fun st s HI => ltac:(now destruct st))).
  specialize (H (fun st s HI => ltac:(now destruct st))).
  assert (Hsend : forall st event data,
             text_event event data -> opened_once st ->
             opened_once (send event data st))
    by (intros st event data He; apply opened_once_send; now destruct He).
  specialize (H Hsend).
  assert (Htool : forall toolCall st,
             streaming p rnd st -> opened_once st ->
             opened_once (fst (handle_tool_call toolCall st)))
    by (intros tc st [Hwf _]; apply handle_tool_call_opens;
        apply (wf_strings p rnd st Hwf)).
  specialize (H Htool).
  assert (Hhead : forall st,
             written (raw st) = [] -> opened_once st ->
             opened_once
               (set_raw (mkSocket false false true (header_block p rnd))
                  (set_hasStartedStreaming true
                     (set_isStreamingStarted true
                        (set_isSucceeded true st)))))
    by (intros st _ _ k0;
        destruct st as [r a1 a2 a3 a4 a5 a6 a7 a8 a9 accs a11];
        change (0 <= if JS.has k0 accs then 1 else 0)%nat;
        destruct (JS.has k0 accs); lia).
  specialize (H Hhead (fun st HI => ltac:(now destruct st))).
  specialize (H reads (after_fetch closed) ""
                (after_fetch_wf JSON_parse p rnd closed)).
  assert (H0 : opened_once (after_fetch closed))
    by (intros k0; now destruct closed).
  specialize (H H0).
  destruct (read_loop JSON_parse p rnd (after_fetch closed) "" reads)
    as [st|st|st m]; cbn [end_state].
  - destruct H as [Hwf HI]. specialize (HI k).
    assert (Hk : (opens_of k (written (raw st)) <= 1)%nat)
      by (destruct (JS.has k (toolCallAccumulators st)); lia).
    destruct (connectionClosed st); cbn [negb]; [exact Hk|].
    unfold Raw.end_. rewrite (wf_open p rnd st Hwf).
    destruct st as [r a1 a2 a3 a4 a5 a6 a7 a8 a9 accs a11].
    cbn [raw set_raw written] in *.
    rewrite opens_of_app. cbn. lia.
  - destruct H as (st1 & Hwf & HI & Hc & ->). specialize (HI k).
    destruct (wf_socket_open p rnd st1 Hwf Hc) as [Hd He].
    rewrite finalize_open by assumption.
    pose proof (opens_of_stops k st1) as Hstops.
    assert (Hfinal : opens_of k (final_events st1) = O) by reflexivity.
    destruct st1 as [r a1 a2 a3 a4 a5 a6 a7 a8 a9 accs a11].
    cbn [raw set_raw written toolCallAccumulators] in *.
    rewrite !opens_of_app, Hstops, Hfinal.
    destruct (JS.has k accs); lia.
  - destruct H as [Hwf HI]. specialize (HI k).
    destruct (JS.has k (toolCallAccumulators st)); lia.
Qed.

End Tools.

Section ToolAnswers.

Variable JSON_parse : string -> result value.
Variable JSON_stringify : value -> value.
Variable cfg : config.

(** X20.  Whatever the request and whatever upstream
    sends, the handler opens no tool block twice: for every index, the
    trace holds at most one content_block_start of a tool_use block with
    that index, where two indices are the same when they name the same
    property of the accumulators. *)
Theorem tool_block_opened_once :
  forall payload env k,
    (opens_of k
       (written (fst (handler JSON_parse JSON_stringify cfg payload env)))
     <= 1)%nat.
Proof.
  intros payload env k.
  destruct (handler_cases JSON_parse JSON_stringify cfg payload env)
    as [(m & _ & ->)|(q & _ & [(st & a & -> & Hw & _ & _)
                               |(status & body & _ & _ & ->)])].
  - rewrite on_error_raw. cbn. lia.
  - cbn [fst]. rewrite Hw. cbn. lia.
  - pose proof (read_loop_opens JSON_parse q (randomSuffix env)
                  (closedEarly env) body k) as H.
    destruct (stream_response JSON_parse q (randomSuffix env)
                (after_fetch (closedEarly env)) body) as [st|st|st m];
      cbn [end_state] in H; rewrite ?on_error_raw; exact H.
Qed.

End ToolAnswers.

(** The sample stream of tool calls opens the block of index 0, and no
    block of index 1. *)
Lemma tool_blocks_of_sample :
  opens_of "0"
    (written
       (fst (handler (sample_parse tool_frames) sample_stringify
               sample_config streaming_request
               (mkEnv (Response true 200 (map (Chunk false) tool_chunks))
                  false "r"))))
  = 1%nat
  /\ opens_of "1"
       (written
          (fst (handler (sample_parse tool_frames) sample_stringify
                  sample_config streaming_request
                  (mkEnv (Response true 200 (map (Chunk false) tool_chunks))
                     false "r"))))
     = 0%nat.
Proof. split; reflexivity. Qed.

(** *** The schema sanitizer *)
Section ValueInd.

Variable P : value -> Prop.
Hypothesis P_undef : P VUndef.
Hypothesis P_null : P VNull.
Hypothesis P_bool : forall b, P (VBool b).
Hypothesis P_num : forall n, P (VNum n).
Hypothesis P_nan : P VNaN.
Hypothesis P_str : forall s, P (VStr s).
Hypothesis P_arr : forall l, Forall P l -> P (VArr l).
Hypothesis P_obj :
  forall props, Forall (fun kv => P (snd kv)) props -> P (VObj props).

Lemma value_nested_ind : forall v, P v.
Proof.
  fix IH 1. intros [| |b|n| |s|l|props].
  - exact P_undef.
  - exact P_null.
  - apply P_bool.
  - apply P_num.
  - exact P_nan.
  - apply P_str.
  - apply P_arr. induction l as [|x l IHl]; constructor;
      [apply IH|exact IHl].
  - apply P_obj. induction props as [|[k x] props IHp]; constructor;
      [apply IH|exact IHp].
Qed.

End ValueInd.

Section Schemas.

Lemma insert_end :
  forall k v props,
    forallb (stays_before k) (JS.keys props) = true ->
    JS.insert k v props = props ++ [(k, v)].
Proof.
  intros k v props; induction props as [|[k' v'] props IH]; intros H;
    [reflexivity|].
  cbn [JS.keys map fst forallb] in H. apply andb_prop in H as [H1 H2].
  cbn [JS.insert app]. unfold stays_before in H1.
  destruct (JS.array_index k) as [n|], (JS.array_index k') as [n'|];
    try discriminate H1.
  - apply negb_true_iff in H1. rewrite H1. now rewrite (IH H2).
  - now rewrite (IH H2).
  - now rewrite (IH H2).
Qed.

Lemma has_existsb :
  forall k props,
    JS.has k props = existsb (String.eqb k) (JS.keys props).
Proof.
  intros k props; induction props as [|[k' v'] props IH]; [reflexivity|].
  cbn. now rewrite IH.
Qed.

Lemma keys_app :
  forall a b, JS.keys (a ++ b) = JS.keys a ++ JS.keys b.
Proof. intros a b. unfold JS.keys. apply map_app. Qed.

(** Assigning the properties of an object one by one, in the order of
    their enumeration, to an object that holds the ones before them
    rebuilds the object. *)
Lemma fold_left_rebuild :
  forall (f : list (string * value) -> string * value
              -> list (string * value)) props acc,
    (forall r kv, In kv props -> f r kv = JS.set (fst kv) (snd kv) r) ->
    own_names_after (JS.keys acc) (JS.keys props) = true ->
    fold_left f props acc = acc ++ props.
Proof.
  intros f props; induction props as [|[k v] props IH]; intros acc Hf H.
  - now rewrite app_nil_r.
  - cbn [JS.keys map fst own_names_after] in H.
    apply andb_prop in H as [H H4]. apply andb_prop in H as [H H3].
    apply andb_prop in H as [H1 H2].
    apply negb_true_iff in H1, H2.
    cbn [fold_left]. rewrite (Hf acc (k, v)) by now left.
    cbn [fst snd]. unfold JS.set. rewrite H1, has_existsb, H2.
    rewrite (insert_end k v acc H3).
    rewrite IH.
    + now rewrite <- app_assoc.
    + intros r kv Hin. apply Hf. now right.
    + rewrite keys_app. exact H4.
Qed.

Lemma forallb_In :
  forall (A : Type) (f : A -> bool) l x,
    forallb f l = true -> In x l -> f x = true.
Proof. intros A f l x H Hin. now apply (proj1 (forallb_forall f l) H). Qed.

Lemma Forall_In :
  forall (A : Type) (P : A -> Prop) l x, Forall P l -> In x l -> P x.
Proof. intros A P l x H Hin. now apply (proj1 (Forall_forall P l) H). Qed.

Lemma removeUriFormat_plain :
  forall v,
    enumerable v = true ->
    (uri_free v = true -> Schema.removeUriFormat v = v)
    /\ (forall ps,
           v = VObj ps ->
           forallb (fun pkv => match pkv with (_, pv) => uri_free pv end) ps
           = true ->
           keeps_properties ps).
Proof.
  induction v as [| |b|n| |s|l IH|props IH] using value_nested_ind;
    intros He; (split; [intros Hu|intros ps E; try discriminate E]);
    try reflexivity.
  - cbn [Schema.removeUriFormat]. f_equal.
    cbn [enumerable uri_free] in He, Hu.
    induction l as [|x l IHl]; [reflexivity|].
    cbn [forallb] in He, Hu. apply andb_prop in He as [He1 He2].
    apply andb_prop in Hu as [Hu1 Hu2].
    inversion IH as [|? ? Hx Hl]; subst. cbn [map].
    rewrite (proj1 (Hx He1) Hu1). f_equal. now apply IHl.
  - cbn [enumerable] in He. apply andb_prop in He as [Ho He].
    cbn [uri_free] in Hu. apply andb_prop in Hu as [Hc Hu].
    apply negb_true_iff in Hc.
    cbn [Schema.removeUriFormat]. rewrite Hc. f_equal.
    apply fold_left_rebuild; [|exact Ho].
    intros r [key x] Hin. cbn [fst snd].
    pose proof (Forall_In _ _ _ _ IH Hin) as Hx. cbn [snd] in Hx.
    pose proof (forallb_In _ _ _ _ He Hin) as Hex. cbv beta iota in Hex.
    pose proof (forallb_In _ _ _ _ Hu Hin) as Hux. cbv beta iota in Hux.
    destruct (Hx Hex) as [Hx1 Hx2].
    destruct (String.eqb key "properties") eqn:Ek.
    + destruct x as [| |b|n| |s|l|ps]; try discriminate Hux;
        cbn [andb JS.is_object]; rewrite ?andb_false_r;
        try reflexivity.
      now rewrite (Hx2 ps eq_refl Hux).
    + cbn [andb]. pose proof (Hx1 Hux) as Hr.
      destruct (String.eqb key "items" && JS.is_object x);
        [now rewrite Hr|].
      destruct (String.eqb key "additionalProperties" && JS.is_object x);
        [now rewrite Hr|].
      destruct x as [| |b|n| |s|l|ps]; try (now rewrite Hr).
      destruct (String.eqb key "anyOf" || String.eqb key "allOf"
                || String.eqb key "oneOf"); [|now rewrite Hr].
      cbn [Schema.removeUriFormat] in Hr. now rewrite Hr.
  - injection E as <-. intros Hu. unfold keeps_properties.
    cbn [enumerable] in He. apply andb_prop in He as [Ho He].
    apply fold_left_rebuild; [|exact Ho].
    intros r [key x] Hin. cbn [fst snd].
    pose proof (Forall_In _ _ _ _ IH Hin) as Hx. cbn [snd] in Hx.
    pose proof (forallb_In _ _ _ _ He Hin) as Hex. cbv beta iota in Hex.
    pose proof (forallb_In _ _ _ _ Hu Hin) as Hux. cbv beta iota in Hux.
    now rewrite (proj1 (Hx Hex) Hux).
Qed.

(** X21.  The sanitizer returns a schema in
    which it finds no string with the format uri as it is: same members,
    same order, same values, at every depth. *)
Theorem schema_without_uri_unchanged :
  forall schema,
    enumerable schema = true -> uri_free schema = true ->
    Schema.removeUriFormat schema = schema.
Proof.
  intros schema He Hu. now apply (proj1 (removeUriFormat_plain schema He)).
Qed.

Lemma fold_left_pointwise :
  forall (A B : Type) (f g : A -> B -> A) l a,
    (forall r x, f r x = g r x) -> fold_left f l a = fold_left g l a.
Proof.
  intros A B f g l; induction l as [|x l IH]; intros a H; [reflexivity|].
  cbn [fold_left]. rewrite H. now apply IH.
Qed.

(** The sanitizer on an object, member by member. *)
Lemma removeUriFormat_object :
  forall props,
    Schema.removeUriFormat (VObj props)
    = if JS.str_eq (JS.lookup "type" props) "string"
         && JS.str_eq (JS.lookup "format" props) "uri"
      then VObj (JS.without "format" props)
      else
        VObj
          (fold_left
             (fun r kv =>
                JS.set (fst kv) (sanitized_member (fst kv) (snd kv)) r)
             props []).
Proof.
  intros props. cbn [Schema.removeUriFormat].
  destruct (JS.str_eq (JS.lookup "type" props) "string"
            && JS.str_eq (JS.lookup "format" props) "uri"); [reflexivity|].
  f_equal. apply fold_left_pointwise. intros r [key x]. cbn [fst snd].
  unfold sanitized_member.
  destruct (String.eqb key "properties" && JS.is_object x); [reflexivity|].
  destruct (String.eqb key "items" && JS.is_object x); [reflexivity|].
  destruct (String.eqb key "additionalProperties" && JS.is_object x);
    [reflexivity|].
  destruct x as [| |b|n| |s|l|ps]; try reflexivity.
  now destruct (String.eqb key "anyOf" || String.eqb key "allOf"
                || String.eqb key "oneOf").
Qed.

Lemma fold_left_map :
  forall (h : string * value -> value) props acc,
    own_names_after (JS.keys acc) (JS.keys props) = true ->
    fold_left (fun r kv => JS.set (fst kv) (h kv) r) props acc
    = acc ++ map (fun kv => (fst kv, h kv)) props.
Proof.
  intros h props; induction props as [|[k v] props IH]; intros acc H.
  - now rewrite app_nil_r.
  - cbn [JS.keys map fst own_names_after] in H.
    apply andb_prop in H as [H H4]. apply andb_prop in H as [H H3].
    apply andb_prop in H as [H1 H2].
    apply negb_true_iff in H1, H2.
    cbn [fold_left map fst]. unfold JS.set at 2.
    rewrite H1, has_existsb, H2, (insert_end k _ acc H3), IH.
    + now rewrite <- app_assoc.
    + rewrite keys_app. exact H4.
Qed.

Lemma keys_map :
  forall (h : string * value -> value) props,
    JS.keys (map (fun kv => (fst kv, h kv)) props) = JS.keys props.
Proof.
  intros h props. unfold JS.keys. rewrite map_map. now apply map_ext.
Qed.

Lemma str_eq_removeUriFormat :
  forall x lit,
    JS.str_eq (Schema.removeUriFormat x) lit = JS.str_eq x lit.
Proof.
  intros [| |b|n| |t|l|ps] lit; try reflexivity.
  rewrite removeUriFormat_object.
  now destruct (JS.str_eq (JS.lookup "type" ps) "string"
                && JS.str_eq (JS.lookup "format" ps) "uri").
Qed.

Lemma str_eq_member :
  forall key x lit, JS.str_eq (sanitized_member key x) lit = JS.str_eq x lit.
Proof.
  intros key x lit. unfold sanitized_member.
  destruct (String.eqb key "properties" && JS.is_object x) eqn:E;
    [|apply str_eq_removeUriFormat].
  apply andb_prop in E as [_ E]. now destruct x.
Qed.

Lemma str_eq_lookup_map :
  forall k lit props,
    JS.str_eq
      (JS.lookup k
         (map (fun kv => (fst kv, sanitized_member (fst kv) (snd kv)))
            props)) lit
    = JS.str_eq (JS.lookup k props) lit.
Proof.
  intros k lit props; induction props as [|[k' x] props IH];
    [reflexivity|].
  cbn [map fst snd JS.lookup]. destruct (String.eqb k k'); [|exact IH].
  apply str_eq_member.
Qed.

Lemma properties_map :
  forall ps,
    own_names (JS.keys ps) = true ->
    fold_left
      (fun r pkv =>
         match pkv with
         | (propKey, pv) => JS.set propKey (Schema.removeUriFormat pv) r
         end) ps []
    = map (fun pkv => (fst pkv, Schema.removeUriFormat (snd pkv))) ps.
Proof.
  intros ps H.
  change (map (fun pkv => (fst pkv, Schema.removeUriFormat (snd pkv))) ps)
    with ([] ++ map (fun pkv => (fst pkv, Schema.removeUriFormat (snd pkv)))
                  ps).
  rewrite <- (fold_left_map (fun pkv => Schema.removeUriFormat (snd pkv))
                ps [] H).
  apply fold_left_pointwise. now intros r [k x].
Qed.

Lemma forallb_map_In :
  forall (A B : Type) (f : B -> bool) (g : A -> B) l,
    (forall x, In x l -> f (g x) = true) -> forallb f (map g l) = true.
Proof.
  intros A B f g l H. apply forallb_forall. intros y Hy.
  apply in_map_iff in Hy as (x & <- & Hx). now apply H.
Qed.

Lemma forallb_without :
  forall (f g : string * value -> bool) k props,
    (forall kv, In kv props -> f kv = true -> g kv = true) ->
    forallb f props = true -> forallb g (JS.without k props) = true.
Proof.
  intros f g k props H Hf. apply forallb_forall. intros kv Hin.
  unfold JS.without in Hin. apply filter_In in Hin as [Hin _].
  apply H; [exact Hin|]. now apply (forallb_In _ f props).
Qed.

Lemma own_names_after_incl :
  forall (keep : string -> bool) names seen seen',
    incl seen' seen ->
    own_names_after seen names = true ->
    own_names_after seen' (filter keep names) = true.
Proof.
  intros keep names; induction names as [|k names IH];
    intros seen seen' Hi H; [reflexivity|].
  cbn [own_names_after] in H.
  apply andb_prop in H as [H H4]. apply andb_prop in H as [H H3].
  apply andb_prop in H as [H1 H2].
  cbn [filter]. destruct (keep k).
  - cbn [own_names_after]. rewrite H1. cbn [andb].
    assert (E2 : negb (existsb (String.eqb k) seen') = true).
    { apply negb_true_iff. apply negb_true_iff in H2.
      destruct (existsb (String.eqb k) seen') eqn:E; [|reflexivity].
      apply existsb_exists in E as (x & Hx & Ex).
      rewrite <- H2. symmetry. apply existsb_exists. exists x.
      split; [now apply Hi|exact Ex]. }
    rewrite E2. cbn [andb].
    assert (E3 : forallb (stays_before k) seen' = true).
    { apply forallb_forall. intros x Hx.
      apply (forallb_In _ _ seen); [exact H3|now apply Hi]. }
    rewrite E3. cbn [andb].
    apply (IH (seen ++ [k])); [|exact H4].
    now apply incl_app_app.
  - apply (IH (seen ++ [k])); [|exact H4].
    now apply incl_appl.
Qed.

Lemma keys_without :
  forall k props,
    JS.keys (JS.without k props)
    = filter (fun x => negb (String.eqb x k)) (JS.keys props).
Proof.
  intros k props. unfold JS.without, JS.keys.
  induction props as [|[k' v] props IH]; [reflexivity|].
  cbn [filter map fst]. destruct (negb (String.eqb k' k)); cbn [map fst];
    now rewrite IH.
Qed.

(** What the sanitizer makes of a schema whose uri strings hold no
    schemas. *)
Lemma removeUriFormat_flat :
  forall v,
    enumerable v = true ->
    (flat v = true ->
     uri_free (Schema.removeUriFormat v) = true
     /\ enumerable (Schema.removeUriFormat v) = true)
    /\ (forall ps,
           v = VObj ps ->
           forallb (fun pkv => match pkv with (_, pv) => flat pv end) ps
           = true ->
           forallb (fun pkv => match pkv with (_, pv) => uri_free pv end)
             (map (fun pkv => (fst pkv, Schema.removeUriFormat (snd pkv)))
                ps)
           = true
           /\ forallb
                (fun pkv => match pkv with (_, pv) => enumerable pv end)
                (map (fun pkv => (fst pkv, Schema.removeUriFormat (snd pkv)))
                   ps)
              = true).
Proof.
  induction v as [| |b|n| |s|l IH|props IH] using value_nested_ind;
    intros He; (split; [intros Hf|intros ps E; try discriminate E]);
    try (split; reflexivity).
  - cbn [Schema.removeUriFormat uri_free enumerable].
    cbn [enumerable flat] in He, Hf.
    split; apply forallb_map_In; intros x Hx;
      apply (Forall_In _ _ _ _ IH Hx);
      solve [now apply (forallb_In _ _ l)].
  - cbn [enumerable] in He. apply andb_prop in He as [Ho He].
    cbn [flat] in Hf. rewrite removeUriFormat_object.
    destruct (JS.str_eq (JS.lookup "type" props) "string"
              && JS.str_eq (JS.lookup "format" props) "uri") eqn:Hc.
    + cbn [uri_free enumerable]. rewrite lookup_without_same.
      cbn [JS.str_eq]. rewrite andb_false_r. cbn [negb andb]. split.
      * eapply forallb_without; [|exact Hf].
        intros [key x] _ H. cbv beta iota in H.
        destruct x; try discriminate H;
          now destruct (String.eqb key "properties").
      * apply andb_true_intro. split.
        -- rewrite keys_without.
           now apply (own_names_after_incl _ _ [] [] (incl_refl _)).
        -- now apply (forallb_without _ _ _ _ (fun kv Hin H => H) He).
    + rewrite (fold_left_map
                 (fun kv => sanitized_member (fst kv) (snd kv)) props [] Ho).
      cbn [app uri_free enumerable].
      rewrite !str_eq_lookup_map, Hc, keys_map, Ho. cbn [negb andb].
      split; apply forallb_map_In; intros [key x] Hin; cbn [fst snd];
        pose proof (Forall_In _ _ _ _ IH Hin) as Hx; cbn [snd] in Hx;
        pose proof (forallb_In _ _ _ _ He Hin) as Hex;
        cbv beta iota in Hex;
        pose proof (forallb_In _ _ _ _ Hf Hin) as Hfx;
        cbv beta iota in Hfx;
        destruct (Hx Hex) as [Hx1 Hx2]; unfold sanitized_member;
        destruct (String.eqb key "properties") eqn:Ek; cbn [andb];
        try (now apply Hx1).
      * destruct x as [| |b|n| |s|l|ps]; try discriminate Hfx;
          try reflexivity.
        cbn [JS.is_object]. cbn [enumerable] in Hex.
        apply andb_prop in Hex as [Hop _].
        rewrite (properties_map ps Hop).
        now apply (Hx2 ps eq_refl Hfx).
      * destruct x as [| |b|n| |s|l|ps]; try discriminate Hfx;
          try reflexivity.
        cbn [JS.is_object]. cbn [enumerable] in Hex.
        apply andb_prop in Hex as [Hop _].
        rewrite (properties_map ps Hop). cbn [enumerable].
        rewrite keys_map, Hop. cbn [andb].
        now apply (Hx2 ps eq_refl Hfx).
  - injection E as <-. intros Hf.
    cbn [enumerable] in He. apply andb_prop in He as [Ho He].
    split; apply forallb_map_In; intros [key x] Hin; cbn [fst snd];
      pose proof (Forall_In _ _ _ _ IH Hin) as Hx; cbn [snd] in Hx;
      pose proof (forallb_In _ _ _ _ He Hin) as Hex;
      cbv beta iota in Hex;
      pose proof (forallb_In _ _ _ _ Hf Hin) as Hfx;
      cbv beta iota in Hfx;
      now apply (proj1 (Hx Hex)).
Qed.

(** X22.  When the strings with the format uri of a
    schema hold no further objects, the sanitized schema holds no string
    with the format uri at any place where the sanitizer looks for
    one. *)
Theorem uri_formats_removed :
  forall schema,
    enumerable schema = true -> flat schema = true ->
    uri_free (Schema.removeUriFormat schema) = true.
Proof.
  intros schema He Hf.
  now apply (proj1 (removeUriFormat_flat schema He)).
Qed.

(** X23.  On such a schema a second pass of the sanitizer
    changes nothing. *)
Theorem sanitizing_twice :
  forall schema,
    enumerable schema = true -> flat schema = true ->
    Schema.removeUriFormat (Schema.removeUriFormat schema)
    = Schema.removeUriFormat schema.
Proof.
  intros schema He Hf.
  destruct (proj1 (removeUriFormat_flat schema He) Hf) as [H1 H2].
  now apply (proj1 (removeUriFormat_plain _ H2)).
Qed.

End Schemas.

(** *** The command line *)
Section CommandLine.

Lemma present_key :
  forall k, Cli.present (Some k) = true -> k <> "".
Proof.
  intros k H E. subst k. discriminate H.
Qed.

(** A key that [getApiKey] returns is not empty, and it is the entry of
    the keychain unless storing it failed. *)
Lemma getApiKey_returns :
  forall opts env stored stored' printed key,
    Cli.getApiKey opts env stored = (stored', printed, Cli.Key key) ->
    key <> "" /\ (Cli.setFails env = false -> stored' = Some key).
Proof.
  intros opts env stored stored' printed key H. unfold Cli.getApiKey in H.
  destruct (if Cli.resetKey opts
            then if Cli.deleteFails env then (stored, [])
                 else (None, [Cli.Log "Stored API key has been reset."])
            else (stored, [])) as [st reset].
  destruct (Cli.present (Cli.apiKey opts)) eqn:Ea.
  - destruct (Cli.apiKey opts) as [k|]; [|discriminate Ea].
    apply present_key in Ea.
    destruct (Cli.setFails env); injection H as <- _ <-;
      (split; [exact Ea|]); [discriminate|reflexivity].
  - destruct (Cli.present (if Cli.getFails env then None else st)) eqn:Ef.
    + destruct (Cli.getFails env); [discriminate Ef|].
      destruct st as [k|]; [|discriminate Ef].
      apply present_key in Ef. injection H as <- _ <-. now split.
    + cbn [Cli.promptForApiKey] in H.
      destruct (String.eqb (Str.trim (Cli.typed env)) "") eqn:Et;
        [discriminate H|].
      apply String.eqb_neq in Et.
      destruct (Cli.setFails env); injection H as <- _ <-;
        (split; [exact Et|]); [discriminate|reflexivity].
Qed.

(** X24.  Whatever the options, the keychain and the
    answer at the prompt, a key that [getApiKey] returns is not the empty
    string: without a key the process exits. *)
Theorem api_key_never_empty :
  forall opts env stored stored' printed key,
    Cli.getApiKey opts env stored = (stored', printed, Cli.Key key) ->
    key <> "".
Proof.
  intros opts env stored stored' printed key H.
  now apply (getApiKey_returns opts env stored stored' printed key).
Qed.

(** X25.  When [getApiKey] has returned a key and
    storing did not fail, the next run without options finds that key in
    the keychain: it returns the same key, asks nothing, and leaves the
    keychain as it is, provided that reading the keychain does not
    fail. *)
Theorem stored_key_round_trip :
  forall opts env stored stored' printed key env',
    Cli.getApiKey opts env stored = (stored', printed, Cli.Key key) ->
    Cli.setFails env = false ->
    Cli.getFails env' = false ->
    Cli.getApiKey (Cli.mkOptions None false) env' stored'
    = (stored', [Cli.Log "Using stored API key from keychain."],
       Cli.Key key).
Proof.
  intros opts env stored stored' printed key env' H Hs Hg.
  destruct (getApiKey_returns opts env stored stored' printed key H)
    as [Hne Hk].
  rewrite (Hk Hs). unfold Cli.getApiKey.
  cbn [Cli.resetKey Cli.apiKey Cli.present]. rewrite Hg.
  cbn [Cli.present]. apply String.eqb_neq in Hne. rewrite Hne.
  reflexivity.
Qed.

End CommandLine.

(** ** The claims on whole streams *)

(** *** The sentinel *)
Section Sentinel.

Variable JSON_parse : string -> result value.
Variable p : openai_payload.
Variable rnd : string.





















End Sentinel.

Section SentinelAnswers.

Variable JSON_parse : string -> result value.
Variable JSON_stringify : value -> value.
Variable cfg : config.


End SentinelAnswers.

(** *** The reads *)
Section Chunks.

Variable JSON_parse : string -> result value.
Variable JSON_stringify : value -> value.
Variable cfg : config.

(** A stream of text and reasoning frames that ends without the
    sentinel. *)
Lemma piece_stream_unfinished :
  forall q rnd chunks pieces,
    piece_feeds JSON_parse (lines_of (text_of chunks)) pieces ->
    pieces <> [] ->
    stream_response JSON_parse q rnd initial_state (map (Chunk false) chunks)
    = Finished
        (set_raw
           (mkSocket false true true
              (header_block q rnd ++ block_events pieces ++ [EndResponse]))
           (after_pieces q rnd pieces)).
Proof.
  intros q rnd chunks pieces Hf Hne.
  unfold stream_response. rewrite read_loop_lines by reflexivity.
  cbn [append]. unfold run_lines.
  change initial_state with (after_pieces q rnd []).
  rewrite (piece_lines JSON_parse q rnd _ pieces Hf []). cbn [app].
  destruct pieces as [|d pieces]; [contradiction|].
  cbn [after_pieces connectionClosed negb raw]. unfold Raw.end_.
  cbn [writableEnded destroyed written]. now rewrite <- app_assoc.
Qed.

(** C3.  Re-chunking.  The handler answers and writes the same whatever
    the reads into which the bytes of the upstream body are cut.  The read
    loop processes, in their order, the complete lines of the text that
    the carry-over buffer and the reads make up, and never the piece after
    the last line feed.  So a stream of text and reasoning frames that
    ends without the sentinel, however it is cut, gives the header block,
    the start of the text block, one delta for each frame and the end of
    the response; such is the frame cut in the middle of its JSON
    text. *)
Theorem C3_rechunking :
  (forall payload ok status closed rnd chunks1 chunks2,
      text_of chunks1 = text_of chunks2 ->
      handler JSON_parse JSON_stringify cfg payload
        (mkEnv (Response ok status (map (Chunk false) chunks1)) closed rnd)
      = handler JSON_parse JSON_stringify cfg payload
          (mkEnv (Response ok status (map (Chunk false) chunks2)) closed rnd))
  /\ (forall q rnd st buffer chunks,
         lines_of buffer = [] ->
         read_loop JSON_parse q rnd st buffer (map (Chunk false) chunks)
         = run_lines JSON_parse q rnd st
             (lines_of (buffer ++ text_of chunks)))
  /\ (forall payload q status rnd chunks pieces,
         build_payload JSON_stringify cfg payload = Ok q ->
         stream q = true ->
         piece_feeds JSON_parse (lines_of (text_of chunks)) pieces ->
         pieces <> [] ->
         handler JSON_parse JSON_stringify cfg payload
           (mkEnv (Response true status (map (Chunk false) chunks)) false rnd)
         = (mkSocket false true true
              (header_block q rnd ++ block_events pieces ++ [EndResponse]),
            Nothing)).
Proof.
  split; [|split].
  - intros payload ok status closed rnd chunks1 chunks2 H. unfold handler.
    destruct (build_payload JSON_stringify cfg payload) as [q|m];
      [|reflexivity].
    cbn [upstream closedEarly randomSuffix].
    rewrite !read_text_quiet, H.
    now rewrite (stream_rechunking JSON_parse q rnd chunks1 chunks2).
  - intros q rnd st buffer chunks. apply read_loop_lines.
  - intros payload q status rnd chunks pieces Hq Hs Hf Hne.
    unfold handler. rewrite Hq.
    cbn [upstream closedEarly randomSuffix negb]. rewrite Hs. cbn [negb].
    now rewrite (piece_stream_unfinished q rnd chunks pieces Hf Hne).
Qed.

End Chunks.

(** ** The claims on the sample inputs *)





(** C3 on a frame cut in the middle of its JSON text. *)
Lemma C3_rechunking_witness :
  text_of split_chunks = text_of whole_chunks
  /\ handler (sample_parse [text_frame "hello"]) sample_stringify
       sample_config streaming_request
       (mkEnv (Response true 200 (map (Chunk false) split_chunks)) false "r")
     = handler (sample_parse [text_frame "hello"]) sample_stringify
         sample_config streaming_request
         (mkEnv (Response true 200 (map (Chunk false) whole_chunks)) false "r")
  /\ handler (sample_parse [text_frame "hello"]) sample_stringify
       sample_config streaming_request
       (mkEnv (Response true 200 (map (Chunk false) split_chunks)) false "r")
     = (mkSocket false true true
          (header_block sample_payload "r"
           ++ [WriteSSE "content_block_start" text_block_start;
               WriteSSE "content_block_delta" (text_delta (VStr "hello"));
               EndResponse]),
        Nothing).
Proof.
  split; [reflexivity|]. split.
  - apply (proj1 (C3_rechunking (sample_parse [text_frame "hello"])
                    sample_stringify sample_config)
             streaming_request true 200%Z false "r" split_chunks
             whole_chunks).
    reflexivity.
  - apply (proj2 (proj2 (C3_rechunking (sample_parse [text_frame "hello"])
                           sample_stringify sample_config))
             streaming_request sample_payload 200%Z "r" split_chunks
             [Content "hello"]).
    + reflexivity.
    + reflexivity.
    + change (lines_of (text_of split_chunks))
        with [data_line (text_frame "hello"); ""].
      eapply piece_feeds_frame; [reflexivity|discriminate|reflexivity
                                |reflexivity|].
      apply piece_feeds_skip; [reflexivity|]. apply piece_feeds_end.
    + discriminate.
Defined.



(** C5: a first frame that carries a role and an empty content opens the
    stream, and a stream that holds the sentinel only is answered
    without the header block. *)
Lemma C5_header_without_content :
  handler (sample_parse [role_frame]) sample_stringify sample_config
    streaming_request
    (mkEnv (Response true 200
              [Chunk false (data_line role_frame ++ line_feed ++ line_feed)])
       false "r")
  = (mkSocket false true true
       (header_block sample_payload "r" ++ [EndResponse]),
     Nothing)
  /\ handler (sample_parse []) sample_stringify sample_config
       streaming_request
       (mkEnv (Response true 200
                 [Chunk false (done_line ++ line_feed ++ line_feed)])
          false "r")
     = (mkSocket false true true done_only, Nothing).
Proof. split; vm_compute; reflexivity. Qed.

(** C5 (as amended) on the first frame of a stream. *)
Lemma C5_stream_opened_once_witness :
  exists st' tail,
    process_line (sample_parse [text_frame "hello"]) sample_payload "r"
      initial_state (data_line (text_frame "hello"))
    = Continue st'
    /\ written (raw st') = header_block sample_payload "r" ++ tail
    /\ quiet tail.
Proof.
  apply (proj2 (C5_stream_opened_once (sample_parse [text_frame "hello"])
                  sample_stringify sample_config)
           sample_payload "r" initial_state (data_line (text_frame "hello"))
           (text_frame "hello") VUndef).
  - apply reach_start.
  - reflexivity.
  - reflexivity.
  - reflexivity.
  - discriminate.
  - reflexivity.
  - reflexivity.
  - reflexivity.
Defined.

(** C7: an upstream id without the prefix is passed on unchanged. *)
Lemma C7_unprefixed_id_passes_through :
  messageId (VStr "gen-1") "k3j9x" = Ok "gen-1".
Proof. reflexivity. Qed.

(** C7 (as amended) on the ids [chatcmpl-1], [gen-1] and none. *)
Lemma C7_message_id_witness :
  messageId (VStr "chatcmpl-1") "k3j9x" = Ok "msg-1"
  /\ messageId (VStr "gen-1") "k3j9x" = Ok "gen-1"
  /\ messageId VUndef "k3j9x" = Ok "msg_k3j9x".
Proof.
  destruct (C7_message_id (sample_parse [])) as (H1 & H2 & H3 & _).
  split; [exact (H1 "-1" "k3j9x")|]. split.
  - apply H2; [discriminate|reflexivity].
  - apply H3. reflexivity.
Defined.


(** C9 on a stream that holds the sentinel only. *)
Lemma C9_done_first_witness :
  handler (sample_parse []) sample_stringify sample_config streaming_request
    (mkEnv (Response true 200
              (map (Chunk false)
                 [(line_feed ++ "data: [DO")%string;
            ("NE]" ++ line_feed ++ line_feed)%string]))
       false "r")
  = (mkSocket false true true done_only, Nothing).
Proof.
  apply (C9_done_first (sample_parse []) sample_stringify sample_config
           streaming_request sample_payload "r" 200
           [(line_feed ++ "data: [DO")%string;
            ("NE]" ++ line_feed ++ line_feed)%string]
           [""] done_line [""]).
  - reflexivity.
  - reflexivity.
  - reflexivity.
  - repeat constructor.
  - reflexivity.
Defined.

(** C10 on an upstream completion without usage. *)
Lemma C10_estimate_throws_witness :
  handler
    (sample_parse
       [bare_completion "chatcmpl-1" (VStr "hello") (VStr "stop")])
    sample_stringify sample_config tool_only_request
    (mkEnv (Response true 200
              [Chunk false
                 (to_json
                    (bare_completion "chatcmpl-1" (VStr "hello")
                       (VStr "stop")))])
       false "r")
  = (fresh_socket,
     Body 500
       (error_body "Cannot read properties of undefined (reading 'split')")).
Proof.
  apply (C10_estimate_throws
           (sample_parse
              [bare_completion "chatcmpl-1" (VStr "hello") (VStr "stop")])
           sample_stringify sample_config 200 "r"
           (to_json (bare_completion "chatcmpl-1" (VStr "hello") (VStr "stop")))
           "chatcmpl-1" (VStr "hello") (VStr "stop")).
  reflexivity.
Defined.

(** ** The further properties on sample inputs *)

(** A system prompt given as a string is not forwarded. *)
Lemma system_not_array_is_dropped_witness :
  build_messages sample_stringify (VObj string_system_request)
  = Ok [user_says "hi"].
Proof.
  rewrite (system_not_array_is_dropped sample_stringify
             string_system_request); reflexivity.
Defined.

(** The blocks of a system prompt, the empty one left out. *)
Lemma system_blocks_come_first_witness :
  build_messages sample_stringify (VObj block_system_request)
  = Ok [system_message_of "Be brief."; system_message_of "Be kind.";
        user_says "hi"].
Proof.
  rewrite (system_blocks_come_first sample_stringify block_system_request
             ["Be brief."; ""; "Be kind."]); reflexivity.
Defined.

(** A message with a text and one with no content. *)
Lemma message_without_blocks_witness :
  translate_message sample_stringify
    (VObj [("role", VStr "user"); ("content", VStr "hi"); ("name", VStr "x")])
  = Ok [user_says "hi"]
  /\ translate_message sample_stringify (VObj [("role", VStr "user")])
     = Ok [].
Proof.
  split.
  - apply (message_without_blocks sample_stringify
             (VObj [("role", VStr "user"); ("content", VStr "hi");
                    ("name", VStr "x")])
             (VStr "hi")); reflexivity.
  - apply (message_without_blocks sample_stringify
             (VObj [("role", VStr "user")]) VUndef); reflexivity.
Defined.

(** The batch tool is left out and the schema of the other is sanitized. *)
Lemma tools_without_batch_tool_witness :
  build_tools (VObj [("tools", VArr [batch_tool; weather_tool])])
  = Ok [VObj [("type", VStr "function");
              ("function",
               VObj [("name", VStr "get_weather");
                     ("description", VStr "The weather of a city");
                     ("parameters",
                      VObj [("type", VStr "object");
                            ("properties",
                             VObj [("source",
                                    VObj [("type", VStr "string")])])])])]].
Proof.
  apply (tools_without_batch_tool
           (VObj [("tools", VArr [batch_tool; weather_tool])])
           [batch_tool; weather_tool]).
  - reflexivity.
  - repeat constructor.
Defined.

(** The model and the token limit of the request are not forwarded. *)
Lemma request_fields_only_witness :
  build_payload sample_stringify sample_config verbose_request
  = Ok sample_payload.
Proof.
  assert (H : forall name,
                In name request_fields ->
                JS.get verbose_request name = JS.get streaming_request name).
  { intros name H. unfold request_fields in H. simpl in H.
    decompose [or] H; subst; try reflexivity; contradiction. }
  rewrite (proj1 (request_fields_only sample_stringify sample_config
                    verbose_request streaming_request H)).
  reflexivity.
Defined.

(** A tool use that comes back. *)
Lemma tool_use_round_trip_witness :
  (call <- tool_call_of sample_stringify tool_use_block ;;
   tool_use_of (sample_parse [VObj [("city", VStr "Lisbon")]]) call)
  = Ok tool_use_block.
Proof.
  apply (tool_use_round_trip (sample_parse [VObj [("city", VStr "Lisbon")]])
           sample_stringify tool_use_block
           (to_json (VObj [("city", VStr "Lisbon")])));
    reflexivity.
Defined.

(** The translation of a completion with a tool call. *)
Lemma response_content_blocks_witness :
  exists blocks,
    JS.get_opt tool_response "content"
    = VArr (VObj [("text", VStr "Let me check."); ("type", VStr "text")]
            :: blocks)
    /\ Forall2
         (fun call block =>
            block
            = tool_use_with (JS.get_opt call "id")
                (JS.get_opt (JS.get_opt call "function") "name")
                (JS.get_opt block "input")
            /\ sample_parse [VObj [("city", VStr "Lisbon")]]
                 (JS.toString
                    (JS.get_opt (JS.get_opt call "function") "arguments"))
               = Ok (JS.get_opt block "input"))
         [weather_call] blocks
    /\ JS.get_opt tool_response "model" = VStr "moonshotai/kimi-k2-instruct"
    /\ JS.get_opt tool_response "role" = VStr "assistant".
Proof.
  apply (response_content_blocks
           (sample_parse [VObj [("city", VStr "Lisbon")]])
           plain_payload "r" tool_completion tool_response).
  reflexivity.
Defined.

(** A reported usage and an estimated one: [hi] and [hello world]. *)
Lemma usage_reported_or_estimated_witness :
  JS.get_opt tool_response "usage"
  = VObj [("input_tokens", VNum 12); ("output_tokens", VNum 7)]
  /\ JS.get_opt estimated_response "usage"
     = VObj [("input_tokens", VNum 1); ("output_tokens", VNum 2)].
Proof.
  split.
  - apply (usage_reported_or_estimated
             (sample_parse [VObj [("city", VStr "Lisbon")]])
             plain_payload "r" tool_completion tool_response).
    reflexivity.
  - apply (usage_reported_or_estimated (sample_parse []) plain_payload "r"
             (bare_completion "chatcmpl-1" (VStr "hello world") (VStr "stop"))
             estimated_response).
    reflexivity.
Defined.

(** The stop reasons of the two translations. *)
Lemma stop_reason_of_response_witness :
  (JS.get_opt tool_response "stop_reason" = VStr "tool_use"
   /\ completion_finish tool_completion = VStr "tool_calls")
  \/ (JS.get_opt tool_response "stop_reason" = VStr "max_tokens"
      /\ completion_finish tool_completion = VStr "length")
  \/ (JS.get_opt tool_response "stop_reason" = VStr "end_turn"
      /\ completion_finish tool_completion <> VStr "tool_calls"
      /\ completion_finish tool_completion <> VStr "length").
Proof.
  apply (stop_reason_of_response
           (sample_parse [VObj [("city", VStr "Lisbon")]])
           plain_payload "r" tool_completion tool_response).
  reflexivity.
Defined.

(** An upstream answer with an error and one without choices. *)
Lemma non_streaming_answers_witness :
  handler (sample_parse [error_answer]) sample_stringify sample_config
    plain_request
    (mkEnv (Response true 200 (map (Chunk false) [to_json error_answer]))
       false "r")
  = (fresh_socket, Body 500 (error_body "model overloaded"))
  /\ handler (sample_parse [empty_answer]) sample_stringify sample_config
       plain_request
       (mkEnv (Response true 200 (map (Chunk false) [to_json empty_answer]))
          false "r")
     = (fresh_socket,
        Body 500
          (error_body
             "Cannot read properties of undefined (reading 'message')")).
Proof.
  split.
  - apply (proj1 (proj2 (proj2
             (non_streaming_answers (sample_parse [error_answer])
                sample_stringify sample_config plain_request plain_payload
                200 "r" [to_json error_answer] eq_refl eq_refl)))
             error_answer (VObj [("message", VStr "model overloaded")]));
      reflexivity.
  - apply (proj2 (proj2 (proj2
             (non_streaming_answers (sample_parse [empty_answer])
                sample_stringify sample_config plain_request plain_payload
                200 "r" [to_json empty_answer] eq_refl eq_refl)))
             empty_answer VUndef);
      reflexivity.
Defined.

(** An error answer is returned with the raw response untouched. *)
Lemma no_answer_after_write_witness :
  written
    (fst (handler (sample_parse [error_answer]) sample_stringify
            sample_config plain_request
            (mkEnv (Response true 200 [Chunk false (to_json error_answer)])
               false "r")))
  = []
  /\ writableEnded
       (fst (handler (sample_parse [error_answer]) sample_stringify
               sample_config plain_request
               (mkEnv (Response true 200
                         [Chunk false (to_json error_answer)])
                  false "r")))
     = false
  /\ headersSent
       (fst (handler (sample_parse [error_answer]) sample_stringify
               sample_config plain_request
               (mkEnv (Response true 200
                         [Chunk false (to_json error_answer)])
                  false "r")))
     = false.
Proof.
  apply (no_answer_after_write (sample_parse [error_answer])
           sample_stringify sample_config plain_request
           (mkEnv (Response true 200 [Chunk false (to_json error_answer)])
              false "r")
           500%Z (error_body "model overloaded")).
  reflexivity.
Defined.

(** A client that went away before the stream arrived. *)
Lemma nothing_after_close_witness :
  handler (sample_parse tool_frames) sample_stringify sample_config
    streaming_request
    (mkEnv (Response true 200 (map (Chunk false) tool_chunks)) true "r")
  = (mkSocket true false false [], Nothing).
Proof.
  apply (proj1 (nothing_after_close (sample_parse tool_frames)
                  sample_stringify sample_config)
           streaming_request sample_payload 200%Z
           (map (Chunk false) tool_chunks) "r");
    reflexivity.
Defined.

(** A reasoning frame, two text frames and the sentinel. *)
Lemma text_stream_witness :
  handler (sample_parse hello_frames) sample_stringify sample_config
    streaming_request
    (mkEnv (Response true 200 (map (Chunk false) hello_chunks)) false "r")
  = (mkSocket false true true
       (header_block sample_payload "r"
        ++ block_events
             [Reasoning "greet them"; Content "Hello,"; Content " world"]
        ++ block_stops
             [Reasoning "greet them"; Content "Hello,"; Content " world"]),
     Nothing).
Proof.
  apply (text_stream (sample_parse hello_frames) sample_stringify
           sample_config streaming_request sample_payload 200%Z
           hello_chunks "r" hello_lines
           [Reasoning "greet them"; Content "Hello,"; Content " world"]
           done_line [""]).
  - reflexivity.
  - reflexivity.
  - reflexivity.
  - unfold hello_lines.
    eapply piece_feeds_frame; [reflexivity|discriminate|reflexivity
                              |reflexivity|].
    apply piece_feeds_skip; [reflexivity|].
    eapply piece_feeds_frame; [reflexivity|discriminate|reflexivity
                              |reflexivity|].
    apply piece_feeds_skip; [reflexivity|].
    apply piece_feeds_skip; [reflexivity|].
    eapply piece_feeds_frame; [reflexivity|discriminate|reflexivity
                              |reflexivity|].
    apply piece_feeds_skip; [reflexivity|]. apply piece_feeds_end.
  - discriminate.
  - reflexivity.
Defined.

(** An upstream error as the first frame leaves the stream unopened. *)
Lemma error_frame_is_skipped_witness :
  process_line (sample_parse [error_answer]) sample_payload "r"
    initial_state (data_line error_answer)
  = Continue initial_state.
Proof.
  exact (error_frame_is_skipped (sample_parse [error_answer])
           sample_payload "r" initial_state (data_line error_answer)
           error_answer (VObj [("message", VStr "model overloaded")])
           eq_refl eq_refl ltac:(discriminate) eq_refl eq_refl eq_refl).
Defined.

(** A frame cut after its first characters and continued on a second data
    line. *)
Lemma frame_cut_between_lines_witness :
  process_lines (sample_parse [text_frame "hello"]) sample_payload "r"
    initial_state [truncated_line; continued_line]
  = process_lines (sample_parse [text_frame "hello"]) sample_payload "r"
      initial_state [data_line (text_frame "hello")].
Proof.
  apply (frame_cut_between_lines (sample_parse [text_frame "hello"])
           sample_payload "r" initial_state truncated_line continued_line
           (data_line (text_frame "hello"))
           "Unexpected end of JSON input");
    try reflexivity.
  discriminate.
Defined.

(** The usage of a text frame, and the sentinel after it. *)
Lemma usage_last_wins_witness :
  usage
    (state_of
       (process_line (sample_parse [usage_frame]) sample_payload "r"
          initial_state (data_line usage_frame)))
  = VObj [("completion_tokens", VNum 7)]
  /\ written
       (raw (state_of
               (process_lines (sample_parse [usage_frame]) sample_payload
                  "r" initial_state [data_line usage_frame; done_line])))
     = header_block sample_payload "r"
       ++ [WriteSSE "content_block_start" text_block_start;
           WriteSSE "content_block_delta" (text_delta (VStr "hi"));
           WriteSSE "content_block_stop" (content_block_stop (VNum 0));
           WriteSSE "message_delta" (message_delta "end_turn" (VNum 7));
           WriteSSE "message_stop" message_stop;
           EndResponse].
Proof.
  destruct (usage_last_wins (sample_parse [usage_frame]) sample_payload "r"
              initial_state (data_line usage_frame) usage_frame
              eq_refl eq_refl ltac:(discriminate) eq_refl eq_refl eq_refl)
    as [H1 H2].
  split; [exact H1|].
  rewrite (H2 done_line (reach_start _ _ _) eq_refl eq_refl eq_refl eq_refl).
  reflexivity.
Defined.

(** The sentinel with spaces around it and a carriage return after it. *)
Lemma data_line_spacing_witness :
  is_data_line ("  data:   [DONE] " ++ String "013" "") = true
  /\ Str.strip_data (Str.trim ("  data:   [DONE] " ++ String "013" ""))
     = "[DONE]".
Proof.
  apply (data_line_spacing "  " "   " (" " ++ String "013" "") "[DONE]");
    try reflexivity.
  discriminate.
Defined.

(** A schema without uri formats. *)
Lemma schema_without_uri_unchanged_witness :
  Schema.removeUriFormat city_schema = city_schema.
Proof.
  apply (schema_without_uri_unchanged city_schema); reflexivity.
Defined.

(** A schema with uri strings as leaves. *)
Lemma uri_formats_removed_witness :
  uri_free (Schema.removeUriFormat link_schema) = true.
Proof. apply (uri_formats_removed link_schema); reflexivity. Defined.

Lemma sanitizing_twice_witness :
  Schema.removeUriFormat (Schema.removeUriFormat link_schema)
  = Schema.removeUriFormat link_schema.
Proof. apply (sanitizing_twice link_schema); reflexivity. Defined.

(** A key typed at the prompt, with spaces around it. *)
Lemma api_key_never_empty_witness :
  Cli.getApiKey (Cli.mkOptions None false)
    (Cli.mkSurroundings false false false " gsk_1 ") None
  = (Some "gsk_1",
     [Cli.Log "No API key found. Please enter your Groq API key.";
      Cli.Log "You can get one from: https://console.groq.com/keys";
      Cli.Question "Enter your Groq API key: ";
      Cli.Log "API key stored in keychain for future use."],
     Cli.Key "gsk_1")
  /\ "gsk_1" <> "".
Proof.
  split; [reflexivity|].
  apply (api_key_never_empty (Cli.mkOptions None false)
           (Cli.mkSurroundings false false false " gsk_1 ") None
           (Some "gsk_1")
           [Cli.Log "No API key found. Please enter your Groq API key.";
            Cli.Log "You can get one from: https://console.groq.com/keys";
            Cli.Question "Enter your Groq API key: ";
            Cli.Log "API key stored in keychain for future use."]
           "gsk_1").
  reflexivity.
Defined.

(** A key given on the command line over a stored one, and the run that
    follows. *)
Lemma stored_key_round_trip_witness :
  Cli.getApiKey (Cli.mkOptions None false)
    (Cli.mkSurroundings false false false "") (Some "gsk_2")
  = (Some "gsk_2", [Cli.Log "Using stored API key from keychain."],
     Cli.Key "gsk_2").
Proof.
  apply (stored_key_round_trip (Cli.mkOptions (Some "gsk_2") true)
           (Cli.mkSurroundings false false false "") (Some "gsk_1")
           (Some "gsk_2")
           [Cli.Log "Stored API key has been reset.";
            Cli.Log "API key stored in keychain."]
           "gsk_2" (Cli.mkSurroundings false false false ""));
    reflexivity.
Defined.
